(** * Logistics planner: shipments, carriers, routes and delivery statistics

    A shallow embedding of [src/logistics_planner.py] and the properties of
    its repository and analytics functions.

    - Python [int] is [Z]. Python [float] is IEEE 754 binary64, taken from
      the Standard Library's [SpecFloat]: [int / int], [float * int] and
      [round(x, 1)] are exact models. The functions of libm behind
      [math.sin], [math.cos], [math.asin] and [**] are parameters ([libm]).
    - [datetime] is the record of calendar fields that Python keeps, with the
      proleptic Gregorian ordinal arithmetic of the [datetime] module, its
      range of years 1 to 9999, [isoformat] and [fromisoformat].
    - The SQLite table [shipments] is the list of its rows in rowid order;
      the columns [eta] and [created_at] hold text. The [PRIMARY KEY] and
      [NOT NULL] constraints of the schema are checked by [sql_insert], and
      the [REAL] column [weight_kg] gives a negative zero back as 0.0.
    - The clock ([datetime.utcnow]) and the identifier generator
      ([uuid.uuid4]) belong to the environment: the n-th call returns the
      n-th value of a stream, and the world counts the calls.
    - Exceptions are values of [exn]; an operation is a function from the
      world to a result and a world, and a raised exception leaves the table
      as the last completed statement left it. *)

From Stdlib Require Import ZArith Ascii.
From Stdlib Require Import Floats.SpecFloat.
From stdpp Require Import base option list sorting gmap strings.

(** ** Python numbers *)

Module Float.

Local Open Scope Z_scope.

Definition float := spec_float.

Definition prec : Z := 53.
Definition emax : Z := 1024.

Definition mul : float -> float -> float := SFmul prec emax.
Definition div : float -> float -> float := SFdiv prec emax.
Definition sub : float -> float -> float := SFsub prec emax.
Definition add : float -> float -> float := SFadd prec emax.
Definition sqrt : float -> float := SFsqrt prec emax.
Definition ltb : float -> float -> bool := SFltb.

(** [float(z)] for a Python int, rounded to nearest even. *)
Definition of_int (z : Z) : float := binary_normalize prec emax z 0 false.

(** The binary64 nearest to the rational [m1 / m2], ties to even. *)
Definition div_round (s : bool) (m1 m2 : positive) : float :=
  let '(mz, ez, lz) := SFdiv_core_binary prec emax (Zpos m1) 0 (Zpos m2) 0 in
  binary_round_aux prec emax s mz ez lz.

(** [a / b] on Python ints is the correctly rounded quotient; a zero
    divisor raises [ZeroDivisionError], which the callers exclude before
    dividing, and is [nan] here. *)
Definition int_true_div (a b : Z) : float :=
  match a, b with
  | _, Z0 => S754_nan
  | Z0, Zpos _ => S754_zero false
  | Z0, Zneg _ => S754_zero true
  | Zpos m1, Zpos m2 => div_round false m1 m2
  | Zneg m1, Zneg m2 => div_round false m1 m2
  | Zpos m1, Zneg m2 => div_round true m1 m2
  | Zneg m1, Zpos m2 => div_round true m1 m2
  end.

(** A decimal literal [num / den] of the source text, [den] a power of ten. *)
Definition literal (num den : Z) : float := int_true_div num den.

Definition is_nan (x : float) : bool :=
  match x with S754_nan => true | _ => false end.

Definition is_finite (x : float) : bool :=
  match x with S754_zero _ | S754_finite _ _ _ => true | _ => false end.

(** [num / den] rounded to the nearest integer, ties to the even one. *)
Definition half_even (num den : Z) : Z :=
  let q := num / den in
  let r := num mod den in
  match 2 * r ?= den with
  | Lt => q
  | Gt => q + 1
  | Eq => if Z.even q then q else q + 1
  end.

(** [round(x, 1)] on a float: the exact binary value is rounded half-even to
    a whole number of tenths, and the result is the binary64 nearest to that
    decimal. Infinities, nan and whole numbers round to themselves. *)
Definition round1 (x : float) : float :=
  match x with
  | S754_finite s m e =>
      if 0 <=? e then x
      else match half_even (Zpos m * 10) (2 ^ (- e)) with
           | Zpos t => div_round s t 10
           | _ => S754_zero s
           end
  | _ => x
  end.

End Float.

(** A Python number is an [int] or a [float]. *)
Inductive number :=
| NInt (z : Z)
| NFloat (f : Float.float).

(** [round(n, 1)]: an int is returned as it is. *)
Definition py_round1 (n : number) : number :=
  match n with
  | NInt z => NInt z
  | NFloat f => NFloat (Float.round1 f)
  end.

(** ** Python strings *)

Definition truthy (s : string) : bool :=
  match s with EmptyString => false | _ => true end.

(** [repr] of a list of plain strings, as an f-string prints it. *)
Definition py_repr_list (l : list string) : string :=
  "[" +:+ String.concat ", " (map (fun s => "'" +:+ s +:+ "'") l) +:+ "]".

(** The slice [s[:n]]. *)
Definition py_prefix (n : nat) (s : string) : string := String.substring 0 n s.

(** ** Exceptions *)

Inductive exn :=
| ValueError (msg : string)
| IntegrityError (msg : string)
| OverflowError (msg : string).

Inductive result (A : Type) :=
| Ok (a : A)
| Raise (e : exn).

Arguments Ok {A} a.
Arguments Raise {A} e.

Definition result_bind {A B} (r : result A) (k : A -> result B) : result B :=
  match r with
  | Ok a => k a
  | Raise e => Raise e
  end.

(** ** The [datetime] module *)

Module Datetime.

Local Open Scope Z_scope.

(** A naive [datetime]. *)
Record datetime := mk_datetime {
  year : Z;
  month : Z;
  day : Z;
  hour : Z;
  minute : Z;
  second : Z;
  microsecond : Z
}.

(** A normalised [timedelta]. *)
Record timedelta := mk_timedelta {
  days : Z;
  seconds : Z;
  microseconds : Z
}.

Definition MINYEAR : Z := 1.
Definition MAXYEAR : Z := 9999.
Definition MAXORDINAL : Z := 3652059.

Definition is_leap (y : Z) : bool :=
  (y mod 4 =? 0) && (negb (y mod 100 =? 0) || (y mod 400 =? 0)).

Definition DAYS_IN_MONTH (m : Z) : Z :=
  match m with
  | 1 => 31 | 2 => 28 | 3 => 31 | 4 => 30 | 5 => 31 | 6 => 30
  | 7 => 31 | 8 => 31 | 9 => 30 | 10 => 31 | 11 => 30 | 12 => 31
  | _ => -1
  end.

Definition DAYS_BEFORE_MONTH (m : Z) : Z :=
  match m with
  | 1 => 0 | 2 => 31 | 3 => 59 | 4 => 90 | 5 => 120 | 6 => 151
  | 7 => 181 | 8 => 212 | 9 => 243 | 10 => 273 | 11 => 304 | 12 => 334
  | _ => -1
  end.

Definition days_before_year (y : Z) : Z :=
  let y := y - 1 in y * 365 + y / 4 - y / 100 + y / 400.

Definition days_in_month (y m : Z) : Z :=
  if (m =? 2) && is_leap y then 29 else DAYS_IN_MONTH m.

Definition days_before_month (y m : Z) : Z :=
  DAYS_BEFORE_MONTH m + (if (2 <? m) && is_leap y then 1 else 0).

Definition ymd2ord (y m d : Z) : Z :=
  days_before_year y + days_before_month y m + d.

Definition DI400Y : Z := 146097.
Definition DI100Y : Z := 36524.
Definition DI4Y : Z := 1461.

(** Ordinal to (year, month, day), ordinal 1 being 0001-01-01. *)
Definition ord2ymd (n : Z) : Z * Z * Z :=
  let n := n - 1 in
  let n400 := n / DI400Y in
  let n := n mod DI400Y in
  let y := n400 * 400 + 1 in
  let n100 := n / DI100Y in
  let n := n mod DI100Y in
  let n4 := n / DI4Y in
  let n := n mod DI4Y in
  let n1 := n / 365 in
  let n := n mod 365 in
  let y := y + n100 * 100 + n4 * 4 + n1 in
  if (n1 =? 4) || (n100 =? 4) then (y - 1, 12, 31)
  else
    let leapyear := (n1 =? 3) && (negb (n4 =? 24) || (n100 =? 3)) in
    let m := Z.shiftr (n + 50) 5 in
    let preceding := DAYS_BEFORE_MONTH m + (if (2 <? m) && leapyear then 1 else 0) in
    if n <? preceding then
      let m' := m - 1 in
      let preceding' :=
        preceding - (DAYS_IN_MONTH m' + (if (m' =? 2) && leapyear then 1 else 0)) in
      (y, m', n - preceding' + 1)
    else (y, m, n - preceding + 1).

(** What the [datetime] constructor checks. *)
Definition valid (d : datetime) : bool :=
  (MINYEAR <=? year d) && (year d <=? MAXYEAR) &&
  (1 <=? month d) && (month d <=? 12) &&
  (1 <=? day d) && (day d <=? days_in_month (year d) (month d)) &&
  (0 <=? hour d) && (hour d <=? 23) &&
  (0 <=? minute d) && (minute d <=? 59) &&
  (0 <=? second d) && (second d <=? 59) &&
  (0 <=? microsecond d) && (microsecond d <=? 999999).

Definition toordinal (d : datetime) : Z := ymd2ord (year d) (month d) (day d).

(** [timedelta(days, seconds, microseconds)] normalises its arguments. *)
Definition new_timedelta (d s us : Z) : timedelta :=
  let s := s + us / 1000000 in
  let us := us mod 1000000 in
  let d := d + s / 86400 in
  let s := s mod 86400 in
  mk_timedelta d s us.

(** [dt + timedelta(days=n)]. The constructor refuses more than 999999999
    days and the sum must be a date between years 1 and 9999. *)
Definition add_days (dt : datetime) (n : Z) : result datetime :=
  if 999999999 <? Z.abs n then
    Raise (OverflowError "days must have magnitude <= 999999999")
  else
    let delta :=
      new_timedelta (toordinal dt + n)
        (hour dt * 3600 + minute dt * 60 + second dt) (microsecond dt) in
    let hh := seconds delta / 3600 in
    let rem := seconds delta mod 3600 in
    let mm := rem / 60 in
    let ss := rem mod 60 in
    if (0 <? days delta) && (days delta <=? MAXORDINAL) then
      let '(y, m, d) := ord2ymd (days delta) in
      Ok (mk_datetime y m d hh mm ss (microseconds delta))
    else Raise (OverflowError "date value out of range").

(** [a - b] on two naive datetimes. *)
Definition sub (a b : datetime) : timedelta :=
  let secs1 := second a + minute a * 60 + hour a * 3600 in
  let secs2 := second b + minute b * 60 + hour b * 3600 in
  new_timedelta (toordinal a - toordinal b) (secs1 - secs2)
    (microsecond a - microsecond b).

(** Naive datetimes compare field by field. *)
Definition fields (d : datetime) : list Z :=
  [year d; month d; day d; hour d; minute d; second d; microsecond d].

Fixpoint lex_compare (l1 l2 : list Z) : comparison :=
  match l1, l2 with
  | [], [] => Eq
  | [], _ :: _ => Lt
  | _ :: _, [] => Gt
  | x :: l1', y :: l2' =>
      match x ?= y with
      | Eq => lex_compare l1' l2'
      | c => c
      end
  end.

Definition compare (a b : datetime) : comparison :=
  lex_compare (fields a) (fields b).

Definition geb (a b : datetime) : bool :=
  match compare a b with Lt => false | _ => true end.

(** *** ISO-8601 text *)

(** The decimal digits are the bytes 48 to 57. *)
Definition digit_char (k : Z) : ascii := ascii_of_N (Z.to_N (48 + k)).

Definition digit_val (c : ascii) : option Z :=
  let n := Z.of_N (N_of_ascii c) in
  if (48 <=? n) && (n <=? 57) then Some (n - 48) else None.

(** [k] in [n] decimal digits, zero padded (the format [%0nd]). *)
Fixpoint pad (n : nat) (k : Z) : string :=
  match n with
  | O => EmptyString
  | S n' => String (digit_char (k / 10 ^ Z.of_nat n' mod 10)) (pad n' k)
  end.

(** [dt.isoformat()]: the fraction is left out when it is zero. *)
Definition isoformat (d : datetime) : string :=
  pad 4 (year d) +:+ "-" +:+ pad 2 (month d) +:+ "-" +:+ pad 2 (day d) +:+
  "T" +:+ pad 2 (hour d) +:+ ":" +:+ pad 2 (minute d) +:+ ":" +:+
  pad 2 (second d) +:+
  (if microsecond d =? 0 then "" else "." +:+ pad 6 (microsecond d)).

Fixpoint parse_digits (n : nat) (s : string) (acc : Z) : option (Z * string) :=
  match n with
  | O => Some (acc, s)
  | S n' =>
      match s with
      | String c s' =>
          match digit_val c with
          | Some d => parse_digits n' s' (10 * acc + d)
          | None => None
          end
      | EmptyString => None
      end
  end.

Definition expect (c : ascii) (s : string) : option string :=
  match s with
  | String c' s' => if Ascii.eqb c c' then Some s' else None
  | EmptyString => None
  end.

Definition parse_fraction (s : string) : option Z :=
  match s with
  | EmptyString => Some 0
  | String c s' =>
      if Ascii.eqb c "." then
        match parse_digits 6 s' 0 with
        | Some (us, EmptyString) => Some us
        | _ => None
        end
      else None
  end.

(** [datetime.fromisoformat] on the texts [isoformat] writes,
    [YYYY-MM-DDTHH:MM:SS] with an optional [.ffffff]; [None] is its
    [ValueError]. Other spellings Python also reads are not stored by this
    program and count as malformed. *)
Definition parse_iso (s : string) : option datetime :=
  '(y, s) ← parse_digits 4 s 0;
  s ← expect "-" s;
  '(m, s) ← parse_digits 2 s 0;
  s ← expect "-" s;
  '(d, s) ← parse_digits 2 s 0;
  s ← expect "T" s;
  '(hh, s) ← parse_digits 2 s 0;
  s ← expect ":" s;
  '(mm, s) ← parse_digits 2 s 0;
  s ← expect ":" s;
  '(ss, s) ← parse_digits 2 s 0;
  us ← parse_fraction s;
  let dt := mk_datetime y m d hh mm ss us in
  if valid dt then Some dt else None.

Definition fromisoformat (s : string) : result datetime :=
  match parse_iso s with
  | Some dt => Ok dt
  | None => Raise (ValueError ("Invalid isoformat string: '" +:+ s +:+ "'"))
  end.

End Datetime.

(** ** Configuration tables *)

Definition SHIPMENT_STATUSES : list string :=
  ["pending"; "picked_up"; "in_transit"; "out_for_delivery"; "delivered"; "exception"].

Definition PRIORITIES : list string := ["standard"; "express"; "overnight"].

Definition CARRIERS : list string := ["fedex"; "ups"; "usps"; "dhl"; "blackroad-express"].

(** Major city coordinates (latitude, longitude), in the order of the
    source: a Python dict keeps the order of its literal. *)
Definition CITY_COORDS : list (string * (Float.float * Float.float)) :=
  let pos := fun n => Float.literal n 10000 in
  let neg := fun n => SFopp (Float.literal n 10000) in
  [ ("NYC", (pos 407128, neg 740060)%Z);
    ("LAX", (pos 340522, neg 1182437)%Z);
    ("CHI", (pos 418781, neg 876298)%Z);
    ("HOU", (pos 297604, neg 953698)%Z);
    ("PHX", (pos 334484, neg 1120742)%Z);
    ("PHI", (pos 399526, neg 751652)%Z);
    ("SAN", (pos 327157, neg 1171611)%Z);
    ("DAL", (pos 327767, neg 967970)%Z);
    ("SJC", (pos 373382, neg 1218863)%Z);
    ("AUS", (pos 302672, neg 977431)%Z);
    ("DEN", (pos 397392, neg 1049903)%Z);
    ("ATL", (pos 337490, neg 843880)%Z);
    ("BOS", (pos 423601, neg 710589)%Z);
    ("MIA", (pos 257617, neg 801918)%Z);
    ("SEA", (pos 476062, neg 1223321)%Z);
    ("POR", (pos 455152, neg 1226784)%Z);
    ("MIN", (pos 449778, neg 932650)%Z);
    ("DET", (pos 423314, neg 830458)%Z);
    ("CLE", (pos 414993, neg 816944)%Z);
    ("STL", (pos 386270, neg 901994)%Z) ].

(** [d.keys()] and [d[k]] on a dict written as a literal. *)
Definition dict_keys {V} (d : list (string * V)) : list string := fst <$> d.

Fixpoint dict_get {V} (d : list (string * V)) (k : string) : option V :=
  match d with
  | [] => None
  | (k', v) :: d' => if String.eqb k k' then Some v else dict_get d' k
  end.

(** ** Shipments *)

(** The dataclass [Shipment]; [eta] and [created_at] hold ISO-8601 text. *)
Record Shipment := mk_Shipment {
  id : string;
  origin : string;
  destination : string;
  weight_kg : Float.float;
  priority : string;
  status : string;
  eta : option string;
  carrier : option string;
  tracking_id : option string;
  created_at : string
}.

(** ** The environment and the world *)

Record env := mk_env {
  clock : nat -> Datetime.datetime;
  uuids : nat -> string
}.

(** The table [shipments] in rowid order, and how many times the clock and
    the identifier generator have been called. *)
Record world := mk_world {
  shipments : list Shipment;
  clock_reads : nat;
  uuid_draws : nat
}.

Definition M (A : Type) : Type := world -> result A * world.

Definition ret {A} (a : A) : M A := fun w => (Ok a, w).

Definition raise {A} (e : exn) : M A := fun w => (Raise e, w).

Definition bind {A B} (m : M A) (k : A -> M B) : M B :=
  fun w =>
    match m w with
    | (Ok a, w') => k a w'
    | (Raise e, w') => (Raise e, w')
    end.

Definition lift {A} (r : result A) : M A := fun w => (r, w).

#[global] Instance M_ret : MRet M := @ret.
#[global] Instance M_bind : MBind M := fun A B k m => bind m k.

Section Environment.

Variable E : env.

(** [datetime.utcnow()] *)
Definition utcnow : M Datetime.datetime :=
  fun w => (Ok (clock E (clock_reads w)),
            mk_world (shipments w) (S (clock_reads w)) (uuid_draws w)).

(** [str(uuid.uuid4())] *)
Definition uuid4 : M string :=
  fun w => (Ok (uuids E (uuid_draws w)),
            mk_world (shipments w) (clock_reads w) (S (uuid_draws w))).

End Environment.

(** ** SQL statements on the table *)

Definition set_rows (rows : list Shipment) (w : world) : world :=
  mk_world rows (clock_reads w) (uuid_draws w).

(** What a [REAL] column gives back for the float stored in it. SQLite
    keeps a float that is a whole number within the 64-bit integers as that
    integer and makes a float of it when it is read: every such float comes
    back as it was, except the negative zero, which comes back as [0.0]. *)
Definition sql_real (x : Float.float) : Float.float :=
  match x with
  | S754_zero _ => S754_zero false
  | _ => x
  end.

(** A row as the table gives it back. *)
Definition stored (s : Shipment) : Shipment :=
  mk_Shipment (id s) (origin s) (destination s) (sql_real (weight_kg s))
    (priority s) (status s) (eta s) (carrier s) (tracking_id s) (created_at s).

(** [INSERT INTO shipments VALUES (...)]. A nan binds as NULL, which the
    [NOT NULL] column refuses; [id] is the primary key. A refused statement
    writes nothing. *)
Definition sql_insert (s : Shipment) : M unit :=
  fun w =>
    if Float.is_nan (weight_kg s) then
      (Raise (IntegrityError "NOT NULL constraint failed: shipments.weight_kg"), w)
    else if bool_decide (id s ∈ (id <$> shipments w)) then
      (Raise (IntegrityError "UNIQUE constraint failed: shipments.id"), w)
    else (Ok tt, set_rows (shipments w ++ [stored s]) w).

(** [UPDATE shipments SET ... WHERE id = ?]; the result is the number of
    rows written. *)
Definition sql_update (set : Shipment -> Shipment) (sid : string) : M Z :=
  fun w =>
    let hit := fun s => bool_decide (id s = sid) in
    (Ok (Z.of_nat (length (filter (fun s => hit s = true) (shipments w)))),
     set_rows ((fun s => if hit s then set s else s) <$> shipments w) w).

(** [SELECT * FROM shipments WHERE ...], in rowid order. *)
Definition sql_select (cond : Shipment -> bool) : M (list Shipment) :=
  fun w => (Ok (filter (fun s => cond s = true) (shipments w)), w).

(** [ORDER BY created_at DESC]: text compares byte by byte. Rows with the
    same text keep their rowid order here; SQLite promises no order among
    them. *)
Fixpoint insert_desc (s : Shipment) (l : list Shipment) : list Shipment :=
  match l with
  | [] => [s]
  | x :: l' =>
      if String.leb (created_at x) (created_at s) then s :: l
      else x :: insert_desc s l'
  end.

Definition order_by_created_at_desc (l : list Shipment) : list Shipment :=
  foldr insert_desc [] l.


(** ** LogisticsPlanner *)

(** The functions of libm that Python's [math] calls; IEEE 754 does not fix
    their results, so they are taken as given. *)
Record libm := mk_libm {
  libm_sin : Float.float -> Float.float;
  libm_cos : Float.float -> Float.float;
  libm_asin : Float.float -> Float.float;
  libm_pow : Float.float -> Float.float -> Float.float
}.

(** The values of the dict [get_route] returns. *)
Inductive route_value :=
| RStr (s : string)
| RNum (x : Float.float)
| RList (l : list string).

(** The dict [optimize_batch] returns. *)
Record BatchSummary := mk_BatchSummary {
  batch_total_shipments : Z;
  batch_by_carrier : gmap string Z;
  batch_by_priority : gmap string Z
}.

(** The dict [delivery_stats] returns; [stats_by_carrier] holds each
    carrier's [delivery_rate]. *)
Record Stats := mk_Stats {
  total_shipments : Z;
  delivered : Z;
  in_exception : Z;
  on_time_rate_pct : number;
  avg_transit_days : number;
  stats_by_carrier : gmap string Float.float
}.

(** [if k not in d: d[k] = []] then [d[k].append(s)] *)
Definition group_append (k : string) (s : Shipment)
    (d : gmap string (list Shipment)) : gmap string (list Shipment) :=
  let d := match d !! k with None => <[k := []]> d | Some _ => d end in
  alter (fun ships => ships ++ [s]) k d.

(** The per-carrier tallies of [delivery_stats]: (delivered, total). *)
Definition tally (k : string) (s : Shipment) (d : gmap string (Z * Z)) :
    gmap string (Z * Z) :=
  let d := match d !! k with None => <[k := (0, 0)%Z]> d | Some _ => d end in
  let d := alter (fun '(dl, tot) => (dl, tot + 1)%Z) k d in
  if bool_decide (status s = "delivered")
  then alter (fun '(dl, tot) => (dl + 1, tot)%Z) k d
  else d.

Section LogisticsPlanner.

Variable E : env.
Variable L : libm.

(** *** math *)

(** The wrapper of [math.sin], [math.cos], [math.asin] and [math.sqrt]:
    a nan from a number, or an infinity from a finite number, is a
    [ValueError]. *)
Definition math_1 (f : Float.float -> Float.float) (x : Float.float) :
    result Float.float :=
  let r := f x in
  if Float.is_nan r && negb (Float.is_nan x) then
    Raise (ValueError "math domain error")
  else if negb (Float.is_finite r) && negb (Float.is_nan r) && Float.is_finite x then
    Raise (ValueError "math domain error")
  else Ok r.

Definition pi : Float.float := S754_finite false 7074237752028440 (-51).

(** [math.radians(x)] is [x * (pi / 180.0)]. *)
Definition math_radians (x : Float.float) : Float.float :=
  Float.mul x (Float.div pi (Float.of_int 180)).

(** [x ** 2] on a float. *)
Definition float_pow2 (x : Float.float) : result Float.float :=
  match x with
  | S754_nan => Ok S754_nan
  | S754_infinity _ => Ok (S754_infinity false)
  | S754_zero _ => Ok (S754_zero false)
  | S754_finite _ _ _ =>
      if SFeqb (SFabs x) (Float.of_int 1) then Ok (Float.of_int 1)
      else
        let r := libm_pow L (SFabs x) (Float.of_int 2) in
        if negb (Float.is_finite r) && negb (Float.is_nan r) then
          Raise (OverflowError "(34, 'Numerical result out of range')")
        else Ok r
  end.

(** Calculate distance between two coordinates using Haversine formula. *)
Definition _haversine_distance (coord1 coord2 : Float.float * Float.float) :
    result Float.float :=
  let '(lat1, lon1) := coord1 in
  let '(lat2, lon2) := coord2 in
  let R := Float.of_int 6371 in
  let lat1_rad := math_radians lat1 in
  let lat2_rad := math_radians lat2 in
  let delta_lat := math_radians (Float.sub lat2 lat1) in
  let delta_lon := math_radians (Float.sub lon2 lon1) in
  result_bind (math_1 (libm_sin L) (Float.div delta_lat (Float.of_int 2))) (fun s1 =>
  result_bind (float_pow2 s1) (fun s1sq =>
  result_bind (math_1 (libm_cos L) lat1_rad) (fun c1 =>
  result_bind (math_1 (libm_cos L) lat2_rad) (fun c2 =>
  result_bind (math_1 (libm_sin L) (Float.div delta_lon (Float.of_int 2))) (fun s2 =>
  result_bind (float_pow2 s2) (fun s2sq =>
  let a := Float.add s1sq (Float.mul (Float.mul c1 c2) s2sq) in
  result_bind (math_1 Float.sqrt a) (fun root =>
  result_bind (math_1 (libm_asin L) root) (fun as_ =>
  let c := Float.mul (Float.of_int 2) as_ in
  Ok (Float.mul R c))))))))).

(** *** Repository *)

(** Create a new shipment. *)
Definition create_shipment (origin destination : string)
    (weight_kg : Float.float) (priority : string) : M string :=
  if bool_decide (priority ∈ PRIORITIES) then
    u ← uuid4 E;
    let shipment_id := py_prefix 8 u in
    now ← utcnow E;
    let shipment :=
      mk_Shipment shipment_id origin destination weight_kg priority "pending"
        None None None (Datetime.isoformat now) in
    _ ← sql_insert shipment;
    mret shipment_id
  else
    raise (ValueError ("Invalid priority. Must be one of: " +:+ py_repr_list PRIORITIES)).

(** Assign a carrier to a shipment. *)
Definition assign_carrier (shipment_id carrier tracking_id : string)
    (eta_days : Z) : M unit :=
  if bool_decide (carrier ∈ CARRIERS) then
    now ← utcnow E;
    eta_time ← lift (Datetime.add_days now eta_days);
    let eta := Datetime.isoformat eta_time in
    _ ← sql_update
          (fun s => mk_Shipment (id s) (origin s) (destination s) (weight_kg s)
                      (priority s) "picked_up" (Some eta) (Some carrier)
                      (Some tracking_id) (created_at s))
          shipment_id;
    mret tt
  else
    raise (ValueError ("Invalid carrier. Must be one of: " +:+ py_repr_list CARRIERS)).

(** Update shipment status. *)
Definition update_status (shipment_id status' : string) : M unit :=
  if bool_decide (status' ∈ SHIPMENT_STATUSES) then
    _ ← sql_update
          (fun s => mk_Shipment (id s) (origin s) (destination s) (weight_kg s)
                      (priority s) status' (eta s) (carrier s) (tracking_id s)
                      (created_at s))
          shipment_id;
    mret tt
  else
    raise (ValueError ("Invalid status. Must be one of: " +:+ py_repr_list SHIPMENT_STATUSES)).

(** [AND column = ?] is added to the query when the argument is truthy:
    neither [None] nor the empty string. *)
Definition and_equals (column : Shipment -> string) (param : option string)
    (s : Shipment) : bool :=
  match param with
  | Some v => if truthy v then bool_decide (column s = v) else true
  | None => true
  end.

(** Get shipments, optionally filtered by status and/or priority. *)
Definition get_shipments (status' priority' : option string) : M (list Shipment) :=
  rows ← sql_select (fun s => and_equals status status' s && and_equals priority priority' s);
  mret (order_by_created_at_desc rows).

(** *** Analytics *)

(** Get route information between two cities. *)
Definition get_route (origin' destination' : string) :
    result (gmap string route_value) :=
  match dict_get CITY_COORDS origin', dict_get CITY_COORDS destination' with
  | Some c1, Some c2 =>
      result_bind (_haversine_distance c1 c2) (fun distance_km =>
      let duration_h := Float.div distance_km (Float.of_int 80) in
      Ok (<["origin" := RStr origin']>
          (<["destination" := RStr destination']>
          (<["distance_km" := RNum (Float.round1 distance_km)]>
          (<["duration_h" := RNum (Float.round1 duration_h)]>
          (<["stops" := RList [origin'; destination']]> ∅))))))
  | _, _ =>
      Ok {["error" := RStr ("Unknown city. Available cities: " +:+
                            py_repr_list (dict_keys CITY_COORDS))]}
  end.

(** The loop of [optimize_batch] that looks each id up: [fetchone] gives the
    first row of the result, or nothing. *)
Fixpoint fetch_each (shipment_ids : list string) (acc : list Shipment) :
    M (list Shipment) :=
  match shipment_ids with
  | [] => mret acc
  | sid :: rest =>
      rows ← sql_select (fun s => bool_decide (id s = sid));
      match rows with
      | row :: _ => fetch_each rest (acc ++ [row])
      | [] => fetch_each rest acc
      end
  end.

Definition carrier_set (s : Shipment) : option string :=
  match carrier s with
  | Some c => if truthy c then Some c else None
  | None => None
  end.

Definition eta_set (s : Shipment) : option string :=
  match eta s with
  | Some e => if truthy e then Some e else None
  | None => None
  end.

Definition group_by_carrier (l : list Shipment) : gmap string (list Shipment) :=
  foldl (fun d s => match carrier_set s with
                    | Some c => group_append c s d
                    | None => d
                    end) ∅ l.

Definition group_by_priority (l : list Shipment) : gmap string (list Shipment) :=
  foldl (fun d s => group_append (priority s) s d) ∅ l.

Definition len {A} (l : list A) : Z := Z.of_nat (length l).

(** Optimize batch of shipments by grouping by carrier and region. *)
Definition optimize_batch (shipment_ids : list string) : M BatchSummary :=
  found ← fetch_each shipment_ids [];
  let by_carrier := group_by_carrier found in
  let by_priority := group_by_priority found in
  mret (mk_BatchSummary (len found) (len <$> by_carrier) (len <$> by_priority)).

(** The first loop of [delivery_stats]: the clock is read once for every
    delivered shipment that has an eta. *)
Fixpoint count_on_time (l : list Shipment) (on_time_count : Z) : M Z :=
  match l with
  | [] => mret on_time_count
  | s :: l' =>
      match eta_set s with
      | Some e =>
          eta_time ← lift (Datetime.fromisoformat e);
          now ← utcnow E;
          if Datetime.geb eta_time now
          then count_on_time l' (on_time_count + 1)%Z
          else count_on_time l' on_time_count
      | None => count_on_time l' on_time_count
      end
  end.

(** The second loop: [created_at] is parsed for every delivered shipment. *)
Fixpoint collect_transit (l : list Shipment) (transit_times : list Z) :
    result (list Z) :=
  match l with
  | [] => Ok transit_times
  | s :: l' =>
      result_bind (Datetime.fromisoformat (created_at s)) (fun created =>
      match eta_set s with
      | Some e =>
          result_bind (Datetime.fromisoformat e) (fun eta_time =>
          let transit_days := Datetime.days (Datetime.sub eta_time created) in
          collect_transit l' (transit_times ++ [transit_days]))
      | None => collect_transit l' transit_times
      end)
  end.

Definition sum (l : list Z) : Z := foldl Z.add 0%Z l.

Definition is_nil {A} (l : list A) : bool :=
  match l with [] => true | _ => false end.

(** Calculate delivery performance statistics. *)
Definition delivery_stats : M Stats :=
  rows ← sql_select (fun _ => true);
  let all := rows in
  let delivered := filter (fun s => status s = "delivered") all in
  let exception := filter (fun s => status s = "exception") all in
  on_time_count ← (if is_nil delivered then mret 0%Z else count_on_time delivered 0%Z);
  let on_time_rate :=
    if is_nil delivered then NInt 0
    else NFloat (Float.mul (Float.int_true_div on_time_count (len delivered))
                           (Float.of_int 100)) in
  avg_transit_days ←
    (if is_nil delivered then mret (NInt 0)
     else
       transit_times ← lift (collect_transit delivered []);
       if is_nil transit_times then mret (NInt 0)
       else mret (NFloat (Float.int_true_div (sum transit_times) (len transit_times))));
  let by_carrier :=
    foldl (fun d s => match carrier_set s with
                      | Some c => tally c s d
                      | None => d
                      end) ∅ all in
  let carrier_performance :=
    (fun '(dl, tot) =>
       Float.round1 (Float.mul (Float.int_true_div dl tot) (Float.of_int 100)))
    <$> by_carrier in
  mret (mk_Stats (len all) (len delivered) (len exception)
          (py_round1 on_time_rate) (py_round1 avg_transit_days)
          carrier_performance).

End LogisticsPlanner.

(** * Specification vocabulary *)

(** Descending order of the column [created_at], as text. *)
Definition created_desc (a b : Shipment) : Prop :=
  String.leb (created_at b) (created_at a) = true.

(** A filter argument that constrains nothing when it is absent or empty. *)
Definition keeps (column : Shipment -> string) (param : option string)
    (s : Shipment) : bool :=
  match param with
  | Some v => String.eqb v "" || String.eqb (column s) v
  | None => true
  end.

(** A filter argument read literally: a given value must be matched. *)
Definition supplied (column : Shipment -> string) (param : option string)
    (s : Shipment) : bool :=
  match param with
  | Some v => String.eqb (column s) v
  | None => true
  end.

(** The query contract with every given filter value taken literally. *)
Definition literal_query_contract (w : world) (st pr : option string) : Prop :=
  exists l,
    get_shipments st pr w = (Ok l, w) /\
    l ≡ₚ filter (fun s => supplied status st s && supplied priority pr s = true)
           (shipments w) /\
    StronglySorted created_desc l.

(** What [assign_carrier] writes into a row. *)
Definition assigned (s : Shipment) (carrier' tracking' eta' : string) : Shipment :=
  mk_Shipment (id s) (origin s) (destination s) (weight_kg s) (priority s)
    "picked_up" (Some eta') (Some carrier') (Some tracking') (created_at s).

(** [create_shipment] read as succeeding for every priority of the set: one
    pending row is appended, under an id the table did not hold, without
    eta, carrier or tracking id. *)
Definition create_contract (E : env) (w : world) (o d : string)
    (wt : Float.float) (p : string) : Prop :=
  p ∈ PRIORITIES ->
  exists sid w' row,
    create_shipment E o d wt p w = (Ok sid, w') /\
    shipments w' = shipments w ++ [row] /\
    id row = sid /\ (sid ∉ (id <$> shipments w)) /\
    status row = "pending" /\
    eta row = None /\ carrier row = None /\ tracking_id row = None.

(** [assign_carrier] read as succeeding for every row, every carrier of the
    set and every [eta_days]: the row holds the carrier, the tracking id, an
    eta and the status picked_up. *)
Definition assign_contract (E : env) (w : world) (i : nat) (r : Shipment)
    (c tr : string) (eta_days : Z) : Prop :=
  shipments w !! i = Some r ->
  c ∈ CARRIERS ->
  exists w' eta',
    assign_carrier E (id r) c tr eta_days w = (Ok tt, w') /\
    shipments w' !! i = Some (assigned r c tr eta').

(** Both updates read as returning normally, with the rows as they were,
    for every id that is not in the table. *)
Definition silent_noop_contract (E : env) (w : world) (sid c tr st : string)
    (eta_days : Z) : Prop :=
  sid ∉ (id <$> shipments w) ->
  c ∈ CARRIERS ->
  st ∈ SHIPMENT_STATUSES ->
  (exists w', assign_carrier E sid c tr eta_days w = (Ok tt, w') /\
              shipments w' = shipments w) /\
  (exists w', update_status sid st w = (Ok tt, w') /\
              shipments w' = shipments w).

(** [sub] occurs somewhere in [s]. *)
Definition occurs (sub s : string) : bool :=
  match String.index 0 sub s with Some _ => true | None => false end.

(** The row an id resolves to, and the rows a list of ids resolves to: ids
    without a row contribute nothing. *)
Definition find_row (rows : list Shipment) (sid : string) : option Shipment :=
  head (filter (fun s => bool_decide (id s = sid) = true) rows).

Definition resolve (rows : list Shipment) (ids : list string) : list Shipment :=
  omap (find_row rows) ids.

(** A count as a dict entry: a key is present when it counts something. *)
Definition entry (n : Z) : option Z := if (n =? 0)%Z then None else Some n.

(** *** The table invariant *)

(** The text of a datetime Python accepts. *)
Definition iso_text (t : string) : Prop :=
  exists d, Datetime.valid d = true /\ t = Datetime.isoformat d.

(** What every row written through the planner satisfies. *)
Record row_ok (s : Shipment) : Prop := mk_row_ok {
  priority_ok : priority s ∈ PRIORITIES;
  status_ok : status s ∈ SHIPMENT_STATUSES;
  carrier_ok : forall c, carrier s = Some c -> c ∈ CARRIERS;
  eta_ok : forall e, eta s = Some e -> iso_text e;
  created_at_ok : iso_text (created_at s);
  weight_ok : Float.is_nan (weight_kg s) = false
}.

(** The primary key and the rows. *)
Definition table_ok (w : world) : Prop :=
  NoDup (id <$> shipments w) /\ Forall row_ok (shipments w).

(** An operation that keeps the invariant, whatever it returns. *)
Definition keeps_table_ok {A} (m : M A) : Prop :=
  forall w, table_ok w -> table_ok (m w).2.

(** The clock only shows datetimes Python can build. *)
Definition env_ok (E : env) : Prop :=
  forall n, Datetime.valid (clock E n) = true.

(** *** Calendar *)

(** The month and day that [ord2ymd] gives the [n]-th day of a year. *)
Definition month_day (n : Z) (leapyear : bool) : Z * Z :=
  let m := Z.shiftr (n + 50) 5 in
  let preceding :=
    (Datetime.DAYS_BEFORE_MONTH m + (if (2 <? m) && leapyear then 1 else 0))%Z in
  if (n <? preceding)%Z then
    let m' := (m - 1)%Z in
    let preceding' :=
      (preceding -
       (Datetime.DAYS_IN_MONTH m' + (if (m' =? 2) && leapyear then 1 else 0)))%Z in
    (m', (n - preceding' + 1)%Z)
  else (m, (n - preceding + 1)%Z).

(** The month is one of the twelve and the day exists in that month. *)
Definition month_day_ok (leapyear : bool) (n : Z) : bool :=
  let '(m, d) := month_day n leapyear in
  ((1 <=? m) && (m <=? 12) && (1 <=? d) &&
   (d <=? (if (m =? 2) && leapyear then 29 else Datetime.DAYS_IN_MONTH m)))%Z.

(** Counting the days back from the month and day gives [n] again. *)
Definition month_day_inv (leapyear : bool) (n : Z) : bool :=
  let '(m, d) := month_day n leapyear in
  (Datetime.DAYS_BEFORE_MONTH m + (if (2 <? m) && leapyear then 1 else 0) + d
   =? n + 1)%Z.

(** Microseconds since the start of day 0 of the calendar. *)
Definition total_microseconds (d : Datetime.datetime) : Z :=
  ((Datetime.toordinal d * 86400 + Datetime.hour d * 3600 +
    Datetime.minute d * 60 + Datetime.second d) * 1000000 +
   Datetime.microsecond d)%Z.

(** Whole days from [b] to [a], rounded down, and rounded towards zero. *)
Definition whole_days_floor (a b : Datetime.datetime) : Z :=
  ((total_microseconds a - total_microseconds b) / 86400000000)%Z.

Definition whole_days_trunc (a b : Datetime.datetime) : Z :=
  Z.quot (total_microseconds a - total_microseconds b) 86400000000.

(** *** Delivery statistics *)

Definition delivered_rows (rows : list Shipment) : list Shipment :=
  filter (fun s => status s = "delivered") rows.

Definition has_eta (s : Shipment) : bool :=
  match eta s with Some _ => true | None => false end.

Definition rows_with_eta (rows : list Shipment) : list Shipment :=
  filter (fun s => has_eta s = true) rows.

(** The datetime a row's eta denotes. *)
Definition eta_time (s : Shipment) : option Datetime.datetime :=
  eta s ≫= Datetime.parse_iso.

(** The eta has not passed at the reading [now]. *)
Definition on_time (sn : Shipment * Datetime.datetime) : bool :=
  match eta_time sn.1 with
  | Some t => Datetime.geb t sn.2
  | None => false
  end.

(** The [n] clock readings from the [k]-th on. *)
Definition readings (E : env) (k n : nat) : list Datetime.datetime :=
  clock E <$> seq k n.

(** The rows of [l] that have an eta, each paired with the clock reading
    taken when it is examined, and the number of them whose eta has not
    passed at that reading. *)
Definition on_time_count (E : env) (k : nat) (l : list Shipment) : Z :=
  let with_eta := rows_with_eta l in
  len (filter (fun sn => on_time sn = true)
         (zip with_eta (readings E k (length with_eta)))).

(** The rate over all delivered rows. *)
Definition on_time_rate (E : env) (k : nat) (rows : list Shipment) : number :=
  let d := delivered_rows rows in
  if is_nil d then NInt 0
  else NFloat (Float.round1
                 (Float.mul (Float.int_true_div (on_time_count E k d) (len d))
                    (Float.of_int 100))).

(** The rate over the delivered rows that have an eta. *)
Definition on_time_rate_over_eta (E : env) (k : nat) (rows : list Shipment) :
    number :=
  let d := delivered_rows rows in
  if is_nil d then NInt 0
  else NFloat (Float.round1
                 (Float.mul
                    (Float.int_true_div (on_time_count E k d)
                       (len (rows_with_eta d)))
                    (Float.of_int 100))).

(** The transit time of a row that has an eta, in whole days counted by
    [whole_days]. *)
Definition transit (whole_days : Datetime.datetime -> Datetime.datetime -> Z)
    (s : Shipment) : option Z :=
  match eta_time s, Datetime.parse_iso (created_at s) with
  | Some e, Some c => Some (whole_days e c)
  | _, _ => None
  end.

Definition avg_transit (whole_days : Datetime.datetime -> Datetime.datetime -> Z)
    (rows : list Shipment) : number :=
  let ts := omap (transit whole_days) (delivered_rows rows) in
  if is_nil ts then NInt 0
  else NFloat (Float.round1 (Float.int_true_div (sum ts) (len ts))).

(** The contract of [on_time_rate_pct] for a given reading of "rate", and of
    [avg_transit_days] for a given way of counting whole days. *)
Definition on_time_rate_contract
    (rate : env -> nat -> list Shipment -> number) (E : env) (w : world) : Prop :=
  exists stats w',
    delivery_stats E w = (Ok stats, w') /\
    on_time_rate_pct stats = rate E (clock_reads w) (shipments w).

Definition avg_transit_contract
    (whole_days : Datetime.datetime -> Datetime.datetime -> Z)
    (E : env) (w : world) : Prop :=
  exists stats w',
    delivery_stats E w = (Ok stats, w') /\
    avg_transit_days stats = avg_transit whole_days (shipments w).

(** *** Reachable worlds *)

(** The world before the first call. *)
Definition empty_world : world := mk_world [] 0 0.

(** One call of the planner. *)
Inductive planner_step (E : env) : world -> world -> Prop :=
| step_create o d wt p w :
    planner_step E w (create_shipment E o d wt p w).2
| step_assign sid c tr n w :
    planner_step E w (assign_carrier E sid c tr n w).2
| step_update sid st w :
    planner_step E w (update_status sid st w).2
| step_query st pr w :
    planner_step E w (get_shipments st pr w).2
| step_batch ids w :
    planner_step E w (optimize_batch ids w).2
| step_stats w :
    planner_step E w (delivery_stats E w).2.

Definition reachable (E : env) (w : world) : Prop :=
  rtc (planner_step E) empty_world w.

(** ** Sample environment and worlds *)

Definition sample_epoch : Datetime.datetime :=
  Datetime.mk_datetime 2024 1 1 12 0 0 0.

(** A clock that advances one day and one hour per reading. *)
Definition sample_clock (n : nat) : Datetime.datetime :=
  match Datetime.add_days sample_epoch (Z.of_nat n) with
  | Ok d =>
      Datetime.mk_datetime (Datetime.year d) (Datetime.month d) (Datetime.day d)
        ((12 + Z.of_nat n) mod 24) 0 0 0
  | Raise _ => sample_epoch
  end.

Definition sample_uuids (n : nat) : string :=
  match n with
  | 0 => "3f2a9c1e-7b64-4d0a-9e35-5c1f0a8b2d47"
  | 1 => "a81d44f0-02c9-4b7e-8f13-e6d25b90c3a1"
  | _ => "c55e0b72-91af-4e38-b6d4-0f7a3c28e9d5"
  end.

Definition sample_env : env := mk_env sample_clock sample_uuids.

Definition world_of {A} (x : result A * world) : world := snd x.

(** One pending shipment. *)
Definition world_one : world :=
  world_of (create_shipment sample_env "NYC" "LAX" (Float.of_int 5) "standard"
              empty_world).

(** Two delivered shipments, one of them with a carrier and an eta a
    month ahead. *)
Definition world_two_delivered : world :=
  world_of
    ((a ← create_shipment sample_env "NYC" "LAX" (Float.of_int 5) "standard";
      b ← create_shipment sample_env "NYC" "CHI" (Float.of_int 7) "express";
      _ ← assign_carrier sample_env a "fedex" "TRK-1" 30;
      _ ← update_status a "delivered";
      update_status b "delivered") empty_world).

(** One delivered shipment whose eta lies 23 hours before its creation. *)
Definition world_early_eta : world :=
  world_of
    ((a ← create_shipment sample_env "NYC" "LAX" (Float.of_int 5) "standard";
      _ ← assign_carrier sample_env a "ups" "TRK-2" (-2);
      update_status a "delivered") empty_world).

(** ** Vocabulary of the further properties *)

(** What [update_status] writes into a row. *)
Definition with_status (s : Shipment) (status' : string) : Shipment :=
  mk_Shipment (id s) (origin s) (destination s) (weight_kg s) (priority s)
    status' (eta s) (carrier s) (tracking_id s) (created_at s).

(** The fields no operation rewrites. *)
Definition same_identity (r r' : Shipment) : Prop :=
  id r' = id r /\ origin r' = origin r /\ destination r' = destination r /\
  weight_kg r' = weight_kg r /\ priority r' = priority r /\
  created_at r' = created_at r.

(** Carrier, tracking id and eta are absent together. *)
Definition assigned_together (s : Shipment) : Prop :=
  (carrier s = None <-> eta s = None) /\
  (carrier s = None <-> tracking_id s = None).

(** An operation that leaves the rows of the table as they are, whatever it
    returns. *)
Definition keeps_rows {A} (m : M A) : Prop :=
  forall w, shipments (m w).2 = shipments w.

(** The datetime a row was created at, and the order "created no earlier". *)
Definition created_time (s : Shipment) : option Datetime.datetime :=
  Datetime.parse_iso (created_at s).

Definition newest_first (a b : Shipment) : Prop :=
  match created_time a, created_time b with
  | Some ta, Some tb => Datetime.geb ta tb = true
  | _, _ => False
  end.

(** The count a dict of counts holds for a key, 0 for a missing key, and the
    counts of a list of keys added up. *)
Definition count_for (m : gmap string Z) (k : string) : Z := default 0%Z (m !! k).

Definition sum_over (keys : list string) (m : gmap string Z) : Z :=
  foldr (fun k acc => (count_for m k + acc)%Z) 0%Z keys.

(** A generator whose second uuid differs from the first and begins with
    the same eight characters. *)
Definition clash_uuids (n : nat) : string :=
  match n with
  | 0 => "3f2a9c1e-7b64-4d0a-9e35-5c1f0a8b2d47"
  | _ => "3f2a9c1e-0d53-4c6b-a117-92be4f60d8c3"
  end.

Definition clash_env : env := mk_env sample_clock clash_uuids.

(** A generator that draws the same identifier every time. *)
Definition stuck_uuids (n : nat) : string := "3f2a9c1e-7b64-4d0a-9e35-5c1f0a8b2d47".

Definition stuck_env : env := mk_env sample_clock stuck_uuids.

(** The key of a row is one of [keys]. *)
Definition covered {A} (key : A -> option string) (keys : list string) (s : A) :
    bool :=
  match key s with
  | Some k => bool_decide (k ∈ keys)
  | None => false
  end.

(** The rows in exception, the rows of a carrier, and the delivery rate of
    a list of rows as [delivery_stats] computes it for a carrier. *)
Definition exception_rows (rows : list Shipment) : list Shipment :=
  filter (fun s => status s = "exception") rows.

Definition in_flight_rows (rows : list Shipment) : list Shipment :=
  filter (fun s => status s ∈ ["pending"; "picked_up"; "in_transit";
                               "out_for_delivery"]) rows.

Definition carrier_rows (c : string) (rows : list Shipment) : list Shipment :=
  filter (fun s => carrier s = Some c) rows.

Definition delivery_rate (rows : list Shipment) : Float.float :=
  Float.round1
    (Float.mul (Float.int_true_div (len (delivered_rows rows)) (len rows))
               (Float.of_int 100)).

(** libm's sine is an odd function. *)
Definition sin_odd (L : libm) : Prop :=
  forall x, libm_sin L (SFopp x) = SFopp (libm_sin L x).

(** A libm of leading terms, [sin x = x], [cos x = 1], [asin x = x] and
    [pow x y = x * x], to run the distance formula on. *)
Definition leading_libm : libm :=
  mk_libm (fun x => x) (fun _ => Float.of_int 1) (fun x => x)
    (fun x _ => Float.mul x x).

(** * Theorems *)

(** ** Dates and their text *)

Section DatetimeFacts.

Import Datetime.
Local Open Scope Z_scope.

Lemma digit_val_char k : 0 <= k < 10 -> digit_val (digit_char k) = Some k.
Proof.
  intros Hk.
  assert (k = 0 \/ k = 1 \/ k = 2 \/ k = 3 \/ k = 4 \/ k = 5 \/ k = 6 \/
          k = 7 \/ k = 8 \/ k = 9) as Hcases by lia.
  repeat (destruct Hcases as [->|Hcases]; [reflexivity|]). by subst.
Qed.

Lemma append_cons c s r : String c s +:+ r = String c (s +:+ r).
Proof. reflexivity. Qed.

Lemma append_empty_l r : "" +:+ r = r.
Proof. reflexivity. Qed.

Lemma parse_digits_pad n k rest acc :
  parse_digits n (pad n k +:+ rest) acc
  = Some (acc * 10 ^ Z.of_nat n + k mod 10 ^ Z.of_nat n, rest).
Proof.
  revert acc. induction n as [|n IH]; intros acc.
  - cbn [pad parse_digits]. rewrite append_empty_l. simpl.
    rewrite Z.mod_1_r. do 2 f_equal. lia.
  - cbn [pad]. rewrite append_cons. cbn [parse_digits].
    rewrite digit_val_char by (apply Z.mod_pos_bound; lia).
    rewrite IH. do 2 f_equal.
    rewrite Nat2Z.inj_succ, Z.pow_succ_r by lia.
    rewrite (Z.mul_comm 10 (10 ^ Z.of_nat n)).
    rewrite Z.rem_mul_r by lia. lia.
Qed.

Lemma append_empty_r s : s +:+ "" = s.
Proof. induction s as [|c s IH]; [done|]. by rewrite append_cons, IH. Qed.

Lemma valid_fields d :
  valid d = true ->
  (1 <= year d <= 9999) /\ (1 <= month d <= 12) /\
  (1 <= day d <= days_in_month (year d) (month d)) /\
  (0 <= hour d <= 23) /\ (0 <= minute d <= 59) /\ (0 <= second d <= 59) /\
  (0 <= microsecond d <= 999999).
Proof.
  unfold valid, MINYEAR, MAXYEAR. rewrite !andb_true_iff, !Z.leb_le. tauto.
Qed.

Lemma days_in_month_le y m : days_in_month y m <= 31.
Proof.
  unfold days_in_month. case_match; [lia|].
  unfold DAYS_IN_MONTH. repeat case_match; lia.
Qed.

(** Reading back the text of a datetime gives the datetime. *)
Lemma parse_iso_isoformat d : valid d = true -> parse_iso (isoformat d) = Some d.
Proof.
  intros Hv. pose proof (valid_fields d Hv) as (Hy & Hm & Hd & Hh & Hmi & Hs & Hus).
  pose proof (days_in_month_le (year d) (month d)).
  unfold parse_iso, isoformat.
  repeat (rewrite parse_digits_pad;
          rewrite ?append_cons, ?append_empty_l;
          cbn [mbind option_bind expect Ascii.eqb Bool.eqb]).
  rewrite !Z.mod_small by (simpl; lia).
  assert (parse_fraction (if microsecond d =? 0 then ""
                             else String "." (pad 6 (microsecond d)))
          = Some (microsecond d)) as ->.
  { destruct (Z.eqb_spec (microsecond d) 0) as [->|Hne]; [done|].
    cbn [parse_fraction Ascii.eqb Bool.eqb].
    rewrite <- (append_empty_r (pad 6 _)), parse_digits_pad.
    rewrite Z.mod_small by (simpl; lia). done. }
  cbn [mbind option_bind]. rewrite !Z.mul_0_l, !Z.add_0_l.
  destruct d. simpl in *. by rewrite Hv.
Qed.


(** The 365 days of a year, leap or not, are checked one by one. *)
Lemma month_day_checked leapyear n :
  0 <= n < 365 -> month_day_ok leapyear n = true.
Proof.
  intros Hn.
  assert (forallb (month_day_ok leapyear) (Z.of_nat <$> seq 0 365) = true) as Hall.
  { destruct leapyear; vm_compute; reflexivity. }
  rewrite forallb_forall in Hall. apply Hall.
  apply list_elem_of_In, list_elem_of_fmap. exists (Z.to_nat n).
  split; [lia|]. apply elem_of_seq. lia.
Qed.

(** The leap-year test of [ord2ymd] on the cycle counts agrees with
    [is_leap] on the year they make. *)
Lemma leapyear_flag n400 n100 n4 n1 :
  0 <= n100 <= 3 -> 0 <= n4 <= 24 -> 0 <= n1 <= 3 ->
  (n1 =? 3) && (negb (n4 =? 24) || (n100 =? 3))
  = is_leap (n400 * 400 + 1 + n100 * 100 + n4 * 4 + n1).
Proof.
  intros H100 H4 H1. unfold is_leap.
  set (y := n400 * 400 + 1 + n100 * 100 + n4 * 4 + n1).
  assert (y mod 4 = (n1 + 1) mod 4) as E4.
  { unfold y. Z.div_mod_to_equations. lia. }
  assert (y mod 100 = (n4 * 4 + n1 + 1) mod 100) as E100.
  { unfold y. Z.div_mod_to_equations. lia. }
  assert (y mod 400 = (n100 * 100 + n4 * 4 + n1 + 1) mod 400) as E400.
  { unfold y. Z.div_mod_to_equations. lia. }
  rewrite E4, E100, E400.
  destruct (Z.eqb_spec n1 3), (Z.eqb_spec n4 24), (Z.eqb_spec n100 3);
    repeat match goal with
           | |- context [?a mod ?b =? 0] => destruct (Z.eqb_spec (a mod b) 0)
           end; simpl; try done; exfalso; Z.div_mod_to_equations; lia.
Qed.

(** Every ordinal up to [MAXORDINAL] is a date of the calendar. *)
Lemma ord2ymd_valid k :
  0 < k <= MAXORDINAL ->
  let '(y, m, d) := ord2ymd k in
  (1 <= y <= 9999) /\ (1 <= m <= 12) /\ (1 <= d <= days_in_month y m).
Proof.
  unfold MAXORDINAL. intros Hk. unfold ord2ymd. cbv zeta.
  unfold DI400Y, DI100Y, DI4Y.
  set (n0 := k - 1).
  set (n400 := n0 / 146097). set (r400 := n0 mod 146097).
  set (n100 := r400 / 36524). set (r100 := r400 mod 36524).
  set (n4 := r100 / 1461). set (r4 := r100 mod 1461).
  set (n1 := r4 / 365). set (n := r4 mod 365).
  assert (n0 = 146097 * n400 + r400 /\ 0 <= r400 < 146097) as [E400 B400].
  { split; [apply Z.div_mod; lia | apply Z.mod_pos_bound; lia]. }
  assert (r400 = 36524 * n100 + r100 /\ 0 <= r100 < 36524) as [E100 B100].
  { split; [apply Z.div_mod; lia | apply Z.mod_pos_bound; lia]. }
  assert (r100 = 1461 * n4 + r4 /\ 0 <= r4 < 1461) as [E4 B4].
  { split; [apply Z.div_mod; lia | apply Z.mod_pos_bound; lia]. }
  assert (r4 = 365 * n1 + n /\ 0 <= n < 365) as [E1 B1].
  { split; [apply Z.div_mod; lia | apply Z.mod_pos_bound; lia]. }
  assert (n0 = k - 1) as E0 by done.
  clearbody n0 n400 r400 n100 r100 n4 r4 n1 n.
  destruct (Z.eqb_spec n1 4) as [Hn1|Hn1]; simpl orb.
  { unfold days_in_month, DAYS_IN_MONTH. simpl. lia. }
  destruct (Z.eqb_spec n100 4) as [Hn100|Hn100].
  { unfold days_in_month, DAYS_IN_MONTH. simpl. lia. }
  assert (0 <= n100 <= 3) as H100 by lia.
  assert (0 <= n4 <= 24) as H4 by lia.
  assert (0 <= n1 <= 3) as H1 by lia.
  pose proof (month_day_checked
                ((n1 =? 3) && (negb (n4 =? 24) || (n100 =? 3))) n B1) as Hmd.
  unfold month_day_ok, month_day in Hmd. cbv zeta in Hmd.
  rewrite (leapyear_flag n400 n100 n4 n1 H100 H4 H1) in *.
  unfold days_in_month.
  set (y := n400 * 400 + 1 + n100 * 100 + n4 * 4 + n1) in *.
  assert (1 <= y <= 9999) as Hy by (unfold y; lia).
  destruct (n <? _); rewrite !andb_true_iff, !Z.leb_le in Hmd; lia.
Qed.

Lemma valid_intro y m d hh mm ss us :
  (1 <= y <= 9999) -> (1 <= m <= 12) -> (1 <= d <= days_in_month y m) ->
  (0 <= hh <= 23) -> (0 <= mm <= 59) -> (0 <= ss <= 59) -> (0 <= us <= 999999) ->
  valid (mk_datetime y m d hh mm ss us) = true.
Proof.
  intros. unfold valid, MINYEAR, MAXYEAR. simpl.
  rewrite !andb_true_iff, !Z.leb_le. tauto.
Qed.

Lemma new_timedelta_normal d s us :
  0 <= s < 86400 -> 0 <= us < 1000000 ->
  new_timedelta d s us = mk_timedelta d s us.
Proof.
  intros Hs Hus. unfold new_timedelta.
  rewrite (Z.div_small us), (Z.mod_small us) by lia.
  rewrite Z.add_0_r, (Z.div_small s), (Z.mod_small s) by lia.
  by rewrite Z.add_0_r.
Qed.

(** When [add_days] succeeds, the result is a datetime Python accepts, on
    the day [n] ordinals later, at the same time of day. *)
Lemma add_days_spec dt n dt' :
  valid dt = true ->
  add_days dt n = Ok dt' ->
  valid dt' = true /\
  0 < toordinal dt + n <= MAXORDINAL /\
  (year dt', month dt', day dt') = ord2ymd (toordinal dt + n) /\
  hour dt' = hour dt /\ minute dt' = minute dt /\ second dt' = second dt /\
  microsecond dt' = microsecond dt.
Proof.
  intros Hv. pose proof (valid_fields dt Hv) as (Hy & Hm & Hd & Hh & Hmi & Hs & Hus).
  unfold add_days. case_match; [done|].
  rewrite new_timedelta_normal by lia. cbn [days seconds microseconds].
  destruct ((0 <? toordinal dt + n) && (toordinal dt + n <=? MAXORDINAL)) eqn:Hrange;
    [|done].
  apply andb_true_iff in Hrange as [Hlo Hhi].
  apply Z.ltb_lt in Hlo. apply Z.leb_le in Hhi.
  pose proof (ord2ymd_valid (toordinal dt + n) (conj Hlo Hhi)) as Hymd.
  destruct (ord2ymd (toordinal dt + n)) as [[y m] d].
  destruct Hymd as (Hy' & Hm' & Hd').
  set (secs := hour dt * 3600 + minute dt * 60 + second dt).
  assert (secs / 3600 = hour dt) as Eh by (unfold secs; Z.div_mod_to_equations; lia).
  assert (secs mod 3600 / 60 = minute dt) as Em
    by (unfold secs; Z.div_mod_to_equations; lia).
  assert (secs mod 3600 mod 60 = second dt) as Es
    by (unfold secs; Z.div_mod_to_equations; lia).
  rewrite Eh, Em, Es. intros [= <-]. cbn.
  split; [by apply valid_intro|]. done.
Qed.

Lemma month_day_inverted leapyear n :
  0 <= n < 365 -> month_day_inv leapyear n = true.
Proof.
  intros Hn.
  assert (forallb (month_day_inv leapyear) (Z.of_nat <$> seq 0 365) = true) as Hall.
  { destruct leapyear; vm_compute; reflexivity. }
  rewrite forallb_forall in Hall. apply Hall.
  apply list_elem_of_In, list_elem_of_fmap. exists (Z.to_nat n).
  split; [lia|]. apply elem_of_seq. lia.
Qed.

(** [ymd2ord] inverts [ord2ymd]. *)
Lemma ymd2ord_ord2ymd k :
  0 < k ->
  let '(y, m, d) := ord2ymd k in ymd2ord y m d = k.
Proof.
  intros Hk. unfold ord2ymd. cbv zeta.
  unfold DI400Y, DI100Y, DI4Y.
  set (n0 := k - 1).
  set (n400 := n0 / 146097). set (r400 := n0 mod 146097).
  set (n100 := r400 / 36524). set (r100 := r400 mod 36524).
  set (n4 := r100 / 1461). set (r4 := r100 mod 1461).
  set (n1 := r4 / 365). set (n := r4 mod 365).
  assert (n0 = 146097 * n400 + r400 /\ 0 <= r400 < 146097) as [E400 B400].
  { split; [apply Z.div_mod; lia | apply Z.mod_pos_bound; lia]. }
  assert (r400 = 36524 * n100 + r100 /\ 0 <= r100 < 36524) as [E100 B100].
  { split; [apply Z.div_mod; lia | apply Z.mod_pos_bound; lia]. }
  assert (r100 = 1461 * n4 + r4 /\ 0 <= r4 < 1461) as [E4 B4].
  { split; [apply Z.div_mod; lia | apply Z.mod_pos_bound; lia]. }
  assert (r4 = 365 * n1 + n /\ 0 <= n < 365) as [E1 B1].
  { split; [apply Z.div_mod; lia | apply Z.mod_pos_bound; lia]. }
  assert (n0 = k - 1) as E0 by done.
  clearbody n0 n400 r400 n100 r100 n4 r4 n1 n.
  assert (0 <= n400) as H400 by lia.
  destruct ((n1 =? 4) || (n100 =? 4)) eqn:Hlast.
  - unfold ymd2ord, days_before_year, days_before_month, is_leap.
    change (DAYS_BEFORE_MONTH 12) with 334. change (2 <? 12) with true.
    cbn [andb].
    set (y := n400 * 400 + 1 + n100 * 100 + n4 * 4 + n1 - 1).
    apply orb_true_iff in Hlast as [H|H]; apply Z.eqb_eq in H.
    + assert (y mod 4 = 0) as -> by (unfold y; Z.div_mod_to_equations; lia).
      assert (y mod 100 <> 0) as Hne by (unfold y; Z.div_mod_to_equations; lia).
      apply Z.eqb_neq in Hne. rewrite Hne. simpl.
      unfold y. Z.div_mod_to_equations. lia.
    + assert (y mod 4 = 0) as -> by (unfold y; Z.div_mod_to_equations; lia).
      assert (y mod 400 = 0) as -> by (unfold y; Z.div_mod_to_equations; lia).
      rewrite orb_true_r. simpl.
      unfold y. Z.div_mod_to_equations. lia.
  - apply orb_false_iff in Hlast as [Hn1 Hn100].
    apply Z.eqb_neq in Hn1. apply Z.eqb_neq in Hn100.
    assert (0 <= n100 <= 3) as H100 by lia.
    assert (0 <= n4 <= 24) as H4 by lia.
    assert (0 <= n1 <= 3) as H1 by lia.
    pose proof (month_day_inverted
                  ((n1 =? 3) && (negb (n4 =? 24) || (n100 =? 3))) n B1) as Hmd.
    unfold month_day_inv, month_day in Hmd. cbv zeta in Hmd.
    rewrite (leapyear_flag n400 n100 n4 n1 H100 H4 H1) in *.
    set (y := n400 * 400 + 1 + n100 * 100 + n4 * 4 + n1) in *.
    assert (days_before_year y = n0 - n) as Ey.
    { unfold days_before_year, y. Z.div_mod_to_equations. lia. }
    destruct (n <? _); apply Z.eqb_eq in Hmd;
      unfold ymd2ord, days_before_month; rewrite Ey; lia.
Qed.

End DatetimeFacts.

Section DatetimeText.

Import Datetime.
Local Open Scope Z_scope.

Lemma fromisoformat_isoformat d :
  valid d = true -> fromisoformat (isoformat d) = Ok d.
Proof. intros Hv. unfold fromisoformat. by rewrite parse_iso_isoformat. Qed.

Lemma iso_text_truthy t : iso_text t -> truthy t = true.
Proof. intros (d & _ & ->). reflexivity. Qed.

(** [(a - b).days] is the difference in microseconds divided by a day,
    rounded down. *)
Lemma days_sub_floor a b : days (sub a b) = whole_days_floor a b.
Proof.
  unfold sub, new_timedelta, whole_days_floor, total_microseconds. cbn [days].
  Z.div_mod_to_equations. lia.
Qed.

(** Adding days moves the ordinal by that many days and keeps the time of
    day; the difference to the start is exactly [n] days. *)
Lemma add_days_exact dt n dt' :
  valid dt = true ->
  add_days dt n = Ok dt' ->
  toordinal dt' = toordinal dt + n /\ sub dt' dt = mk_timedelta n 0 0.
Proof.
  intros Hv Hadd.
  destruct (add_days_spec dt n dt' Hv Hadd) as (Hv' & Hr & Hymd & Hh & Hm & Hs & Hus).
  assert (toordinal dt' = toordinal dt + n) as Hord.
  { pose proof (ymd2ord_ord2ymd (toordinal dt + n) (proj1 Hr)) as Hinv.
    rewrite <- Hymd in Hinv. exact Hinv. }
  split; [done|].
  unfold sub. rewrite Hord, Hh, Hm, Hs, Hus.
  replace (toordinal dt + n - toordinal dt) with n by lia.
  rewrite !Z.sub_diag. by rewrite new_timedelta_normal.
Qed.

Lemma digit_char_compare a b :
  0 <= a < 10 -> 0 <= b < 10 ->
  Ascii.compare (digit_char a) (digit_char b) = (a ?= b).
Proof.
  intros Ha Hb. unfold Ascii.compare, digit_char.
  rewrite !N_ascii_embedding by lia.
  rewrite Z2N.inj_compare by lia. apply Z.add_compare_mono_l.
Qed.

Lemma compare_high_low P hx lx hy ly :
  0 <= lx < P -> 0 <= ly < P ->
  (hx * P + lx ?= hy * P + ly)
  = match hx ?= hy with Eq => lx ?= ly | c => c end.
Proof.
  intros Hx Hy. destruct (Z.compare_spec hx hy) as [->|Hlt|Hgt].
  - apply Z.add_compare_mono_l.
  - apply Z.compare_lt_iff. nia.
  - apply Z.compare_gt_iff. nia.
Qed.

Lemma compare_pad n x y r1 r2 :
  String.compare (pad n x +:+ r1) (pad n y +:+ r2)
  = match x mod 10 ^ Z.of_nat n ?= y mod 10 ^ Z.of_nat n with
    | Eq => String.compare r1 r2
    | c => c
    end.
Proof.
  induction n as [|n IH].
  - cbn [pad]. rewrite !append_empty_l. simpl. by rewrite !Z.mod_1_r.
  - cbn [pad]. rewrite !append_cons. cbn [String.compare].
    rewrite digit_char_compare by (apply Z.mod_pos_bound; lia).
    rewrite IH.
    rewrite Nat2Z.inj_succ, Z.pow_succ_r by lia.
    rewrite (Z.mul_comm 10 (10 ^ Z.of_nat n)).
    rewrite !Z.rem_mul_r by lia.
    set (P := 10 ^ Z.of_nat n).
    assert (0 < P) as HP by (apply Z.pow_pos_nonneg; lia).
    rewrite (Z.add_comm (x mod P)), (Z.add_comm (y mod P)).
    rewrite !(Z.mul_comm P).
    rewrite compare_high_low by (apply Z.mod_pos_bound; lia).
    by destruct ((x `div` P) `mod` 10 ?= (y `div` P) `mod` 10).
Qed.

Lemma compare_fraction a b :
  0 <= a <= 999999 -> 0 <= b <= 999999 ->
  String.compare (if a =? 0 then "" else String "." (pad 6 a))
                 (if b =? 0 then "" else String "." (pad 6 b))
  = (a ?= b).
Proof.
  intros Ha Hb.
  destruct (Z.eqb_spec a 0) as [->|Hna], (Z.eqb_spec b 0) as [->|Hnb].
  - done.
  - cbn [String.compare]. symmetry. apply Z.compare_lt_iff. lia.
  - cbn [String.compare]. symmetry. apply Z.compare_gt_iff. lia.
  - cbn [String.compare]. change (Ascii.compare "." ".") with Eq. cbv iota.
    rewrite <- (append_empty_r (pad 6 a)), <- (append_empty_r (pad 6 b)).
    rewrite compare_pad. rewrite !Z.mod_small by (simpl; lia).
    by destruct (a ?= b).
Qed.

(** The texts of two datetimes compare as the datetimes do, so that
    [ORDER BY created_at] on the text is the order of creation. *)
Lemma compare_isoformat a b :
  valid a = true -> valid b = true ->
  String.compare (isoformat a) (isoformat b) = Datetime.compare a b.
Proof.
  intros Ha Hb.
  pose proof (valid_fields a Ha) as (Hy & Hm & Hd & Hh & Hmi & Hs & Hus).
  pose proof (valid_fields b Hb) as (Hy' & Hm' & Hd' & Hh' & Hmi' & Hs' & Hus').
  pose proof (days_in_month_le (year a) (month a)).
  pose proof (days_in_month_le (year b) (month b)).
  unfold isoformat, Datetime.compare, fields. cbn [lex_compare].
  repeat (rewrite compare_pad; rewrite ?append_cons, ?append_empty_l;
          cbn [String.compare];
          rewrite ?(Z.mod_small _ _) by (simpl; lia)).
  change (Ascii.compare "-" "-") with Eq.
  change (Ascii.compare "T" "T") with Eq.
  change (Ascii.compare ":" ":") with Eq. cbv iota.
  rewrite compare_fraction by lia.
  repeat (destruct (_ ?= _); try done).
Qed.

Lemma toordinal_rough d : valid d = true -> 0 < toordinal d <= 4000000.
Proof.
  intros Hv. pose proof (valid_fields d Hv) as (Hy & Hm & Hd & _).
  pose proof (days_in_month_le (year d) (month d)).
  unfold toordinal, ymd2ord, days_before_year, days_before_month.
  assert (0 <= DAYS_BEFORE_MONTH (month d) <= 334) as Hbm.
  { assert (month d = 1 \/ month d = 2 \/ month d = 3 \/ month d = 4 \/
            month d = 5 \/ month d = 6 \/ month d = 7 \/ month d = 8 \/
            month d = 9 \/ month d = 10 \/ month d = 11 \/ month d = 12)
      as Hcases by lia.
    repeat (destruct Hcases as [Hc|Hcases]; [rewrite Hc; simpl; lia|]).
    rewrite Hcases. simpl. lia. }
  destruct ((2 <? month d) && is_leap (year d));
    Z.div_mod_to_equations; lia.
Qed.

(** [add_days] succeeds exactly on the sums Python can represent. *)
Lemma add_days_in_range dt n :
  valid dt = true ->
  0 < toordinal dt + n <= MAXORDINAL ->
  exists dt', add_days dt n = Ok dt'.
Proof.
  intros Hv Hr. pose proof (toordinal_rough dt Hv) as Hord.
  pose proof (valid_fields dt Hv) as (Hy & Hm & Hd & Hh & Hmi & Hs & Hus).
  unfold add_days. unfold MAXORDINAL in *.
  destruct (Z.ltb_spec 999999999 (Z.abs n)) as [Hbig|_]; [lia|].
  rewrite new_timedelta_normal by lia. cbn [days seconds microseconds].
  assert ((0 <? toordinal dt + n) && (toordinal dt + n <=? 3652059) = true) as ->.
  { apply andb_true_iff. split; [apply Z.ltb_lt | apply Z.leb_le]; lia. }
  destruct (ord2ymd (toordinal dt + n)) as [[y m] d]. by eexists.
Qed.

End DatetimeText.

(** ** The state and error monad *)

Lemma set_rows_same w : set_rows (shipments w) w = w.
Proof. by destruct w. Qed.

Lemma bind_ok {A B} (m : M A) (k : A -> M B) w a w' :
  m w = (Ok a, w') -> (m ≫= k) w = k a w'.
Proof. intros H. unfold mbind, M_bind, bind. by rewrite H. Qed.

Lemma bind_raise {A B} (m : M A) (k : A -> M B) w e w' :
  m w = (Raise e, w') -> (m ≫= k) w = (Raise e, w').
Proof. intros H. unfold mbind, M_bind, bind. by rewrite H. Qed.

(** ** SQL statements *)

Lemma sql_real_nan x : Float.is_nan (sql_real x) = Float.is_nan x.
Proof. by destruct x. Qed.

Lemma sql_insert_fresh s w :
  Float.is_nan (weight_kg s) = false ->
  id s ∉ (id <$> shipments w) ->
  sql_insert s w = (Ok tt, set_rows (shipments w ++ [stored s]) w).
Proof.
  intros Hnan Hfresh. unfold sql_insert. rewrite Hnan.
  by rewrite bool_decide_eq_false_2.
Qed.

Lemma sql_insert_refused s w r w' :
  sql_insert s w = (r, w') -> r <> Ok tt -> w' = w.
Proof.
  unfold sql_insert. intros H Hr.
  repeat case_match; simplify_eq; done.
Qed.

Lemma filter_id_missing sid (rows : list Shipment) :
  sid ∉ (id <$> rows) ->
  filter (fun s => bool_decide (id s = sid) = true) rows = [].
Proof.
  induction rows as [|r rows IH]; [done|].
  intros Hnot. rewrite filter_cons.
  rewrite fmap_cons, not_elem_of_cons in Hnot. destruct Hnot as [Hne Hrest].
  simpl in Hne. rewrite bool_decide_eq_false_2 by done.
  destruct (decide (false = true)) as [?|_]; [done|]. by apply IH.
Qed.

Lemma map_update_missing (set : Shipment -> Shipment) sid (rows : list Shipment) :
  sid ∉ (id <$> rows) ->
  (fun s => if bool_decide (id s = sid) then set s else s) <$> rows = rows.
Proof.
  induction rows as [|r rows IH]; [done|].
  intros Hnot. rewrite fmap_cons, not_elem_of_cons in Hnot.
  destruct Hnot as [Hne Hrest].
  rewrite fmap_cons, bool_decide_eq_false_2 by done. by rewrite IH.
Qed.

Lemma sql_update_missing set sid w :
  sid ∉ (id <$> shipments w) -> sql_update set sid w = (Ok 0%Z, w).
Proof.
  intros Hnot. unfold sql_update.
  rewrite filter_id_missing, map_update_missing by done.
  by rewrite set_rows_same.
Qed.

(** With a primary key, an update by id rewrites one position of the table. *)
Lemma map_update_unique (set : Shipment -> Shipment) (rows : list Shipment) i r :
  NoDup ((id <$> rows)) ->
  rows !! i = Some r ->
  (fun s => if bool_decide (id s = id r) then set s else s) <$> rows
  = <[i := set r]> rows.
Proof.
  revert i. induction rows as [|x rows IH]; intros i Hnd Hi; [done|].
  rewrite fmap_cons in Hnd. apply NoDup_cons in Hnd as [Hx Hnd].
  rewrite fmap_cons. destruct i as [|i]; simpl in *.
  - simplify_eq. rewrite bool_decide_eq_true_2 by done.
    f_equal. by apply map_update_missing.
  - assert (id x <> id r) as Hne.
    { intros Heq. apply Hx. rewrite Heq.
      apply list_elem_of_fmap. exists r. split; [done|].
      by eapply list_elem_of_lookup_2. }
    rewrite bool_decide_eq_false_2 by done. f_equal. by apply IH.
Qed.

(** ** Repository: create, assign, update *)

Lemma create_shipment_invalid E o d wt p w :
  p ∉ PRIORITIES ->
  create_shipment E o d wt p w
  = (Raise (ValueError ("Invalid priority. Must be one of: " +:+
                        py_repr_list PRIORITIES)), w).
Proof.
  intros Hp. unfold create_shipment.
  by rewrite bool_decide_eq_false_2.
Qed.

Lemma create_shipment_valid E o d wt p w :
  p ∈ PRIORITIES ->
  Float.is_nan wt = false ->
  py_prefix 8 (uuids E (uuid_draws w)) ∉ (id <$> shipments w) ->
  create_shipment E o d wt p w
  = (Ok (py_prefix 8 (uuids E (uuid_draws w))),
     mk_world
       (shipments w ++
        [mk_Shipment (py_prefix 8 (uuids E (uuid_draws w))) o d (sql_real wt) p
           "pending" None None None
           (Datetime.isoformat (clock E (clock_reads w)))])
       (S (clock_reads w)) (S (uuid_draws w))).
Proof.
  intros Hp Hnan Hfresh. unfold create_shipment.
  rewrite bool_decide_eq_true_2 by done.
  unfold mbind, M_bind, bind, uuid4, utcnow; simpl.
  by rewrite sql_insert_fresh.
Qed.

(** With a priority of the set, a nan weight or an id already in the table
    is refused by the schema; the identifier and the reading are spent. *)
Lemma create_shipment_refused E o d wt p w :
  p ∈ PRIORITIES ->
  Float.is_nan wt = true \/
  py_prefix 8 (uuids E (uuid_draws w)) ∈ (id <$> shipments w) ->
  exists msg,
    create_shipment E o d wt p w
    = (Raise (IntegrityError msg),
       mk_world (shipments w) (S (clock_reads w)) (S (uuid_draws w))).
Proof.
  intros Hp Hbad. unfold create_shipment.
  rewrite bool_decide_eq_true_2 by done.
  unfold mbind, M_bind, bind, uuid4, utcnow, sql_insert; simpl.
  destruct (Float.is_nan wt) eqn:Hnan; [by eexists|].
  destruct Hbad as [?|Hdup]; [done|].
  rewrite bool_decide_eq_true_2 by done. by eexists.
Qed.

(** C3 (amended). A priority outside {standard, express, overnight} makes
    [create_shipment] raise [ValueError] with the world exactly as it was:
    no row is written and no identifier is drawn, so every later query
    answers as before. With a priority of the set the call succeeds exactly
    when the weight is not nan and the drawn identifier is not yet in the
    table: it then appends exactly one row, with status pending, the drawn
    identifier, the weight as the [REAL] column gives it back, [created_at]
    the text of the current time, and no eta, carrier or tracking id, and
    the ids stay pairwise different. Otherwise it raises [IntegrityError]
    and the table is as before. *)
Theorem create_shipment_validate_then_write
    (E : env) (w : world) (o d : string) (wt : Float.float) (p : string) :
  (p ∉ PRIORITIES ->
     exists msg, create_shipment E o d wt p w = (Raise (ValueError msg), w)) /\
  (p ∈ PRIORITIES ->
     let sid := py_prefix 8 (uuids E (uuid_draws w)) in
     let row :=
       mk_Shipment sid o d (sql_real wt) p "pending" None None None
         (Datetime.isoformat (clock E (clock_reads w))) in
     (Float.is_nan wt = false /\ sid ∉ (id <$> shipments w) ->
        exists w',
          create_shipment E o d wt p w = (Ok sid, w') /\
          shipments w' = shipments w ++ [row] /\
          (NoDup (id <$> shipments w) -> NoDup (id <$> shipments w'))) /\
     (Float.is_nan wt = true \/ sid ∈ (id <$> shipments w) ->
        exists msg w',
          create_shipment E o d wt p w = (Raise (IntegrityError msg), w') /\
          shipments w' = shipments w)).
Proof.
  split.
  - intros Hp. eexists. by apply create_shipment_invalid.
  - intros Hp sid row. split.
    + intros [Hnan Hfresh].
      eexists. split; [by apply create_shipment_valid|].
      simpl. split; [done|].
      intros Hnd. rewrite fmap_app. apply NoDup_app. repeat split; [done| |].
      * intros x Hx Hx'. simpl in Hx'. apply list_elem_of_singleton in Hx'.
        by subst.
      * simpl. apply NoDup_singleton.
    + intros Hbad.
      destruct (create_shipment_refused E o d wt p w Hp Hbad) as [msg Hrun].
      exists msg. eexists. split; [exact Hrun|done].
Qed.

Lemma create_shipment_validate_then_write_witness :
  (exists msg,
     create_shipment sample_env "NYC" "LAX" (Float.of_int 5) "same-day" world_one
     = (Raise (ValueError msg), world_one)) /\
  (exists w',
     create_shipment sample_env "NYC" "CHI" (S754_zero true) "express" world_one
     = (Ok "a81d44f0", w') /\
     shipments w'
     = shipments world_one ++
       [mk_Shipment "a81d44f0" "NYC" "CHI" (S754_zero false) "express" "pending"
          None None None "2024-01-02T13:00:00"]) /\
  (exists msg w',
     create_shipment clash_env "NYC" "CHI" (Float.of_int 7) "express" world_one
     = (Raise (IntegrityError msg), w') /\
     shipments w' = shipments world_one).
Proof.
  split; [|split].
  - apply (create_shipment_validate_then_write sample_env world_one
             "NYC" "LAX" (Float.of_int 5) "same-day").
    vm_compute. intros H. repeat (apply elem_of_cons in H as [H|H]; [done|]).
    by apply elem_of_nil in H.
  - destruct (proj2 (create_shipment_validate_then_write sample_env world_one
                       "NYC" "CHI" (S754_zero true) "express"))
      as [Hok _].
    + apply list_elem_of_further, list_elem_of_here.
    + destruct Hok as (w' & Hrun & Hrows & _).
      * split; [reflexivity|].
        vm_compute. intros H.
        repeat (apply elem_of_cons in H as [H|H]; [done|]).
        by apply elem_of_nil in H.
      * exists w'. split; [exact Hrun|exact Hrows].
  - destruct (proj2 (create_shipment_validate_then_write clash_env world_one
                       "NYC" "CHI" (Float.of_int 7) "express"))
      as [_ Hbad].
    + apply list_elem_of_further, list_elem_of_here.
    + apply Hbad. right. vm_compute. apply list_elem_of_here.
Defined.

(** C3 as stated fails: a priority of the set is not enough. A nan weight
    is refused by the [NOT NULL] column, and a uuid that begins with the
    eight characters of an id of the table is refused by the primary key;
    in both cases [IntegrityError] is raised and no row is written. *)
Lemma create_contract_fails :
  ~ (create_contract sample_env empty_world "NYC" "LAX" S754_nan "standard" \/
     create_contract clash_env world_one "NYC" "LAX" (Float.of_int 5) "standard").
Proof.
  intros [Hc|Hc].
  - destruct Hc as (sid & w' & row & Hrun & _).
    + apply list_elem_of_here.
    + vm_compute in Hrun. discriminate Hrun.
  - destruct Hc as (sid & w' & row & Hrun & _).
    + apply list_elem_of_here.
    + vm_compute in Hrun. discriminate Hrun.
Qed.

Lemma add_days_out_of_range dt n :
  Datetime.valid dt = true ->
  ~ (0 < Datetime.toordinal dt + n <= Datetime.MAXORDINAL)%Z ->
  exists msg, Datetime.add_days dt n = Raise (OverflowError msg).
Proof.
  intros Hv Hout.
  pose proof (valid_fields dt Hv) as (Hy & Hm & Hd & Hh & Hmi & Hs & Hus).
  unfold Datetime.add_days. case_match; [by eexists|].
  rewrite new_timedelta_normal by lia.
  cbn [Datetime.days Datetime.seconds Datetime.microseconds].
  destruct ((0 <? Datetime.toordinal dt + n)%Z &&
            (Datetime.toordinal dt + n <=? Datetime.MAXORDINAL)%Z) eqn:Hrange;
    [|by eexists].
  apply andb_true_iff in Hrange as [Hlo Hhi].
  apply Z.ltb_lt in Hlo. apply Z.leb_le in Hhi. lia.
Qed.

Lemma assign_carrier_run E sid c tr n w eta_time :
  c ∈ CARRIERS ->
  Datetime.add_days (clock E (clock_reads w)) n = Ok eta_time ->
  assign_carrier E sid c tr n w
  = (Ok tt,
     mk_world
       ((fun s => if bool_decide (id s = sid)
                  then assigned s c tr (Datetime.isoformat eta_time) else s)
          <$> shipments w)
       (S (clock_reads w)) (uuid_draws w)).
Proof.
  intros Hc Hadd. unfold assign_carrier.
  rewrite bool_decide_eq_true_2 by done.
  unfold mbind, M_bind, bind, utcnow, lift; simpl.
  by rewrite Hadd.
Qed.

Lemma update_status_run sid st w :
  st ∈ SHIPMENT_STATUSES ->
  update_status sid st w
  = (Ok tt,
     set_rows
       ((fun s => if bool_decide (id s = sid)
                  then mk_Shipment (id s) (origin s) (destination s)
                         (weight_kg s) (priority s) st (eta s) (carrier s)
                         (tracking_id s) (created_at s)
                  else s) <$> shipments w) w).
Proof.
  intros Hst. unfold update_status.
  by rewrite bool_decide_eq_true_2.
Qed.

(** C2 (amended). For a row of the table (whatever its status) and a
    carrier of the fixed set, [assign_carrier] succeeds exactly when the
    current day plus [eta_days] (of any sign) is a day between 0001-01-01
    and 9999-12-31. It then rewrites that row alone: carrier and tracking id
    as given, eta the text of the current time plus [eta_days] days, status
    picked_up; every other field and every other row is as before, and the
    eta lies exactly [eta_days] days after the current time. Otherwise it
    raises [OverflowError] and no row is written. *)
Theorem assign_carrier_sets_fields
    (E : env) (w : world) (i : nat) (r : Shipment) (c tr : string)
    (eta_days : Z) :
  NoDup (id <$> shipments w) ->
  shipments w !! i = Some r ->
  c ∈ CARRIERS ->
  Datetime.valid (clock E (clock_reads w)) = true ->
  let now := clock E (clock_reads w) in
  let day := (Datetime.toordinal now + eta_days)%Z in
  ((0 < day <= Datetime.MAXORDINAL)%Z ->
     exists eta_time w',
       assign_carrier E (id r) c tr eta_days w = (Ok tt, w') /\
       shipments w' =
         <[i := mk_Shipment (id r) (origin r) (destination r) (weight_kg r)
                  (priority r) "picked_up" (Some (Datetime.isoformat eta_time))
                  (Some c) (Some tr) (created_at r)]> (shipments w) /\
       Datetime.valid eta_time = true /\
       Datetime.sub eta_time now = Datetime.mk_timedelta eta_days 0 0) /\
  (~ (0 < day <= Datetime.MAXORDINAL)%Z ->
     exists msg w',
       assign_carrier E (id r) c tr eta_days w = (Raise (OverflowError msg), w') /\
       shipments w' = shipments w).
Proof.
  intros Hnd Hi Hc Hnow now day. subst now day. split; intros Hday.
  - destruct (add_days_in_range _ _ Hnow Hday) as [eta_time Hadd].
    exists eta_time. eexists. split; [|split; [|split]].
    + by eapply assign_carrier_run.
    + simpl.
      by rewrite (map_update_unique
                    (fun s => assigned s c tr (Datetime.isoformat eta_time))
                    (shipments w) i r).
    + by destruct (add_days_spec _ _ _ Hnow Hadd).
    + by destruct (add_days_exact _ _ _ Hnow Hadd).
  - destruct (add_days_out_of_range _ _ Hnow Hday) as [msg Hadd].
    exists msg. eexists. unfold assign_carrier.
    rewrite bool_decide_eq_true_2 by done.
    unfold mbind, M_bind, bind, utcnow, lift. simpl. by rewrite Hadd.
Qed.

Lemma assign_carrier_sets_fields_witness :
  (exists eta_time w',
     assign_carrier sample_env "3f2a9c1e" "dhl" "TRK-1" (-3) world_one
     = (Ok tt, w') /\
     shipments w' =
       <[0 := mk_Shipment "3f2a9c1e" "NYC" "LAX" (Float.of_int 5) "standard"
                "picked_up" (Some (Datetime.isoformat eta_time)) (Some "dhl")
                (Some "TRK-1") "2024-01-01T12:00:00"]> (shipments world_one) /\
     Datetime.valid eta_time = true /\
     Datetime.sub eta_time (Datetime.mk_datetime 2024 1 2 13 0 0 0)
     = Datetime.mk_timedelta (-3) 0 0) /\
  (exists msg w',
     assign_carrier sample_env "3f2a9c1e" "dhl" "TRK-1" 3000000 world_one
     = (Raise (OverflowError msg), w') /\
     shipments w' = shipments world_one).
Proof.
  split.
  - apply (assign_carrier_sets_fields sample_env world_one 0
             (mk_Shipment "3f2a9c1e" "NYC" "LAX" (Float.of_int 5) "standard"
                "pending" None None None "2024-01-01T12:00:00")
             "dhl" "TRK-1" (-3)).
    + vm_compute. apply NoDup_singleton.
    + reflexivity.
    + apply (bool_decide_unpack _). vm_compute. exact I.
    + reflexivity.
    + vm_compute. split; [reflexivity|discriminate].
  - apply (assign_carrier_sets_fields sample_env world_one 0
             (mk_Shipment "3f2a9c1e" "NYC" "LAX" (Float.of_int 5) "standard"
                "pending" None None None "2024-01-01T12:00:00")
             "dhl" "TRK-1" 3000000).
    + vm_compute. apply NoDup_singleton.
    + reflexivity.
    + apply (bool_decide_unpack _). vm_compute. exact I.
    + reflexivity.
    + vm_compute. intros [_ Hhi]. by apply Hhi.
Defined.

(** C2 as stated fails: [eta_days] is not validated, but the sum must be a
    date. With [eta_days] = 3000000 the sum lies after the year 9999:
    [OverflowError] is raised before the [UPDATE] and the row of [world_one]
    keeps its status and has no carrier, tracking id or eta. *)
Lemma assign_contract_fails :
  ~ assign_contract sample_env world_one 0
      (mk_Shipment "3f2a9c1e" "NYC" "LAX" (Float.of_int 5) "standard"
         "pending" None None None "2024-01-01T12:00:00")
      "fedex" "TRK-1" 3000000.
Proof.
  intros Hc. destruct Hc as (w' & eta' & Hrun & _).
  - reflexivity.
  - apply list_elem_of_here.
  - vm_compute in Hrun. discriminate Hrun.
Qed.

(** C4 (amended). For an id that is not in the table, the [UPDATE] of
    either operation writes zero rows and the rows are unchanged.
    [update_status] (valid status) returns normally with the world as it
    was. [assign_carrier] (valid carrier) reads the clock and returns
    normally when the current day plus [eta_days] is a day between
    0001-01-01 and 9999-12-31; otherwise it raises [OverflowError], although
    the id does not exist. *)
Theorem missing_id_is_silent_noop
    (E : env) (w : world) (sid c tr st : string) (eta_days : Z) :
  sid ∉ (id <$> shipments w) ->
  c ∈ CARRIERS ->
  st ∈ SHIPMENT_STATUSES ->
  Datetime.valid (clock E (clock_reads w)) = true ->
  let day := (Datetime.toordinal (clock E (clock_reads w)) + eta_days)%Z in
  update_status sid st w = (Ok tt, w) /\
  (forall set w0, shipments w0 = shipments w -> sql_update set sid w0 = (Ok 0%Z, w0)) /\
  (exists res w',
     assign_carrier E sid c tr eta_days w = (res, w') /\
     shipments w' = shipments w /\
     clock_reads w' = S (clock_reads w) /\
     ((0 < day <= Datetime.MAXORDINAL)%Z -> res = Ok tt) /\
     (~ (0 < day <= Datetime.MAXORDINAL)%Z ->
        exists msg, res = Raise (OverflowError msg))).
Proof.
  intros Hnot Hc Hst Hnow day. subst day. split; [|split].
  - rewrite update_status_run by done.
    by rewrite map_update_missing, set_rows_same.
  - intros set w0 Hw0. apply sql_update_missing. by rewrite Hw0.
  - destruct (decide (0 < Datetime.toordinal (clock E (clock_reads w)) + eta_days
                      <= Datetime.MAXORDINAL)%Z) as [Hday|Hday].
    + destruct (add_days_in_range _ _ Hnow Hday) as [eta_time Hadd].
      exists (Ok tt). eexists. split; [by eapply assign_carrier_run|].
      simpl. split; [by apply map_update_missing|]. by repeat split.
    + destruct (add_days_out_of_range _ _ Hnow Hday) as [msg Hadd].
      exists (Raise (OverflowError msg)). eexists. split.
      * unfold assign_carrier. rewrite bool_decide_eq_true_2 by done.
        unfold mbind, M_bind, bind, utcnow, lift. simpl. by rewrite Hadd.
      * simpl. repeat split; [done|]. intros _. by exists msg.
Qed.

Lemma missing_id_is_silent_noop_witness :
  update_status "deadbeef" "delivered" world_one = (Ok tt, world_one) /\
  (forall set w0, shipments w0 = shipments world_one ->
                  sql_update set "deadbeef" w0 = (Ok 0%Z, w0)) /\
  (exists res w',
     assign_carrier sample_env "deadbeef" "ups" "TRK-9" 2 world_one = (res, w') /\
     shipments w' = shipments world_one /\
     clock_reads w' = 2 /\
     ((0 < 738887 + 2 <= Datetime.MAXORDINAL)%Z -> res = Ok tt) /\
     (~ (0 < 738887 + 2 <= Datetime.MAXORDINAL)%Z ->
        exists msg, res = Raise (OverflowError msg))).
Proof.
  apply (missing_id_is_silent_noop sample_env world_one "deadbeef" "ups"
           "TRK-9" "delivered" 2).
  - vm_compute. intros H. repeat (apply elem_of_cons in H as [H|H]; [done|]).
    by apply elem_of_nil in H.
  - apply (bool_decide_unpack _). vm_compute. exact I.
  - apply (bool_decide_unpack _). vm_compute. exact I.
  - reflexivity.
Defined.

(** C4 as stated fails for [assign_carrier]: the eta is computed before the
    [UPDATE], whether or not the id exists. For the id deadbeef, which is
    not in [world_one], and [eta_days] = -800000 the sum lies before the
    year 1 and [OverflowError] is raised. *)
Lemma silent_noop_contract_fails :
  ~ silent_noop_contract sample_env world_one "deadbeef" "ups" "TRK-9"
      "delivered" (-800000).
Proof.
  intros Hc. destruct Hc as [(w' & Hrun & _) _].
  - vm_compute. intros H. repeat (apply elem_of_cons in H as [H|H]; [done|]).
    by apply elem_of_nil in H.
  - apply list_elem_of_further, list_elem_of_here.
  - do 4 apply list_elem_of_further. apply list_elem_of_here.
  - vm_compute in Hrun. discriminate Hrun.
Qed.

(** ** Query: filters and order *)

Lemma string_leb_trans (a b c : string) :
  String.leb a b = true -> String.leb b c = true -> String.leb a c = true.
Proof.
  unfold String.leb. revert b c.
  induction a as [|x a IH]; intros [|y b] [|z c]; simpl; try done.
  unfold Ascii.compare.
  destruct (N.compare_spec (N_of_ascii x) (N_of_ascii y)) as [Hxy|Hxy|Hxy];
    destruct (N.compare_spec (N_of_ascii y) (N_of_ascii z)) as [Hyz|Hyz|Hyz];
    destruct (N.compare_spec (N_of_ascii x) (N_of_ascii z)) as [Hxz|Hxz|Hxz];
    try done; try lia.
  apply IH.
Qed.

Lemma created_desc_trans a b c :
  created_desc a b -> created_desc b c -> created_desc a c.
Proof. unfold created_desc. intros Hab Hbc. by eapply string_leb_trans. Qed.

Lemma insert_desc_perm s l : insert_desc s l ≡ₚ s :: l.
Proof.
  induction l as [|x l IH]; simpl; [done|].
  case_match; [done|]. rewrite IH. apply Permutation_swap.
Qed.

Lemma order_by_created_at_desc_perm l : order_by_created_at_desc l ≡ₚ l.
Proof.
  induction l as [|x l IH]; simpl; [done|].
  unfold order_by_created_at_desc in *. simpl.
  by rewrite insert_desc_perm, IH.
Qed.

Lemma insert_desc_hd s x l :
  created_desc x s -> HdRel created_desc x l -> HdRel created_desc x (insert_desc s l).
Proof.
  intros Hxs Hl. destruct l as [|y l]; simpl; [by constructor|].
  case_match; constructor; [done|]. by inversion Hl.
Qed.

Lemma insert_desc_sorted s l :
  Sorted created_desc l -> Sorted created_desc (insert_desc s l).
Proof.
  induction l as [|x l IH]; simpl; intros Hl.
  - by repeat constructor.
  - destruct (String.leb (created_at x) (created_at s)) eqn:Hle.
    + constructor; [done|]. by constructor.
    + inversion Hl as [|? ? Hl' Hhd]; subst. constructor; [by apply IH|].
      apply insert_desc_hd; [|done]. unfold created_desc.
      destruct (String.leb_total (created_at x) (created_at s)); congruence.
Qed.

Lemma order_by_created_at_desc_sorted l :
  StronglySorted created_desc (order_by_created_at_desc l).
Proof.
  apply Sorted_StronglySorted; [exact created_desc_trans|].
  induction l as [|x l IH]; [constructor|].
  by apply insert_desc_sorted.
Qed.

(** Between rows whose [created_at] is the text of a datetime, the
    descending order of the column is: most recently created first. *)
Lemma created_desc_newest_first a b ta tb :
  Datetime.valid ta = true -> Datetime.valid tb = true ->
  created_at a = Datetime.isoformat ta ->
  created_at b = Datetime.isoformat tb ->
  created_desc a b <-> Datetime.geb ta tb = true.
Proof.
  intros Ha Hb Hta Htb. unfold created_desc, String.leb, Datetime.geb.
  rewrite Hta, Htb, String.compare_antisym, (compare_isoformat ta tb Ha Hb).
  destruct (Datetime.compare ta tb); simpl; naive_solver.
Qed.

Lemma bool_decide_string_eqb (a b : string) :
  bool_decide (a = b) = String.eqb a b.
Proof.
  destruct (String.eqb_spec a b).
  - by apply bool_decide_eq_true_2.
  - by apply bool_decide_eq_false_2.
Qed.

Lemma and_equals_keeps column param s :
  and_equals column param s = keeps column param s.
Proof.
  destruct param as [[|c v]|]; simpl; [done| |done].
  apply bool_decide_string_eqb.
Qed.

Lemma get_shipments_run st pr w :
  get_shipments st pr w
  = (Ok (order_by_created_at_desc
           (filter (fun s => keeps status st s && keeps priority pr s = true)
              (shipments w))), w).
Proof.
  unfold get_shipments, mbind, M_bind, bind, sql_select, mret, M_ret, ret.
  do 3 f_equal. apply list_filter_iff. intros s.
  by rewrite !and_equals_keeps.
Qed.

(** C5 (amended). [get_shipments] never fails and leaves the world alone; its
    result holds exactly the rows that pass every filter that is neither
    absent nor the empty string, in descending order of [created_at]; when
    no row passes, the result is the empty list. *)
Theorem get_shipments_filters_and_orders
    (w : world) (st pr : option string) :
  exists l,
    get_shipments st pr w = (Ok l, w) /\
    l ≡ₚ filter (fun s => keeps status st s && keeps priority pr s = true)
           (shipments w) /\
    StronglySorted created_desc l /\
    (filter (fun s => keeps status st s && keeps priority pr s = true)
       (shipments w) = [] -> l = []).
Proof.
  eexists. split; [apply get_shipments_run|].
  split; [apply order_by_created_at_desc_perm|].
  split; [apply order_by_created_at_desc_sorted|].
  by intros ->.
Qed.

(** C5 as stated fails: with the empty string given as status filter, the
    row of [world_one] is returned although its status is not the empty
    string. *)
Lemma literal_query_contract_fails :
  ~ literal_query_contract world_one (Some "") None.
Proof.
  intros (l & Hrun & Hperm & _).
  rewrite get_shipments_run in Hrun. injection Hrun as <-.
  vm_compute in Hperm. by apply Permutation_nil_r in Hperm.
Qed.

(** C10. An empty string as status filter, or as priority filter, gives the
    same answer as leaving that filter out; with both empty, every row of
    the table is returned. *)
Theorem empty_filter_is_absent_filter (w : world) (st pr : option string) :
  get_shipments (Some "") pr w = get_shipments None pr w /\
  get_shipments st (Some "") w = get_shipments st None w /\
  exists l, get_shipments (Some "") (Some "") w = (Ok l, w) /\ l ≡ₚ shipments w.
Proof.
  split; [done|]. split; [done|].
  eexists. split; [apply get_shipments_run|].
  rewrite order_by_created_at_desc_perm. simpl.
  induction (shipments w) as [|x l IH]; [done|].
  rewrite filter_cons_True by done. by rewrite IH.
Qed.

(** ** Routes *)

Lemma dict_get_None {V} (d : list (string * V)) k :
  k ∉ dict_keys d -> dict_get d k = None.
Proof.
  induction d as [|[k' v] d IH]; [done|].
  unfold dict_keys. rewrite fmap_cons, not_elem_of_cons. simpl.
  intros [Hne Hrest]. destruct (String.eqb_spec k k'); [done|]. by apply IH.
Qed.

Lemma dict_get_Some {V} (d : list (string * V)) k :
  k ∈ dict_keys d -> is_Some (dict_get d k).
Proof.
  induction d as [|[k' v] d IH]; unfold dict_keys.
  - intros H. by apply elem_of_nil in H.
  - rewrite fmap_cons, elem_of_cons. simpl.
    destruct (String.eqb_spec k k'); [by eexists|].
    intros [?|?]; [done|]. by apply IH.
Qed.

Lemma known_cities_listed :
  forallb
    (fun c => occurs ("'" +:+ c +:+ "'")
                ("Unknown city. Available cities: " +:+
                 py_repr_list (dict_keys CITY_COORDS)))
    (dict_keys CITY_COORDS) = true.
Proof. vm_compute. reflexivity. Qed.

(** C6. When the origin or the destination is not a key of the coordinate
    table, [get_route] returns (it does not raise) a dict whose only key is
    [error]; the message names each of the 20 known city codes; the dict has
    no [distance_km], [duration_h] or [stops]. *)
Theorem get_route_unknown_city (L : libm) (o d : string) :
  o ∉ dict_keys CITY_COORDS \/ d ∉ dict_keys CITY_COORDS ->
  exists msg r,
    get_route L o d = Ok r /\
    r = {[ "error" := RStr msg ]} /\
    length (dict_keys CITY_COORDS) = 20 /\
    Forall (fun c => occurs ("'" +:+ c +:+ "'") msg = true) (dict_keys CITY_COORDS) /\
    r !! "distance_km" = None /\
    r !! "duration_h" = None /\
    r !! "stops" = None.
Proof.
  intros Hmiss.
  exists ("Unknown city. Available cities: " +:+ py_repr_list (dict_keys CITY_COORDS)).
  eexists. split; [|split; [reflexivity|]].
  - unfold get_route. destruct Hmiss as [Ho|Hd].
    + by rewrite (dict_get_None _ _ Ho).
    + rewrite (dict_get_None _ _ Hd). by case_match.
  - split; [reflexivity|]. split.
    + apply Forall_forall. intros c Hc.
      pose proof known_cities_listed as Hall.
      rewrite forallb_forall in Hall. apply Hall. by apply list_elem_of_In.
    + by rewrite !lookup_singleton_ne.
Qed.

Lemma get_route_unknown_city_witness :
  exists msg r,
    get_route (mk_libm (fun x => x) (fun x => x) (fun x => x) (fun x _ => x))
      "XXX" "NYC" = Ok r /\
    r = {[ "error" := RStr msg ]} /\
    length (dict_keys CITY_COORDS) = 20 /\
    Forall (fun c => occurs ("'" +:+ c +:+ "'") msg = true) (dict_keys CITY_COORDS) /\
    r !! "distance_km" = None /\
    r !! "duration_h" = None /\
    r !! "stops" = None.
Proof.
  apply (get_route_unknown_city _ "XXX" "NYC").
  left. vm_compute. intros H.
  repeat (apply elem_of_cons in H as [H|H]; [done|]).
  by apply elem_of_nil in H.
Defined.

(** For two known cities the dict has the five route keys: the distance
    rounded to one decimal, the duration computed from the distance before
    rounding, and the two stops. A domain error of [math] is passed on. *)
Lemma get_route_known_cities (L : libm) o d c1 c2 :
  dict_get CITY_COORDS o = Some c1 ->
  dict_get CITY_COORDS d = Some c2 ->
  get_route L o d =
    result_bind (_haversine_distance L c1 c2) (fun dist =>
      Ok (<["origin" := RStr o]>
          (<["destination" := RStr d]>
          (<["distance_km" := RNum (Float.round1 dist)]>
          (<["duration_h" :=
               RNum (Float.round1 (Float.div dist (Float.of_int 80)))]>
          (<["stops" := RList [o; d]]> ∅)))))).
Proof. intros Ho Hd. unfold get_route. by rewrite Ho, Hd. Qed.

(** ** Batches *)

Lemma fetch_each_run ids acc w :
  fetch_each ids acc w = (Ok (acc ++ resolve (shipments w) ids), w).
Proof.
  revert acc. induction ids as [|sid ids IH]; intros acc; simpl.
  - unfold mret, M_ret, ret. by rewrite app_nil_r.
  - unfold mbind, M_bind, bind, sql_select. unfold resolve. simpl.
    unfold find_row at 1.
    destruct (filter _ (shipments w)) as [|row rows]; simpl.
    + apply IH.
    + rewrite IH. by rewrite <- app_assoc.
Qed.

Lemma find_row_Some rows sid s :
  find_row rows sid = Some s -> s ∈ rows /\ id s = sid.
Proof.
  unfold find_row. intros Hhd. apply head_Some_elem_of in Hhd.
  apply list_elem_of_filter in Hhd as [Hid Hin].
  split; [done|]. by apply bool_decide_eq_true_1 in Hid.
Qed.

Lemma find_row_unique rows s :
  NoDup (id <$> rows) -> s ∈ rows -> find_row rows (id s) = Some s.
Proof.
  intros Hnd Hin. unfold find_row.
  induction rows as [|x rows IH]; [by apply elem_of_nil in Hin|].
  rewrite fmap_cons in Hnd. apply NoDup_cons in Hnd as [Hx Hnd].
  apply elem_of_cons in Hin as [->|Hin].
  - by rewrite filter_cons_True by (by apply bool_decide_eq_true_2).
  - rewrite filter_cons_False; [by apply IH|].
    intros Heq. apply bool_decide_eq_true_1 in Heq.
    apply Hx. rewrite Heq. by apply list_elem_of_fmap_2.
Qed.

(** The resolved rows are rows of the table carrying a requested id, and
    under the primary key every such row is resolved. *)
Lemma resolve_elem_of rows ids s :
  NoDup (id <$> rows) ->
  s ∈ resolve rows ids <-> s ∈ rows /\ id s ∈ ids.
Proof.
  intros Hnd. unfold resolve. rewrite list_elem_of_omap. split.
  - intros (sid & Hsid & Hfind). apply find_row_Some in Hfind as [Hin <-].
    done.
  - intros [Hin Hid]. exists (id s). split; [done|]. by apply find_row_unique.
Qed.

Lemma group_append_lookup k s d k' :
  group_append k s d !! k'
  = if decide (k = k') then Some (default [] (d !! k) ++ [s]) else d !! k'.
Proof.
  unfold group_append. rewrite lookup_alter.
  destruct (decide (k = k')) as [<-|Hne].
  - destruct (d !! k) as [ships|] eqn:Hk; simpl.
    + by rewrite Hk.
    + by rewrite lookup_insert_eq.
  - destruct (d !! k); [done|]. by rewrite lookup_insert_ne.
Qed.

(** Grouping by an optional key collects, under each key, the rows that
    carry it, in order. *)
Lemma group_fold_lookup (key : Shipment -> option string) l d k :
  foldl (fun d s => match key s with
                    | Some c => group_append c s d
                    | None => d
                    end) d l !! k
  = match d !! k, filter (fun s => key s = Some k) l with
    | None, [] => None
    | o, fl => Some (default [] o ++ fl)
    end.
Proof.
  revert d. induction l as [|s l IH]; intros d; simpl.
  - destruct (d !! k); [by rewrite app_nil_r|done].
  - rewrite IH. destruct (key s) as [c|] eqn:Hkey.
    + rewrite group_append_lookup. destruct (decide (c = k)) as [->|Hne].
      * rewrite filter_cons_True by done. simpl.
        destruct (d !! k); simpl; [by rewrite <- app_assoc | done].
      * rewrite filter_cons_False by congruence. done.
    + rewrite filter_cons_False by congruence. done.
Qed.

Lemma entry_len {A} (l : list A) :
  entry (len l) = match l with [] => None | _ => Some (len l) end.
Proof. by destruct l. Qed.

Lemma group_count_lookup (key : Shipment -> option string) l k :
  (len <$> foldl (fun d s => match key s with
                             | Some c => group_append c s d
                             | None => d
                             end) ∅ l) !! k
  = entry (len (filter (fun s => key s = Some k) l)).
Proof.
  rewrite lookup_fmap, group_fold_lookup, lookup_empty, entry_len.
  by destruct (filter _ l).
Qed.

Lemma filter_agree {A} (P Q : A -> Prop)
    `{!forall x, Decision (P x)} `{!forall x, Decision (Q x)} (l : list A) :
  (forall x, x ∈ l -> P x <-> Q x) -> filter P l = filter Q l.
Proof.
  induction l as [|x l IH]; intros Hag; [done|].
  rewrite !filter_cons. rewrite IH by (intros y Hy; apply Hag; by right).
  destruct (decide (P x)) as [HP|HP], (decide (Q x)) as [HQ|HQ]; try done;
    exfalso; apply (Hag x) in HP || apply (Hag x) in HQ; try done; by left.
Qed.

Lemma carrier_set_named s :
  row_ok s -> carrier_set s = carrier s.
Proof.
  intros Hs. unfold carrier_set. destruct (carrier s) as [c|] eqn:Hc; [|done].
  destruct c; [|done]. apply (carrier_ok _ Hs) in Hc.
  repeat (apply elem_of_cons in Hc as [Hc|Hc]; [done|]).
  by apply elem_of_nil in Hc.
Qed.

Lemma optimize_batch_run ids w :
  optimize_batch ids w
  = (Ok (mk_BatchSummary (len (resolve (shipments w) ids))
           (len <$> group_by_carrier (resolve (shipments w) ids))
           (len <$> group_by_priority (resolve (shipments w) ids))), w).
Proof.
  unfold optimize_batch, mbind, M_bind, bind. by rewrite fetch_each_run.
Qed.

(** C8. [optimize_batch] never fails and writes nothing. The rows it works
    on are the rows the requested ids resolve to, ids without a row being
    skipped; [total_shipments] is their number; [by_carrier] counts, for
    each carrier, the resolved rows assigned to it and has no entry for
    rows without a carrier; [by_priority] counts every resolved row under
    its priority. *)
Theorem optimize_batch_counts (w : world) (ids : list string) :
  table_ok w ->
  exists summary,
    optimize_batch ids w = (Ok summary, w) /\
    let found := resolve (shipments w) ids in
    (forall s, s ∈ found <-> s ∈ shipments w /\ id s ∈ ids) /\
    batch_total_shipments summary = len found /\
    (forall c, batch_by_carrier summary !! c
               = entry (len (filter (fun s => carrier s = Some c) found))) /\
    (forall p, batch_by_priority summary !! p
               = entry (len (filter (fun s => priority s = p) found))).
Proof.
  intros [Hnd Hrows]. eexists. split; [apply optimize_batch_run|].
  simpl. split; [|split; [done|split]].
  - intros s. by apply resolve_elem_of.
  - intros c. unfold group_by_carrier. rewrite group_count_lookup.
    do 2 f_equal. apply filter_agree. intros s Hs.
    rewrite carrier_set_named; [done|].
    apply resolve_elem_of in Hs as [Hs _]; [|done].
    by eapply Forall_forall in Hrows.
  - intros p. unfold group_by_priority.
    rewrite (group_count_lookup (fun s => Some (priority s))).
    do 2 f_equal. apply list_filter_iff. intros s. naive_solver.
Qed.



(** ** The table invariant *)

Lemma table_ok_rows w w' :
  shipments w' = shipments w -> table_ok w -> table_ok w'.
Proof. unfold table_ok. by intros ->. Qed.

Lemma table_ok_empty : table_ok empty_world.
Proof. split; [apply NoDup_nil_2 | apply Forall_nil_2]. Qed.

Lemma pending_row_ok E k sid o d wt p :
  env_ok E -> p ∈ PRIORITIES -> Float.is_nan wt = false ->
  row_ok (mk_Shipment sid o d wt p "pending" None None None
            (Datetime.isoformat (clock E k))).
Proof.
  intros HE Hp Hnan. split; simpl; try done.
  - apply list_elem_of_here.
  - by exists (clock E k).
Qed.

Lemma create_shipment_table_ok E o d wt p w :
  env_ok E -> table_ok w -> table_ok (create_shipment E o d wt p w).2.
Proof.
  intros HE Hw. unfold create_shipment.
  destruct (bool_decide (p ∈ PRIORITIES)) eqn:Hp; [|done].
  apply bool_decide_eq_true_1 in Hp.
  unfold mbind, M_bind, bind, uuid4, utcnow, sql_insert; simpl.
  destruct (Float.is_nan wt) eqn:Hnan; [done|].
  case_bool_decide as Hdup; [done|]. simpl.
  destruct Hw as [Hnd Hrows]. split; simpl.
  - rewrite fmap_app. apply NoDup_app. repeat split; [done| |apply NoDup_singleton].
    intros x Hx Hx'. apply list_elem_of_singleton in Hx'. by subst.
  - apply Forall_app. split; [done|]. apply Forall_singleton.
    apply pending_row_ok; [done|done|by rewrite sql_real_nan].
Qed.

Lemma update_rows_ok (set : Shipment -> Shipment) sid rows :
  (forall s, id (set s) = id s) ->
  (forall s, row_ok s -> row_ok (set s)) ->
  NoDup (id <$> rows) /\ Forall row_ok rows ->
  NoDup (id <$> ((fun s => if bool_decide (id s = sid) then set s else s) <$> rows))
  /\ Forall row_ok ((fun s => if bool_decide (id s = sid) then set s else s) <$> rows).
Proof.
  intros Hid Hset [Hnd Hrows]. split.
  - rewrite <- list_fmap_compose.
    erewrite list_fmap_ext; [exact Hnd|].
    intros i s _. simpl. by case_bool_decide.
  - apply Forall_fmap. eapply Forall_impl; [exact Hrows|].
    intros s Hs. simpl. case_bool_decide; [by apply Hset|done].
Qed.

Lemma assign_carrier_table_ok E sid c tr n w :
  env_ok E -> table_ok w -> table_ok (assign_carrier E sid c tr n w).2.
Proof.
  intros HE Hw. unfold assign_carrier.
  destruct (bool_decide (c ∈ CARRIERS)) eqn:Hc; [|done].
  apply bool_decide_eq_true_1 in Hc.
  unfold mbind, M_bind, bind, utcnow, lift; simpl.
  destruct (Datetime.add_days (clock E (clock_reads w)) n) as [t|e] eqn:Hadd;
    [|done].
  simpl. apply update_rows_ok; [done| |done].
  intros s Hs. destruct Hs. split; simpl; try done.
  - apply list_elem_of_further, list_elem_of_here.
  - intros c' [= <-]. done.
  - intros e [= <-]. exists t. split; [|done].
    by destruct (add_days_spec _ _ _ (HE _) Hadd).
Qed.

Lemma update_status_table_ok sid st w :
  table_ok w -> table_ok (update_status sid st w).2.
Proof.
  intros Hw. unfold update_status.
  destruct (bool_decide (st ∈ SHIPMENT_STATUSES)) eqn:Hst; [|done].
  apply bool_decide_eq_true_1 in Hst. simpl.
  apply update_rows_ok; [done| |done].
  intros s Hs. destruct Hs. by split.
Qed.

(** ** Delivery statistics *)

Lemma eta_set_ok s : row_ok s -> eta_set s = eta s.
Proof.
  intros Hs. unfold eta_set. destruct (eta s) as [e|] eqn:He; [|done].
  by rewrite (iso_text_truthy e (eta_ok s Hs e He)).
Qed.

Lemma filter_true_all {A} (l : list A) :
  filter (fun _ : A => true = true) l = l.
Proof.
  induction l as [|x l IH]; [done|]. by rewrite filter_cons_True, IH.
Qed.

Lemma world_same_counts w :
  mk_world (shipments w) (clock_reads w + 0) (uuid_draws w) = w.
Proof. destruct w. simpl. by rewrite Nat.add_0_r. Qed.

(** The first loop counts the rows whose eta has not passed at the reading
    taken for them, and reads the clock once per row with an eta. *)
Lemma count_on_time_run E l c w :
  Forall row_ok l ->
  count_on_time E l c w
  = (Ok (c + on_time_count E (clock_reads w) l)%Z,
     mk_world (shipments w) (clock_reads w + length (rows_with_eta l))
       (uuid_draws w)).
Proof.
  intros Hl. revert c w.
  induction Hl as [|s l Hs Hl IH]; intros c w.
  - simpl. unfold mret, M_ret, ret, on_time_count. simpl.
    by rewrite Z.add_0_r, world_same_counts.
  - cbn [count_on_time]. rewrite (eta_set_ok s Hs).
    unfold on_time_count, rows_with_eta.
    destruct (eta s) as [e|] eqn:He.
    + destruct (eta_ok s Hs e He) as (t & Ht & ->).
      rewrite filter_cons_True by (unfold has_eta; by rewrite He).
      unfold mbind, M_bind, bind, lift, utcnow.
      rewrite (fromisoformat_isoformat t Ht).
      cbn [length readings seq fmap list_fmap zip zip_with].
      assert (on_time (s, clock E (clock_reads w))
              = Datetime.geb t (clock E (clock_reads w))) as Hon.
      { unfold on_time, eta_time. simpl. rewrite He. simpl.
        by rewrite (parse_iso_isoformat t Ht). }
      destruct (Datetime.geb t (clock E (clock_reads w))) eqn:Hge.
      * rewrite IH. cbn [clock_reads shipments uuid_draws].
        rewrite filter_cons_True by done.
        unfold on_time_count, rows_with_eta, readings, len. cbn [length].
        f_equal; [f_equal; lia | f_equal; lia].
      * rewrite IH. cbn [clock_reads shipments uuid_draws].
        rewrite filter_cons_False by (rewrite Hon; done).
        unfold on_time_count, rows_with_eta, readings, len.
        f_equal. f_equal. lia.
    + rewrite filter_cons_False by (unfold has_eta; by rewrite He).
      apply IH.
Qed.

(** The second loop collects, for each row with an eta, the whole days from
    its creation to its eta, rounded down. *)
Lemma collect_transit_run l acc :
  Forall row_ok l ->
  collect_transit l acc = Ok (acc ++ omap (transit whole_days_floor) l).
Proof.
  intros Hl. revert acc.
  induction Hl as [|s l Hs Hl IH]; intros acc.
  - simpl. by rewrite app_nil_r.
  - cbn [collect_transit omap list_omap]. rewrite (eta_set_ok s Hs).
    destruct (created_at_ok s Hs) as (c & Hc & Hcreated).
    rewrite Hcreated, (fromisoformat_isoformat c Hc). cbn [result_bind].
    unfold transit at 1, eta_time. rewrite Hcreated.
    destruct (eta s) as [e|] eqn:He; cbn [mbind option_bind].
    + destruct (eta_ok s Hs e He) as (t & Ht & ->).
      rewrite (fromisoformat_isoformat t Ht), !parse_iso_isoformat by done.
      cbn [result_bind]. rewrite IH, days_sub_floor. by rewrite <- app_assoc.
    + apply IH.
Qed.

Lemma delivered_rows_ok rows :
  Forall row_ok rows -> Forall row_ok (delivered_rows rows).
Proof.
  intros Hrows. apply Forall_forall. intros s Hs.
  apply list_elem_of_filter in Hs as [_ Hs].
  by eapply Forall_forall in Hrows.
Qed.

Lemma delivery_stats_run E w :
  table_ok w ->
  exists in_exc perf,
    delivery_stats E w
    = (Ok (mk_Stats (len (shipments w)) (len (delivered_rows (shipments w)))
             in_exc
             (on_time_rate E (clock_reads w) (shipments w))
             (avg_transit whole_days_floor (shipments w))
             perf),
       mk_world (shipments w)
         (clock_reads w + length (rows_with_eta (delivered_rows (shipments w))))
         (uuid_draws w)).
Proof.
  intros [_ Hrows]. apply delivered_rows_ok in Hrows.
  unfold delivery_stats, on_time_rate, avg_transit.
  unfold mbind at 1, M_bind at 1, bind at 1, sql_select.
  rewrite filter_true_all. fold (delivered_rows (shipments w)).
  destruct (delivered_rows (shipments w)) as [|s d] eqn:Hd.
  - do 2 eexists. cbn. unfold rows_with_eta. simpl.
    by rewrite world_same_counts.
  - cbn [is_nil]. do 2 eexists.
    unfold mbind, M_bind, bind.
    rewrite (count_on_time_run E (s :: d) 0%Z w Hrows).
    unfold lift. rewrite (collect_transit_run (s :: d) [] Hrows).
    rewrite app_nil_l, Z.add_0_l.
    destruct (omap (transit whole_days_floor) (s :: d)); reflexivity.
Qed.

(** What [delivery_stats] returns for the two averages, on a table that
    satisfies the invariant. *)
Lemma delivery_stats_rates E w :
  table_ok w ->
  exists stats w',
    delivery_stats E w = (Ok stats, w') /\
    shipments w' = shipments w /\
    on_time_rate_pct stats = on_time_rate E (clock_reads w) (shipments w) /\
    avg_transit_days stats = avg_transit whole_days_floor (shipments w).
Proof.
  intros Hw. destruct (delivery_stats_run E w Hw) as (x & perf & Hrun).
  do 2 eexists. split; [exact Hrun|]. by simpl.
Qed.

(** ** Reachable worlds satisfy the invariant *)

Lemma keeps_table_ok_bind {A B} (m : M A) (k : A -> M B) :
  keeps_table_ok m -> (forall a, keeps_table_ok (k a)) -> keeps_table_ok (m ≫= k).
Proof.
  intros Hm Hk w Hw. unfold mbind, M_bind, bind.
  specialize (Hm w Hw). destruct (m w) as [[a|e] w1]; [by apply Hk|done].
Qed.

Lemma delivery_stats_table_ok E w : table_ok w -> table_ok (delivery_stats E w).2.
Proof.
  intros Hw. destruct (delivery_stats_run E w Hw) as (x & perf & ->).
  by eapply table_ok_rows.
Qed.

Lemma planner_step_table_ok E w w' :
  env_ok E -> planner_step E w w' -> table_ok w -> table_ok w'.
Proof.
  intros HE Hstep Hw. destruct Hstep.
  - by apply create_shipment_table_ok.
  - by apply assign_carrier_table_ok.
  - by apply update_status_table_ok.
  - by rewrite get_shipments_run.
  - by rewrite optimize_batch_run.
  - by apply delivery_stats_table_ok.
Qed.

(** Every world the planner can reach from the empty table has unique ids
    and well-formed rows. *)
Theorem reachable_table_ok E w : env_ok E -> reachable E w -> table_ok w.
Proof.
  intros HE Hreach. unfold reachable in Hreach. revert w Hreach.
  apply rtc_ind_r; [apply table_ok_empty|].
  intros w1 w2 _ Hstep Hw1. by eapply planner_step_table_ok.
Qed.

Lemma sample_env_ok : env_ok sample_env.
Proof.
  intros n. unfold sample_env, sample_clock. simpl.
  destruct (Datetime.add_days sample_epoch (Z.of_nat n)) as [d|e] eqn:Hadd;
    [|reflexivity].
  destruct (add_days_spec sample_epoch (Z.of_nat n) d eq_refl Hadd)
    as (Hv & _).
  apply valid_fields in Hv as (Hy & Hm & Hd & _).
  apply valid_intro; simpl; try done; try lia.
  pose proof (Z.mod_pos_bound (12 + Z.of_nat n) 24). lia.
Qed.

Lemma world_one_ok : table_ok world_one.
Proof.
  apply create_shipment_table_ok; [apply sample_env_ok | apply table_ok_empty].
Qed.

Lemma sample_run_ok {A} (m : M A) :
  keeps_table_ok m -> table_ok (world_of (m empty_world)).
Proof. intros Hm. apply Hm, table_ok_empty. Qed.

Ltac keeps_table_ok_call :=
  intros ? ?;
  first [ apply create_shipment_table_ok; [apply sample_env_ok|done]
        | apply assign_carrier_table_ok; [apply sample_env_ok|done]
        | apply update_status_table_ok; done ].

Ltac keeps_table_ok_steps :=
  first [ apply keeps_table_ok_bind; [keeps_table_ok_call | intros ?; keeps_table_ok_steps]
        | keeps_table_ok_call ].

Lemma world_two_delivered_ok : table_ok world_two_delivered.
Proof. apply sample_run_ok. keeps_table_ok_steps. Qed.

Lemma world_early_eta_ok : table_ok world_early_eta.
Proof. apply sample_run_ok. keeps_table_ok_steps. Qed.

(** ** Claims on the statistics and on batches *)

(** C1 (amended). On a table written through the planner, [delivery_stats]
    succeeds without touching the table, and [on_time_rate_pct] is 0 when no
    shipment is delivered; otherwise it is the number of delivered shipments
    with an eta that has not passed at the clock reading taken for them,
    divided by the number of all delivered shipments, times 100, rounded to
    one decimal. *)
Theorem on_time_rate_over_delivered (E : env) (w : world) :
  table_ok w ->
  exists stats w',
    delivery_stats E w = (Ok stats, w') /\
    shipments w' = shipments w /\
    on_time_rate_pct stats = on_time_rate E (clock_reads w) (shipments w) /\
    (delivered_rows (shipments w) = [] -> on_time_rate_pct stats = NInt 0).
Proof.
  intros Hw.
  destruct (delivery_stats_rates E w Hw) as (stats & w' & Hrun & Hrows & Hrate & _).
  exists stats, w'. split; [exact Hrun|]. split; [exact Hrows|].
  split; [exact Hrate|].
  rewrite Hrate. unfold on_time_rate. by intros ->.
Qed.

Lemma on_time_rate_over_delivered_witness :
  exists stats w',
    delivery_stats sample_env world_two_delivered = (Ok stats, w') /\
    shipments w' = shipments world_two_delivered /\
    on_time_rate_pct stats
    = on_time_rate sample_env (clock_reads world_two_delivered)
        (shipments world_two_delivered) /\
    (delivered_rows (shipments world_two_delivered) = [] ->
     on_time_rate_pct stats = NInt 0).
Proof.
  apply (on_time_rate_over_delivered sample_env world_two_delivered).
  exact world_two_delivered_ok.
Defined.

(** C1 as stated fails: in [world_two_delivered] one of the two delivered
    shipments has an eta, and it has not passed; the code reports 50.0, the
    rate over the shipments with an eta is 100.0. *)
Lemma on_time_rate_over_eta_fails :
  ~ on_time_rate_contract on_time_rate_over_eta sample_env world_two_delivered.
Proof.
  intros (stats & w' & Hrun & Hrate).
  destruct (delivery_stats_rates sample_env world_two_delivered
              world_two_delivered_ok) as (stats' & w'' & Hrun' & _ & Hrate' & _).
  rewrite Hrun in Hrun'. injection Hrun' as <- <-.
  rewrite Hrate in Hrate'. vm_compute in Hrate'. discriminate Hrate'.
Qed.

Lemma omap_transit_no_eta whole_days l :
  rows_with_eta l = [] -> omap (transit whole_days) l = [].
Proof.
  unfold rows_with_eta. induction l as [|s l IH]; [done|].
  destruct (eta s) as [e|] eqn:He.
  - rewrite filter_cons_True by (unfold has_eta; by rewrite He). done.
  - rewrite filter_cons_False by (unfold has_eta; by rewrite He).
    intros Hl. cbn [omap list_omap].
    unfold transit at 1, eta_time. rewrite He. simpl. by apply IH.
Qed.

(** C9 (amended). On a table written through the planner, [avg_transit_days]
    is 0 when no delivered shipment has an eta; otherwise it is the mean,
    over the delivered shipments with an eta, of the time from [created_at]
    to the eta in whole days rounded down (towards minus infinity), rounded
    to one decimal. *)
Theorem avg_transit_days_floor (E : env) (w : world) :
  table_ok w ->
  exists stats w',
    delivery_stats E w = (Ok stats, w') /\
    shipments w' = shipments w /\
    avg_transit_days stats = avg_transit whole_days_floor (shipments w) /\
    (rows_with_eta (delivered_rows (shipments w)) = [] ->
     avg_transit_days stats = NInt 0).
Proof.
  intros Hw.
  destruct (delivery_stats_rates E w Hw) as (stats & w' & Hrun & Hrows & _ & Havg).
  exists stats, w'. split; [exact Hrun|]. split; [exact Hrows|].
  split; [exact Havg|].
  rewrite Havg. unfold avg_transit. intros Hnone.
  by rewrite omap_transit_no_eta.
Qed.

Lemma avg_transit_days_floor_witness :
  exists stats w',
    delivery_stats sample_env world_early_eta = (Ok stats, w') /\
    shipments w' = shipments world_early_eta /\
    avg_transit_days stats
    = avg_transit whole_days_floor (shipments world_early_eta) /\
    (rows_with_eta (delivered_rows (shipments world_early_eta)) = [] ->
     avg_transit_days stats = NInt 0).
Proof.
  apply (avg_transit_days_floor sample_env world_early_eta).
  exact world_early_eta_ok.
Defined.

(** C9 as stated fails: in [world_early_eta] the eta lies 23 hours before
    the creation; the code counts -1 day and reports -1.0, truncation counts
    0 days. *)
Lemma avg_transit_trunc_fails :
  ~ avg_transit_contract whole_days_trunc sample_env world_early_eta.
Proof.
  intros (stats & w' & Hrun & Havg).
  destruct (delivery_stats_rates sample_env world_early_eta
              world_early_eta_ok) as (stats' & w'' & Hrun' & _ & _ & Havg').
  rewrite Hrun in Hrun'. injection Hrun' as <- <-.
  rewrite Havg in Havg'. vm_compute in Havg'. discriminate Havg'.
Qed.

Lemma optimize_batch_counts_witness :
  exists summary,
    optimize_batch ["3f2a9c1e"; "deadbeef"; "a81d44f0"] world_two_delivered
    = (Ok summary, world_two_delivered) /\
    let found :=
      resolve (shipments world_two_delivered) ["3f2a9c1e"; "deadbeef"; "a81d44f0"] in
    (forall s, s ∈ found <->
               s ∈ shipments world_two_delivered /\
               id s ∈ ["3f2a9c1e"; "deadbeef"; "a81d44f0"]) /\
    batch_total_shipments summary = len found /\
    (forall c, batch_by_carrier summary !! c
               = entry (len (filter (fun s => carrier s = Some c) found))) /\
    (forall p, batch_by_priority summary !! p
               = entry (len (filter (fun s => priority s = p) found))).
Proof.
  apply (optimize_batch_counts world_two_delivered
           ["3f2a9c1e"; "deadbeef"; "a81d44f0"]).
  exact world_two_delivered_ok.
Defined.

(** * Further properties *)

(** ** Repository: refusals and overwrites *)

(** X1. With a valid priority, a weight that is nan or a drawn identifier
    that is already a key makes [create_shipment] raise [IntegrityError]:
    the identifier and the clock reading are consumed, and the table is as
    before. *)
Theorem create_shipment_refused_by_schema
    (E : env) (w : world) (o d : string) (wt : Float.float) (p : string) :
  p ∈ PRIORITIES ->
  Float.is_nan wt = true \/
  py_prefix 8 (uuids E (uuid_draws w)) ∈ (id <$> shipments w) ->
  exists msg w',
    create_shipment E o d wt p w = (Raise (IntegrityError msg), w') /\
    shipments w' = shipments w /\
    clock_reads w' = S (clock_reads w) /\
    uuid_draws w' = S (uuid_draws w).
Proof.
  intros Hp Hbad. unfold create_shipment.
  rewrite bool_decide_eq_true_2 by done.
  unfold mbind, M_bind, bind, uuid4, utcnow, sql_insert; simpl.
  destruct (Float.is_nan wt) eqn:Hnan; [by do 2 eexists|].
  destruct Hbad as [?|Hdup]; [done|].
  rewrite bool_decide_eq_true_2 by done. by do 2 eexists.
Qed.

Lemma create_shipment_refused_by_schema_witness :
  exists msg w',
    create_shipment stuck_env "NYC" "BOS" (Float.of_int 2) "express" world_one
    = (Raise (IntegrityError msg), w') /\
    shipments w' = shipments world_one /\
    clock_reads w' = S (clock_reads world_one) /\
    uuid_draws w' = S (uuid_draws world_one).
Proof.
  apply (create_shipment_refused_by_schema stuck_env world_one "NYC" "BOS"
           (Float.of_int 2) "express").
  - apply list_elem_of_further, list_elem_of_here.
  - right. vm_compute. apply list_elem_of_here.
Defined.

Lemma find_row_appended rows r :
  id r ∉ (id <$> rows) -> find_row (rows ++ [r]) (id r) = Some r.
Proof.
  intros Hfresh. unfold find_row.
  rewrite filter_app, filter_id_missing by done.
  by rewrite filter_cons_True by (by apply bool_decide_eq_true_2).
Qed.

(** X2. A shipment just created is found by its returned id:
    [optimize_batch] on that id alone reports one shipment, under the
    priority it was created with and under no carrier. *)
Theorem create_then_optimize_batch
    (E : env) (w : world) (o d : string) (wt : Float.float) (p : string) :
  p ∈ PRIORITIES ->
  Float.is_nan wt = false ->
  py_prefix 8 (uuids E (uuid_draws w)) ∉ (id <$> shipments w) ->
  exists sid w',
    create_shipment E o d wt p w = (Ok sid, w') /\
    optimize_batch [sid] w' = (Ok (mk_BatchSummary 1 ∅ {[ p := 1%Z ]}), w').
Proof.
  intros Hp Hnan Hfresh. do 2 eexists.
  split; [by apply create_shipment_valid|].
  rewrite optimize_batch_run. cbn [shipments].
  set (r := mk_Shipment _ o d (sql_real wt) p "pending" None None None _).
  assert (resolve (shipments w ++ [r]) [py_prefix 8 (uuids E (uuid_draws w))]
          = [r]) as ->.
  { unfold resolve. cbn [omap list_omap].
    change (py_prefix 8 (uuids E (uuid_draws w))) with (id r).
    by rewrite (find_row_appended (shipments w) r Hfresh). }
  assert (len <$> group_by_carrier [r] = (∅ : gmap string Z)) as ->
    by apply fmap_empty.
  assert (len <$> group_by_priority [r] = ({[ p := 1%Z ]} : gmap string Z)) as ->;
    [|done].
  apply map_eq. intros k. unfold group_by_priority. cbn [foldl].
  rewrite lookup_fmap, group_append_lookup, lookup_empty.
  change (priority r) with p.
  destruct (decide (p = k)) as [<-|Hne].
  - by rewrite lookup_singleton_eq.
  - by rewrite lookup_singleton_ne.
Qed.

Lemma create_then_optimize_batch_witness :
  exists sid w',
    create_shipment sample_env "NYC" "BOS" (Float.of_int 2) "express" world_one
    = (Ok sid, w') /\
    optimize_batch [sid] w'
    = (Ok (mk_BatchSummary 1 ∅ {[ "express" := 1%Z ]}), w').
Proof.
  apply (create_then_optimize_batch sample_env world_one "NYC" "BOS"
           (Float.of_int 2) "express").
  - apply list_elem_of_further, list_elem_of_here.
  - reflexivity.
  - vm_compute. intros H. repeat (apply elem_of_cons in H as [H|H]; [done|]).
    by apply elem_of_nil in H.
Defined.

(** X3. A carrier outside the fixed set makes [assign_carrier] raise
    [ValueError], and a status outside the fixed set makes [update_status]
    raise [ValueError]; in both cases the world is exactly as before: the
    clock is not read and no row is written, whether or not the id exists. *)
Theorem invalid_carrier_or_status_rejected
    (E : env) (w : world) (sid c tr st : string) (eta_days : Z) :
  (c ∉ CARRIERS ->
     exists msg,
       assign_carrier E sid c tr eta_days w = (Raise (ValueError msg), w)) /\
  (st ∉ SHIPMENT_STATUSES ->
     exists msg, update_status sid st w = (Raise (ValueError msg), w)).
Proof.
  split; intros Hbad.
  - unfold assign_carrier. rewrite bool_decide_eq_false_2 by done. by eexists.
  - unfold update_status. rewrite bool_decide_eq_false_2 by done. by eexists.
Qed.

Lemma invalid_carrier_or_status_rejected_witness :
  (exists msg,
     assign_carrier sample_env "3f2a9c1e" "royal-mail" "TRK-1" 3 world_one
     = (Raise (ValueError msg), world_one)) /\
  (exists msg,
     update_status "3f2a9c1e" "lost" world_one = (Raise (ValueError msg), world_one)).
Proof.
  destruct (invalid_carrier_or_status_rejected sample_env world_one "3f2a9c1e"
              "royal-mail" "TRK-1" "lost" 3) as [Ha Hu].
  split; [apply Ha | apply Hu]; intros H;
    repeat (apply elem_of_cons in H as [H|H]; [done|]);
    by apply elem_of_nil in H.
Defined.

(** X4. On a row of the table, [update_status] with a valid status rewrites
    the status of that row and nothing else: its carrier, tracking id and eta
    stay, the other rows stay, and neither the clock nor the generator is
    used. Any valid status is accepted after any status. *)
Theorem update_status_rewrites_status_only
    (w : world) (i : nat) (r : Shipment) (st : string) :
  NoDup (id <$> shipments w) ->
  shipments w !! i = Some r ->
  st ∈ SHIPMENT_STATUSES ->
  update_status (id r) st w
  = (Ok tt, set_rows (<[i := with_status r st]> (shipments w)) w).
Proof.
  intros Hnd Hi Hst. rewrite update_status_run by done. do 2 f_equal.
  by apply (map_update_unique (fun s => with_status s st)).
Qed.

Lemma update_status_rewrites_status_only_witness :
  update_status "3f2a9c1e" "exception" world_one
  = (Ok tt,
     mk_world
       [mk_Shipment "3f2a9c1e" "NYC" "LAX" (Float.of_int 5) "standard"
          "exception" None None None "2024-01-01T12:00:00"] 1 1).
Proof.
  apply (update_status_rewrites_status_only world_one 0
           (mk_Shipment "3f2a9c1e" "NYC" "LAX" (Float.of_int 5) "standard"
              "pending" None None None "2024-01-01T12:00:00") "exception").
  - vm_compute. apply NoDup_singleton.
  - reflexivity.
  - do 5 apply list_elem_of_further. apply list_elem_of_here.
Defined.

Lemma update_twice (f g : Shipment -> Shipment) sid (rows : list Shipment) :
  (forall s, id (f s) = id s) ->
  (forall s, g (f s) = g s) ->
  (fun s => if bool_decide (id s = sid) then g s else s)
    <$> ((fun s => if bool_decide (id s = sid) then f s else s) <$> rows)
  = (fun s => if bool_decide (id s = sid) then g s else s) <$> rows.
Proof.
  intros Hid Hgf. rewrite <- list_fmap_compose. apply list_fmap_ext.
  intros i s _. simpl. destruct (decide (id s = sid)) as [Hs|Hs].
  - rewrite (bool_decide_eq_true_2 (id s = sid)) by done.
    rewrite Hid, (bool_decide_eq_true_2 (id s = sid)) by done. apply Hgf.
  - by rewrite !(bool_decide_eq_false_2 (id s = sid)) by done.
Qed.

(** X5. Statuses are overwritten without regard to the status held: a
    status update followed by a second valid one, or by a carrier assignment
    that succeeds, on the same id leaves the world exactly as the second
    operation alone does. *)
Theorem later_write_wins
    (E : env) (w : world) (sid st st' c tr : string) (eta_days : Z)
    (eta_time : Datetime.datetime) :
  st ∈ SHIPMENT_STATUSES ->
  st' ∈ SHIPMENT_STATUSES ->
  c ∈ CARRIERS ->
  Datetime.add_days (clock E (clock_reads w)) eta_days = Ok eta_time ->
  ((update_status sid st ≫= fun _ => update_status sid st') w
   = update_status sid st' w) /\
  ((update_status sid st ≫= fun _ => assign_carrier E sid c tr eta_days) w
   = assign_carrier E sid c tr eta_days w).
Proof.
  intros Hst Hst' Hc Hadd.
  rewrite !(bind_ok _ _ w tt _ (update_status_run sid st w Hst)). split.
  - rewrite !update_status_run by done. unfold set_rows. simpl.
    do 2 f_equal. by apply update_twice.
  - rewrite !(assign_carrier_run E sid c tr eta_days _ eta_time) by done.
    simpl. do 2 f_equal. by apply update_twice.
Qed.

Lemma later_write_wins_witness :
  ((update_status "3f2a9c1e" "delivered" ≫=
      fun _ => update_status "3f2a9c1e" "pending") world_one
   = update_status "3f2a9c1e" "pending" world_one) /\
  ((update_status "3f2a9c1e" "delivered" ≫=
      fun _ => assign_carrier sample_env "3f2a9c1e" "usps" "TRK-5" 4) world_one
   = assign_carrier sample_env "3f2a9c1e" "usps" "TRK-5" 4 world_one).
Proof.
  apply (later_write_wins sample_env world_one "3f2a9c1e" "delivered"
           "pending" "usps" "TRK-5" 4 (Datetime.mk_datetime 2024 1 6 13 0 0 0)).
  - do 4 apply list_elem_of_further. apply list_elem_of_here.
  - apply list_elem_of_here.
  - do 2 apply list_elem_of_further. apply list_elem_of_here.
  - reflexivity.
Defined.

(** ** Bounds of the eta *)

(** X6. With a valid carrier, [assign_carrier] succeeds when the current day
    plus [eta_days] is a day between 0001-01-01 and 9999-12-31, and
    otherwise raises [OverflowError] after reading the clock, with the table
    as before. *)
Theorem assign_carrier_eta_bounds
    (E : env) (w : world) (sid c tr : string) (eta_days : Z) :
  c ∈ CARRIERS ->
  Datetime.valid (clock E (clock_reads w)) = true ->
  let day := (Datetime.toordinal (clock E (clock_reads w)) + eta_days)%Z in
  ((0 < day <= Datetime.MAXORDINAL)%Z ->
     exists w', assign_carrier E sid c tr eta_days w = (Ok tt, w')) /\
  (~ (0 < day <= Datetime.MAXORDINAL)%Z ->
     exists msg w',
       assign_carrier E sid c tr eta_days w = (Raise (OverflowError msg), w') /\
       shipments w' = shipments w /\
       clock_reads w' = S (clock_reads w)).
Proof.
  intros Hc Hnow day. split; intros Hday.
  - destruct (add_days_in_range _ _ Hnow Hday) as [t Hadd].
    eexists. by eapply assign_carrier_run.
  - destruct (add_days_out_of_range _ _ Hnow Hday) as [msg Hadd].
    exists msg. eexists. unfold assign_carrier.
    rewrite bool_decide_eq_true_2 by done.
    unfold mbind, M_bind, bind, utcnow, lift. simpl. by rewrite Hadd.
Qed.

Lemma assign_carrier_eta_bounds_witness :
  (exists w',
     assign_carrier sample_env "3f2a9c1e" "dhl" "TRK-1" (-700000) world_one
     = (Ok tt, w')) /\
  (exists msg w',
     assign_carrier sample_env "3f2a9c1e" "dhl" "TRK-1" 3000000 world_one
     = (Raise (OverflowError msg), w') /\
     shipments w' = shipments world_one /\
     clock_reads w' = S (clock_reads world_one)).
Proof.
  split.
  - apply (assign_carrier_eta_bounds sample_env world_one "3f2a9c1e" "dhl"
             "TRK-1" (-700000)).
    + do 3 apply list_elem_of_further. apply list_elem_of_here.
    + reflexivity.
    + vm_compute. split; [reflexivity | discriminate].
  - apply (assign_carrier_eta_bounds sample_env world_one "3f2a9c1e" "dhl"
             "TRK-1" 3000000).
    + do 3 apply list_elem_of_further. apply list_elem_of_here.
    + reflexivity.
    + vm_compute. intros [_ H]. by apply H.
Defined.

(** ** What no operation does *)

Lemma keeps_rows_bind {A B} (m : M A) (k : A -> M B) :
  keeps_rows m -> (forall a, keeps_rows (k a)) -> keeps_rows (m ≫= k).
Proof.
  intros Hm Hk w. unfold mbind, M_bind, bind.
  specialize (Hm w). destruct (m w) as [[a|e] w1]; [|done].
  simpl in Hm. by rewrite Hk.
Qed.

Lemma keeps_rows_ret {A} (a : A) : keeps_rows (mret a).
Proof. done. Qed.

Lemma keeps_rows_lift {A} (r : result A) : keeps_rows (lift r).
Proof. done. Qed.

Lemma keeps_rows_utcnow E : keeps_rows (utcnow E).
Proof. done. Qed.

Lemma keeps_rows_select cond : keeps_rows (sql_select cond).
Proof. done. Qed.

Lemma keeps_rows_count_on_time E l c : keeps_rows (count_on_time E l c).
Proof.
  revert c. induction l as [|s l IH]; intros c; [done|].
  cbn [count_on_time]. destruct (eta_set s); [|apply IH].
  apply keeps_rows_bind; [apply keeps_rows_lift|]. intros t.
  apply keeps_rows_bind; [apply keeps_rows_utcnow|]. intros now.
  destruct (Datetime.geb t now); apply IH.
Qed.

Lemma keeps_rows_delivery_stats E : keeps_rows (delivery_stats E).
Proof.
  unfold delivery_stats.
  apply keeps_rows_bind; [apply keeps_rows_select|]. intros rows.
  apply keeps_rows_bind.
  { destruct (is_nil _); [apply keeps_rows_ret | apply keeps_rows_count_on_time]. }
  intros cnt. apply keeps_rows_bind; [|intros avg; apply keeps_rows_ret].
  destruct (is_nil _); [apply keeps_rows_ret|].
  apply keeps_rows_bind; [apply keeps_rows_lift|]. intros ts.
  destruct (is_nil ts); apply keeps_rows_ret.
Qed.

Lemma lookup_update_rows (set : Shipment -> Shipment) sid (rows : list Shipment) i r :
  rows !! i = Some r ->
  ((fun s => if bool_decide (id s = sid) then set s else s) <$> rows) !! i
  = Some (if bool_decide (id r = sid) then set r else r).
Proof. intros Hi. by rewrite list_lookup_fmap, Hi. Qed.

Lemma same_identity_refl r : same_identity r r.
Proof. by repeat split. Qed.

Lemma same_identity_trans r1 r2 r3 :
  same_identity r1 r2 -> same_identity r2 r3 -> same_identity r1 r3.
Proof. unfold same_identity. intros ? ?. intuition congruence. Qed.

Lemma planner_step_keeps_identity E w w' i r :
  planner_step E w w' ->
  shipments w !! i = Some r ->
  exists r', shipments w' !! i = Some r' /\ same_identity r r'.
Proof.
  intros Hstep Hi. destruct Hstep.
  - exists r. split; [|apply same_identity_refl].
    unfold create_shipment. case_bool_decide; [|done].
    unfold mbind, M_bind, bind, uuid4, utcnow, sql_insert; simpl.
    destruct (Float.is_nan wt); [done|]. case_bool_decide; [done|].
    simpl. by apply lookup_app_l_Some.
  - unfold assign_carrier. case_bool_decide; [|by exists r; split; [|apply same_identity_refl]].
    unfold mbind, M_bind, bind, utcnow, lift; simpl.
    destruct (Datetime.add_days _ _); simpl;
      [|by exists r; split; [|apply same_identity_refl]].
    eexists. split; [by apply lookup_update_rows|].
    case_bool_decide; by repeat split.
  - unfold update_status. case_bool_decide; [|by exists r; split; [|apply same_identity_refl]].
    simpl. eexists. split; [by apply lookup_update_rows|].
    case_bool_decide; by repeat split.
  - rewrite get_shipments_run. exists r. split; [done|apply same_identity_refl].
  - rewrite optimize_batch_run. exists r. split; [done|apply same_identity_refl].
  - rewrite keeps_rows_delivery_stats. exists r. split; [done|apply same_identity_refl].
Qed.

(** X7. No sequence of planner calls deletes a row, moves it, or changes its
    id, origin, destination, weight, priority or [created_at]: a row found at
    a position stays at that position with these fields, whatever the calls
    return. *)
Theorem rows_keep_place_and_identity
    (E : env) (w w' : world) (i : nat) (r : Shipment) :
  rtc (planner_step E) w w' ->
  shipments w !! i = Some r ->
  exists r', shipments w' !! i = Some r' /\ same_identity r r'.
Proof.
  intros Hsteps. revert r. induction Hsteps as [w|w w1 w2 Hstep _ IH]; intros r Hi.
  - exists r. split; [done|apply same_identity_refl].
  - destruct (planner_step_keeps_identity E w w1 i r Hstep Hi) as (r1 & Hi1 & H1).
    destruct (IH r1 Hi1) as (r2 & Hi2 & H2).
    exists r2. split; [done|]. by eapply same_identity_trans.
Qed.

Lemma rows_keep_place_and_identity_witness :
  exists r',
    shipments world_two_delivered !! 0%nat = Some r' /\
    same_identity
      (mk_Shipment "3f2a9c1e" "NYC" "LAX" (Float.of_int 5) "standard" "pending"
         None None None "2024-01-01T12:00:00") r'.
Proof.
  apply (rows_keep_place_and_identity sample_env world_one world_two_delivered 0
           (mk_Shipment "3f2a9c1e" "NYC" "LAX" (Float.of_int 5) "standard"
              "pending" None None None "2024-01-01T12:00:00")).
  - eapply rtc_l.
    { apply (step_create sample_env "NYC" "CHI" (Float.of_int 7) "express"). }
    eapply rtc_l.
    { apply (step_assign sample_env "3f2a9c1e" "fedex" "TRK-1" 30). }
    eapply rtc_l.
    { apply (step_update sample_env "3f2a9c1e" "delivered"). }
    eapply rtc_once.
    apply (step_update sample_env "a81d44f0" "delivered").
  - reflexivity.
Defined.

(** ** Invariants of reachable worlds *)

Lemma sample_worlds_reachable :
  reachable sample_env world_one /\
  reachable sample_env world_two_delivered /\
  reachable sample_env world_early_eta.
Proof.
  unfold reachable. repeat split.
  - apply rtc_once.
    apply (step_create sample_env "NYC" "LAX" (Float.of_int 5) "standard").
  - eapply rtc_l.
    { apply (step_create sample_env "NYC" "LAX" (Float.of_int 5) "standard"). }
    eapply rtc_l.
    { apply (step_create sample_env "NYC" "CHI" (Float.of_int 7) "express"). }
    eapply rtc_l.
    { apply (step_assign sample_env "3f2a9c1e" "fedex" "TRK-1" 30). }
    eapply rtc_l.
    { apply (step_update sample_env "3f2a9c1e" "delivered"). }
    eapply rtc_once.
    apply (step_update sample_env "a81d44f0" "delivered").
  - eapply rtc_l.
    { apply (step_create sample_env "NYC" "LAX" (Float.of_int 5) "standard"). }
    eapply rtc_l.
    { apply (step_assign sample_env "3f2a9c1e" "ups" "TRK-2" (-2)). }
    eapply rtc_once.
    apply (step_update sample_env "3f2a9c1e" "delivered").
Qed.

Lemma planner_step_assigned_together E w w' :
  planner_step E w w' ->
  Forall assigned_together (shipments w) ->
  Forall assigned_together (shipments w').
Proof.
  intros Hstep Hw. destruct Hstep.
  - unfold create_shipment. case_bool_decide; [|done].
    unfold mbind, M_bind, bind, uuid4, utcnow, sql_insert; simpl.
    destruct (Float.is_nan wt); [done|]. case_bool_decide; [done|]. simpl.
    apply Forall_app. split; [done|]. apply Forall_singleton. by split.
  - unfold assign_carrier. case_bool_decide; [|done].
    unfold mbind, M_bind, bind, utcnow, lift; simpl.
    destruct (Datetime.add_days _ _); simpl; [|done].
    apply Forall_fmap. eapply Forall_impl; [exact Hw|].
    intros s Hs. simpl. case_bool_decide; [|done]. by split.
  - unfold update_status. case_bool_decide; [|done]. simpl.
    apply Forall_fmap. eapply Forall_impl; [exact Hw|].
    intros s Hs. simpl. by case_bool_decide.
  - by rewrite get_shipments_run.
  - by rewrite optimize_batch_run.
  - by rewrite keeps_rows_delivery_stats.
Qed.

Lemma reachable_assigned_together E w :
  reachable E w -> Forall assigned_together (shipments w).
Proof.
  unfold reachable. revert w. apply rtc_ind_r; [apply Forall_nil_2|].
  intros w1 w2 _ Hstep IH. by eapply planner_step_assigned_together.
Qed.

(** X8. In every world reached from the empty table, a row has a carrier, a
    tracking id and an eta all together or none of them: only
    [assign_carrier] writes these fields and it writes the three. *)
Theorem optional_fields_set_together (E : env) (w : world) (s : Shipment) :
  reachable E w ->
  s ∈ shipments w ->
  (carrier s = None <-> eta s = None) /\
  (carrier s = None <-> tracking_id s = None).
Proof.
  intros Hreach Hs. apply reachable_assigned_together in Hreach.
  by eapply Forall_forall in Hreach.
Qed.

Lemma optional_fields_set_together_witness :
  (carrier (mk_Shipment "a81d44f0" "NYC" "CHI" (Float.of_int 7) "express"
              "delivered" None None None "2024-01-02T13:00:00") = None <->
   eta (mk_Shipment "a81d44f0" "NYC" "CHI" (Float.of_int 7) "express"
          "delivered" None None None "2024-01-02T13:00:00") = None) /\
  (carrier (mk_Shipment "a81d44f0" "NYC" "CHI" (Float.of_int 7) "express"
              "delivered" None None None "2024-01-02T13:00:00") = None <->
   tracking_id (mk_Shipment "a81d44f0" "NYC" "CHI" (Float.of_int 7) "express"
                  "delivered" None None None "2024-01-02T13:00:00") = None).
Proof.
  apply (optional_fields_set_together sample_env world_two_delivered).
  - apply sample_worlds_reachable.
  - vm_compute. apply list_elem_of_further, list_elem_of_here.
Defined.

(** X9. In every world reached from the empty table with a clock that shows
    real datetimes, the ids are pairwise different, every priority, status
    and carrier is of its fixed set, and [created_at] and every eta are texts
    that [fromisoformat] reads back. *)
Theorem reachable_rows_are_valid (E : env) (w : world) :
  env_ok E ->
  reachable E w ->
  NoDup (id <$> shipments w) /\
  forall s, s ∈ shipments w ->
    priority s ∈ PRIORITIES /\
    status s ∈ SHIPMENT_STATUSES /\
    (forall c, carrier s = Some c -> c ∈ CARRIERS) /\
    (exists t, Datetime.fromisoformat (created_at s) = Ok t) /\
    (forall e, eta s = Some e -> exists t, Datetime.fromisoformat e = Ok t).
Proof.
  intros HE Hreach. destruct (reachable_table_ok E w HE Hreach) as [Hnd Hrows].
  split; [done|]. intros s Hs.
  eapply Forall_forall in Hrows; [|exact Hs].
  split; [exact (priority_ok s Hrows)|].
  split; [exact (status_ok s Hrows)|].
  split; [exact (carrier_ok s Hrows)|]. split.
  - destruct (created_at_ok s Hrows) as (t & Ht & ->). exists t.
    by apply fromisoformat_isoformat.
  - intros e He. destruct (eta_ok s Hrows e He) as (t & Ht & ->). exists t.
    by apply fromisoformat_isoformat.
Qed.

Lemma reachable_rows_are_valid_witness :
  NoDup (id <$> shipments world_two_delivered) /\
  forall s, s ∈ shipments world_two_delivered ->
    priority s ∈ PRIORITIES /\
    status s ∈ SHIPMENT_STATUSES /\
    (forall c, carrier s = Some c -> c ∈ CARRIERS) /\
    (exists t, Datetime.fromisoformat (created_at s) = Ok t) /\
    (forall e, eta s = Some e -> exists t, Datetime.fromisoformat e = Ok t).
Proof.
  apply (reachable_rows_are_valid sample_env world_two_delivered).
  - exact sample_env_ok.
  - apply sample_worlds_reachable.
Defined.

(** X10. [delivery_stats] never raises in a world reached from the empty
    table: every timestamp it parses was written by the planner. It leaves
    the table and the identifier generator alone and reads the clock once
    for each delivered shipment that has an eta. *)
Theorem delivery_stats_succeeds_when_reachable (E : env) (w : world) :
  env_ok E ->
  reachable E w ->
  exists stats,
    delivery_stats E w
    = (Ok stats,
       mk_world (shipments w)
         (clock_reads w + length (rows_with_eta (delivered_rows (shipments w))))
         (uuid_draws w)).
Proof.
  intros HE Hreach.
  destruct (delivery_stats_run E w (reachable_table_ok E w HE Hreach))
    as (x & perf & Hrun).
  eexists. exact Hrun.
Qed.

Lemma delivery_stats_succeeds_when_reachable_witness :
  exists stats,
    delivery_stats sample_env world_two_delivered
    = (Ok stats, mk_world (shipments world_two_delivered) 4 2).
Proof.
  apply (delivery_stats_succeeds_when_reachable sample_env world_two_delivered).
  - exact sample_env_ok.
  - apply sample_worlds_reachable.
Defined.

(** ** Queries *)

Lemma StronglySorted_weaken {A} (R R' : relation A) (P : A -> Prop) l :
  (forall a b, P a -> P b -> R a b -> R' a b) ->
  Forall P l -> StronglySorted R l -> StronglySorted R' l.
Proof.
  intros HR HP Hl. induction Hl as [|x l Hl IH Hx]; [constructor|].
  apply Forall_cons in HP as [HPx HPl]. constructor; [by apply IH|].
  apply Forall_forall. intros y Hy.
  apply HR; [done| |].
  - by eapply Forall_forall in HPl.
  - by eapply Forall_forall in Hx.
Qed.

Lemma row_ok_newest_first a b :
  row_ok a -> row_ok b -> created_desc a b -> newest_first a b.
Proof.
  intros Ha Hb Hdesc.
  destruct (created_at_ok a Ha) as (ta & Hta & Ea).
  destruct (created_at_ok b Hb) as (tb & Htb & Eb).
  unfold newest_first, created_time.
  rewrite Ea, Eb, !parse_iso_isoformat by done.
  by apply (created_desc_newest_first a b ta tb).
Qed.

(** X11. On a table written through the planner, the result of
    [get_shipments] is in the order of creation, most recent first: every
    row was created no earlier than the rows after it. *)
Theorem get_shipments_newest_first (w : world) (st pr : option string) :
  table_ok w ->
  exists l,
    get_shipments st pr w = (Ok l, w) /\ StronglySorted newest_first l.
Proof.
  intros [_ Hrows]. eexists. split; [apply get_shipments_run|].
  eapply (StronglySorted_weaken created_desc newest_first row_ok).
  - exact row_ok_newest_first.
  - apply Forall_forall. intros s Hs.
    rewrite order_by_created_at_desc_perm in Hs.
    apply list_elem_of_filter in Hs as [_ Hs].
    by eapply Forall_forall in Hrows.
  - apply order_by_created_at_desc_sorted.
Qed.

Lemma get_shipments_newest_first_witness :
  exists l,
    get_shipments None (Some "") world_two_delivered = (Ok l, world_two_delivered) /\
    StronglySorted newest_first l.
Proof.
  apply (get_shipments_newest_first world_two_delivered None (Some "")).
  exact world_two_delivered_ok.
Defined.

Lemma elem_of_get_shipments w st pr s :
  s ∈ order_by_created_at_desc
        (filter (fun s => keeps status st s && keeps priority pr s = true)
           (shipments w))
  <-> s ∈ shipments w /\ keeps status st s = true /\ keeps priority pr s = true.
Proof.
  rewrite order_by_created_at_desc_perm, list_elem_of_filter, andb_true_iff.
  tauto.
Qed.

(** X12. The two filters of [get_shipments] combine as an intersection: a
    row is in the result for a status and a priority exactly when it is in
    the result for the status alone and in the result for the priority
    alone. *)
Theorem get_shipments_filters_intersect (w : world) (st pr : option string) :
  exists l l1 l2,
    get_shipments st pr w = (Ok l, w) /\
    get_shipments st None w = (Ok l1, w) /\
    get_shipments None pr w = (Ok l2, w) /\
    forall s, s ∈ l <-> s ∈ l1 /\ s ∈ l2.
Proof.
  do 3 eexists. split; [apply get_shipments_run|].
  split; [apply get_shipments_run|]. split; [apply get_shipments_run|].
  intros s. rewrite !elem_of_get_shipments. cbn [keeps]. tauto.
Qed.

Lemma keeps_unknown_value column (v : string) (s : Shipment) :
  v <> "" -> column s <> v -> keeps column (Some v) s = false.
Proof.
  intros Hv Hs. simpl. apply orb_false_iff. split.
  - by apply String.eqb_neq.
  - by apply String.eqb_neq.
Qed.

Lemma filter_none {A} (P : A -> Prop) `{!forall x, Decision (P x)} (l : list A) :
  (forall x, x ∈ l -> ~ P x) -> filter P l = [].
Proof.
  induction l as [|x l IH]; intros Hno; [done|].
  rewrite filter_cons_False by (apply Hno; by left).
  apply IH. intros y Hy. apply Hno. by right.
Qed.

(** X13. Filter values are not validated: on a table written through the
    planner, a non-empty status that is not of the fixed set, or such a
    priority, gives the empty result and no error. *)
Theorem get_shipments_unknown_filter_value
    (w : world) (v : string) (other : option string) :
  table_ok w ->
  v <> "" ->
  (v ∉ SHIPMENT_STATUSES -> get_shipments (Some v) other w = (Ok [], w)) /\
  (v ∉ PRIORITIES -> get_shipments other (Some v) w = (Ok [], w)).
Proof.
  intros [_ Hrows] Hv. split; intros Hbad; rewrite get_shipments_run.
  - rewrite filter_none; [done|]. intros s Hs.
    eapply Forall_forall in Hrows; [|exact Hs].
    rewrite keeps_unknown_value; [done|done|].
    intros Heq. apply Hbad. rewrite <- Heq. apply (status_ok s Hrows).
  - rewrite filter_none; [done|]. intros s Hs.
    eapply Forall_forall in Hrows; [|exact Hs].
    rewrite (keeps_unknown_value priority); [by rewrite andb_false_r|done|].
    intros Heq. apply Hbad. rewrite <- Heq. apply (priority_ok s Hrows).
Qed.

Lemma get_shipments_unknown_filter_value_witness :
  get_shipments (Some "same-day") None world_two_delivered
  = (Ok [], world_two_delivered) /\
  get_shipments (Some "delivered") (Some "same-day") world_two_delivered
  = (Ok [], world_two_delivered).
Proof.
  destruct (get_shipments_unknown_filter_value world_two_delivered "same-day"
              None world_two_delivered_ok) as [Hst _]; [done|].
  destruct (get_shipments_unknown_filter_value world_two_delivered "same-day"
              (Some "delivered") world_two_delivered_ok) as [_ Hpr]; [done|].
  split.
  - apply Hst. intros H.
    repeat (apply elem_of_cons in H as [H|H]; [done|]). by apply elem_of_nil in H.
  - apply Hpr. intros H.
    repeat (apply elem_of_cons in H as [H|H]; [done|]). by apply elem_of_nil in H.
Defined.

(** X14. A query after a successful [create_shipment] returns what the same
    query returned before, plus the new row when it passes the filters; the
    new row holds the weight as the [REAL] column gives it back, so a
    weight of -0.0 is returned as 0.0. *)
Theorem get_shipments_after_create
    (E : env) (w : world) (o d : string) (wt : Float.float) (p : string)
    (st pr : option string) :
  p ∈ PRIORITIES ->
  Float.is_nan wt = false ->
  py_prefix 8 (uuids E (uuid_draws w)) ∉ (id <$> shipments w) ->
  exists sid w' before after,
    create_shipment E o d wt p w = (Ok sid, w') /\
    get_shipments st pr w = (Ok before, w) /\
    get_shipments st pr w' = (Ok after, w') /\
    let row :=
      mk_Shipment sid o d (sql_real wt) p "pending" None None None
        (Datetime.isoformat (clock E (clock_reads w))) in
    after ≡ₚ
      (if keeps status st row && keeps priority pr row then [row] else [])
      ++ before.
Proof.
  intros Hp Hnan Hfresh. do 4 eexists.
  split; [by apply create_shipment_valid|].
  split; [apply get_shipments_run|]. split; [apply get_shipments_run|].
  cbn [shipments]. rewrite !order_by_created_at_desc_perm, filter_app.
  rewrite filter_cons, filter_nil.
  set (row := mk_Shipment _ o d (sql_real wt) p "pending" None None None _).
  destruct (keeps status st row && keeps priority pr row); simpl.
  - by rewrite Permutation_app_comm.
  - by rewrite app_nil_r.
Qed.

Lemma get_shipments_after_create_witness :
  exists sid w' before after,
    create_shipment sample_env "NYC" "BOS" (S754_zero true) "express" world_one
    = (Ok sid, w') /\
    get_shipments (Some "pending") None world_one = (Ok before, world_one) /\
    get_shipments (Some "pending") None w' = (Ok after, w') /\
    let row :=
      mk_Shipment sid "NYC" "BOS" (S754_zero false) "express" "pending" None None
        None (Datetime.isoformat (clock sample_env (clock_reads world_one))) in
    after ≡ₚ
      (if keeps status (Some "pending") row && keeps priority None row
       then [row] else [])
      ++ before.
Proof.
  apply (get_shipments_after_create sample_env world_one "NYC" "BOS"
           (S754_zero true) "express" (Some "pending") None).
  - apply list_elem_of_further, list_elem_of_here.
  - reflexivity.
  - vm_compute. intros H. repeat (apply elem_of_cons in H as [H|H]; [done|]).
    by apply elem_of_nil in H.
Defined.

(** ** Batches: sums, repeated ids, unknown ids *)

Lemma count_for_entry (m : gmap string Z) k n :
  m !! k = entry n -> count_for m k = n.
Proof.
  intros Hk. unfold count_for. rewrite Hk. unfold entry.
  by destruct (Z.eqb_spec n 0) as [->|?].
Qed.

Lemma len_filter_split {A} (P Q R : A -> Prop)
    `{!forall x, Decision (P x)} `{!forall x, Decision (Q x)}
    `{!forall x, Decision (R x)} (l : list A) :
  (forall x, x ∈ l -> R x <-> P x \/ Q x) ->
  (forall x, x ∈ l -> P x -> Q x -> False) ->
  len (filter R l) = (len (filter P l) + len (filter Q l))%Z.
Proof.
  unfold len. induction l as [|x l IH]; intros HR Hdisj; [done|].
  assert (x ∈ x :: l) as Hx by (by left).
  specialize (IH (fun y Hy => HR y (list_elem_of_further _ _ _ Hy))
                 (fun y Hy => Hdisj y (list_elem_of_further _ _ _ Hy))).
  rewrite !filter_cons.
  destruct (decide (P x)) as [HP|HP], (decide (Q x)) as [HQ|HQ],
    (decide (R x)) as [Hr|Hr]; simpl; try lia;
    exfalso; first [ by eapply Hdisj | apply Hr, HR; tauto
                   | apply HR in Hr; tauto ].
Qed.

Lemma sum_of_counts {A} (key : A -> option string) (keys : list string)
    (l : list A) :
  NoDup keys ->
  foldr (fun k acc => (len (filter (fun s => key s = Some k) l) + acc)%Z) 0%Z keys
  = len (filter (fun s => covered key keys s = true) l).
Proof.
  intros Hnd. induction Hnd as [|k keys Hk Hnd IH]; simpl.
  - rewrite filter_none; [done|]. intros x _. unfold covered.
    destruct (key x); [|done]. rewrite bool_decide_eq_false_2; [done|].
    apply not_elem_of_nil.
  - rewrite IH. symmetry. apply len_filter_split.
    + intros x _. unfold covered. destruct (key x) as [k'|].
      * rewrite !bool_decide_eq_true, elem_of_cons. split.
        -- intros [->|Hin]; [by left | by right].
        -- intros [[= ->]|Hin]; [by left | by right].
      * split; [by right | by intros [?|?]].
    + intros x _ Hx. unfold covered. rewrite Hx, bool_decide_eq_true. done.
Qed.

Lemma sum_over_counts {A} (key : A -> option string) (keys : list string)
    (l : list A) (m : gmap string Z) :
  NoDup keys ->
  (forall k, m !! k = entry (len (filter (fun s => key s = Some k) l))) ->
  sum_over keys m = len (filter (fun s => covered key keys s = true) l).
Proof.
  intros Hnd Hm. rewrite <- sum_of_counts by done. unfold sum_over.
  induction keys as [|k keys IH]; [done|]. simpl.
  apply NoDup_cons in Hnd as [_ Hnd].
  by rewrite IH, (count_for_entry m k _ (Hm k)).
Qed.

Lemma resolve_rows_ok w ids :
  table_ok w -> Forall row_ok (resolve (shipments w) ids).
Proof.
  intros [_ Hrows]. apply Forall_forall. intros s Hs.
  unfold resolve in Hs. apply list_elem_of_omap in Hs as (sid & _ & Hfind).
  apply find_row_Some in Hfind as [Hin _]. by eapply Forall_forall in Hrows.
Qed.

Lemma NoDup_PRIORITIES : NoDup PRIORITIES.
Proof. apply (bool_decide_unpack _). vm_compute. exact I. Qed.

Lemma NoDup_CARRIERS : NoDup CARRIERS.
Proof. apply (bool_decide_unpack _). vm_compute. exact I. Qed.

(** X15. On a table written through the planner, the counts of
    [optimize_batch] add up: the counts of the three priorities give
    [total_shipments], and the counts of the five carriers plus the number
    of resolved rows without a carrier give [total_shipments]. *)
Theorem optimize_batch_counts_add_up (w : world) (ids : list string) :
  table_ok w ->
  exists summary,
    optimize_batch ids w = (Ok summary, w) /\
    sum_over PRIORITIES (batch_by_priority summary)
    = batch_total_shipments summary /\
    (sum_over CARRIERS (batch_by_carrier summary) +
     len (filter (fun s => carrier s = None) (resolve (shipments w) ids)))%Z
    = batch_total_shipments summary.
Proof.
  intros Hw. pose proof (resolve_rows_ok w ids Hw) as Hfound.
  eexists. split; [apply optimize_batch_run|].
  cbn [batch_by_priority batch_by_carrier batch_total_shipments].
  set (found := resolve (shipments w) ids) in *. split.
  - rewrite (sum_over_counts (fun s => Some (priority s)) PRIORITIES found).
    + f_equal. rewrite <- (filter_true_all found) at 2.
      apply filter_agree. intros s Hs.
      eapply Forall_forall in Hfound; [|exact Hs].
      unfold covered. rewrite bool_decide_eq_true_2; [done|].
      apply (priority_ok s Hfound).
    + exact NoDup_PRIORITIES.
    + intros k. unfold group_by_priority.
      apply (group_count_lookup (fun s => Some (priority s))).
  - rewrite (sum_over_counts carrier_set CARRIERS found).
    + rewrite <- (filter_true_all found) at 3. symmetry.
      apply len_filter_split.
      * intros s Hs. split; [|done]. intros _.
        eapply Forall_forall in Hfound; [|exact Hs].
        unfold covered. rewrite (carrier_set_named s Hfound).
        destruct (carrier s) as [c|] eqn:Hc; [|by right].
        left. apply bool_decide_eq_true_2. by apply (carrier_ok s Hfound).
      * intros s Hs. unfold covered. eapply Forall_forall in Hfound; [|exact Hs].
        rewrite (carrier_set_named s Hfound).
        intros Hcov Hnone. by rewrite Hnone in Hcov.
    + exact NoDup_CARRIERS.
    + intros k. unfold group_by_carrier. apply group_count_lookup.
Qed.

Lemma optimize_batch_counts_add_up_witness :
  exists summary,
    optimize_batch ["a81d44f0"; "3f2a9c1e"; "a81d44f0"] world_two_delivered
    = (Ok summary, world_two_delivered) /\
    sum_over PRIORITIES (batch_by_priority summary)
    = batch_total_shipments summary /\
    (sum_over CARRIERS (batch_by_carrier summary) +
     len (filter (fun s => carrier s = None)
            (resolve (shipments world_two_delivered)
               ["a81d44f0"; "3f2a9c1e"; "a81d44f0"])))%Z
    = batch_total_shipments summary.
Proof.
  apply (optimize_batch_counts_add_up world_two_delivered
           ["a81d44f0"; "3f2a9c1e"; "a81d44f0"]).
  exact world_two_delivered_ok.
Defined.

Lemma resolve_app rows ids1 ids2 :
  resolve rows (ids1 ++ ids2) = resolve rows ids1 ++ resolve rows ids2.
Proof. unfold resolve. apply omap_app. Qed.

Lemma entry_nonneg_add (a b : Z) :
  (0 <= a)%Z -> (0 <= b)%Z ->
  default 0%Z (entry (a + b)) = (default 0%Z (entry a) + default 0%Z (entry b))%Z.
Proof.
  intros Ha Hb. unfold entry.
  destruct (Z.eqb_spec (a + b) 0), (Z.eqb_spec a 0), (Z.eqb_spec b 0); simpl; lia.
Qed.

Lemma count_for_group_app (key : Shipment -> option string) l1 l2 k :
  count_for (len <$> foldl (fun d s => match key s with
                                       | Some c => group_append c s d
                                       | None => d
                                       end) ∅ (l1 ++ l2)) k
  = (count_for (len <$> foldl (fun d s => match key s with
                                          | Some c => group_append c s d
                                          | None => d
                                          end) ∅ l1) k +
     count_for (len <$> foldl (fun d s => match key s with
                                          | Some c => group_append c s d
                                          | None => d
                                          end) ∅ l2) k)%Z.
Proof.
  unfold count_for. rewrite !group_count_lookup, filter_app.
  unfold len at 1. rewrite length_app, Nat2Z.inj_add.
  apply entry_nonneg_add; unfold len; lia.
Qed.

(** X16. [optimize_batch] counts per requested id, not per shipment: for two
    lists of ids one after the other, the total and every carrier and
    priority count are the sums of those of the two lists, so that an id
    given twice is counted twice. *)
Theorem optimize_batch_of_appended_ids (w : world) (ids1 ids2 : list string) :
  exists s s1 s2,
    optimize_batch (ids1 ++ ids2) w = (Ok s, w) /\
    optimize_batch ids1 w = (Ok s1, w) /\
    optimize_batch ids2 w = (Ok s2, w) /\
    batch_total_shipments s
    = (batch_total_shipments s1 + batch_total_shipments s2)%Z /\
    forall k,
      count_for (batch_by_carrier s) k
      = (count_for (batch_by_carrier s1) k + count_for (batch_by_carrier s2) k)%Z /\
      count_for (batch_by_priority s) k
      = (count_for (batch_by_priority s1) k + count_for (batch_by_priority s2) k)%Z.
Proof.
  do 3 eexists. split; [apply optimize_batch_run|].
  split; [apply optimize_batch_run|]. split; [apply optimize_batch_run|].
  cbn [batch_by_priority batch_by_carrier batch_total_shipments].
  rewrite resolve_app. split.
  - unfold len. rewrite length_app. lia.
  - intros k. split.
    + apply count_for_group_app.
    + apply (count_for_group_app (fun s => Some (priority s))).
Qed.

Lemma resolve_unknown rows ids :
  (forall sid, sid ∈ ids -> sid ∉ (id <$> rows)) -> resolve rows ids = [].
Proof.
  unfold resolve. induction ids as [|sid ids IH]; intros Hids; [done|].
  cbn [omap list_omap]. unfold find_row at 1.
  rewrite filter_id_missing by (apply Hids; by left). simpl.
  apply IH. intros x Hx. apply Hids. by right.
Qed.

(** X17. Ids that have no row are skipped without an error: when none of
    the requested ids is in the table (in particular for the empty list),
    [optimize_batch] reports 0 shipments and two empty dicts. *)
Theorem optimize_batch_of_unknown_ids (w : world) (ids : list string) :
  (forall sid, sid ∈ ids -> sid ∉ (id <$> shipments w)) ->
  optimize_batch ids w = (Ok (mk_BatchSummary 0 ∅ ∅), w).
Proof.
  intros Hids. rewrite optimize_batch_run, (resolve_unknown _ _ Hids).
  unfold group_by_carrier, group_by_priority. cbn [foldl].
  by rewrite fmap_empty.
Qed.

Lemma optimize_batch_of_unknown_ids_witness :
  optimize_batch ["deadbeef"; "0badf00d"] world_two_delivered
  = (Ok (mk_BatchSummary 0 ∅ ∅), world_two_delivered).
Proof.
  apply (optimize_batch_of_unknown_ids world_two_delivered ["deadbeef"; "0badf00d"]).
  intros sid Hsid. vm_compute.
  repeat (apply elem_of_cons in Hsid as [->|Hsid];
          [intros H; repeat (apply elem_of_cons in H as [H|H]; [done|]);
           by apply elem_of_nil in H|]).
  by apply elem_of_nil in Hsid.
Defined.

(** ** Statistics: counts and per-carrier rates *)

Lemma tally_lookup k s d k' :
  tally k s d !! k'
  = if decide (k = k')
    then Some (let '(dl, tot) := default (0, 0)%Z (d !! k) in
               ((if bool_decide (status s = "delivered") then dl + 1 else dl)%Z,
                (tot + 1)%Z))
    else d !! k'.
Proof.
  unfold tally. destruct (decide (k = k')) as [<-|Hne].
  - destruct (d !! k) as [[dl tot]|] eqn:Hk; simpl;
      case_bool_decide; rewrite ?lookup_alter_eq, ?lookup_insert_eq, ?Hk; done.
  - case_bool_decide; rewrite ?lookup_alter_ne by done;
      destruct (d !! k); rewrite ?lookup_insert_ne by done; done.
Qed.

Lemma len_cons {A} (x : A) l : len (x :: l) = (len l + 1)%Z.
Proof. unfold len. simpl length. lia. Qed.

Lemma delivered_rows_cons s l :
  len (delivered_rows (s :: l))
  = ((if bool_decide (status s = "delivered") then 1 else 0)
     + len (delivered_rows l))%Z.
Proof.
  unfold delivered_rows. rewrite filter_cons.
  destruct (decide (status s = "delivered")) as [Hs|Hs].
  - rewrite (bool_decide_eq_true_2 _ Hs), len_cons. lia.
  - by rewrite (bool_decide_eq_false_2 _ Hs).
Qed.

(** The tallies of a carrier are the number of its delivered rows and the
    number of its rows. *)
Lemma tally_fold_lookup (key : Shipment -> option string) l d k :
  foldl (fun d s => match key s with
                    | Some c => tally c s d
                    | None => d
                    end) d l !! k
  = match d !! k, filter (fun s => key s = Some k) l with
    | None, [] => None
    | o, fl =>
        let '(dl, tot) := default (0, 0)%Z o in
        Some ((dl + len (delivered_rows fl))%Z, (tot + len fl)%Z)
    end.
Proof.
  revert d. induction l as [|s l IH]; intros d.
  - cbn [foldl]. rewrite filter_nil.
    destruct (d !! k) as [[dl tot]|]; [|done].
    cbn. by rewrite !Z.add_0_r.
  - cbn [foldl]. rewrite IH. destruct (key s) as [c|] eqn:Hkey.
    + rewrite tally_lookup. destruct (decide (c = k)) as [->|Hne].
      * rewrite filter_cons_True by done.
        set (fl := filter _ l).
        assert (forall dl tot : Z,
                  (let '(dl0, tot0) :=
                     ((if bool_decide (status s = "delivered") then dl + 1 else dl)%Z,
                      (tot + 1)%Z) in
                   Some ((dl0 + len (delivered_rows fl))%Z, (tot0 + len fl)%Z))
                  = Some ((dl + len (delivered_rows (s :: fl)))%Z,
                          (tot + len (s :: fl))%Z)) as Hstep.
        { intros dl tot. rewrite delivered_rows_cons, len_cons.
          case_bool_decide; f_equal; f_equal; lia. }
        destruct (d !! k) as [[dl tot]|]; cbn [default].
        -- destruct fl; apply Hstep.
        -- destruct fl; apply (Hstep 0%Z 0%Z).
      * rewrite filter_cons_False by congruence. done.
    + rewrite filter_cons_False by congruence. done.
Qed.

(** What [delivery_stats] returns on a table that satisfies the invariant,
    every field written out. *)
Lemma delivery_stats_fields E w :
  table_ok w ->
  delivery_stats E w
  = (Ok (mk_Stats (len (shipments w)) (len (delivered_rows (shipments w)))
           (len (exception_rows (shipments w)))
           (on_time_rate E (clock_reads w) (shipments w))
           (avg_transit whole_days_floor (shipments w))
           ((fun '(dl, tot) =>
               Float.round1 (Float.mul (Float.int_true_div dl tot)
                                       (Float.of_int 100)))
            <$> foldl (fun d s => match carrier_set s with
                                  | Some c => tally c s d
                                  | None => d
                                  end) ∅ (shipments w))),
     mk_world (shipments w)
       (clock_reads w + length (rows_with_eta (delivered_rows (shipments w))))
       (uuid_draws w)).
Proof.
  intros [_ Hrows]. apply delivered_rows_ok in Hrows.
  unfold delivery_stats, on_time_rate, avg_transit, exception_rows.
  unfold mbind at 1, M_bind at 1, bind at 1, sql_select.
  rewrite filter_true_all. fold (delivered_rows (shipments w)).
  destruct (delivered_rows (shipments w)) as [|s d] eqn:Hd.
  - cbn. unfold rows_with_eta. simpl. by rewrite world_same_counts.
  - cbn [is_nil].
    unfold mbind, M_bind, bind.
    rewrite (count_on_time_run E (s :: d) 0%Z w Hrows).
    unfold lift. rewrite (collect_transit_run (s :: d) [] Hrows).
    rewrite app_nil_l, Z.add_0_l.
    destruct (omap (transit whole_days_floor) (s :: d)); reflexivity.
Qed.

Lemma carrier_rows_set c rows :
  Forall row_ok rows ->
  filter (fun s => carrier_set s = Some c) rows = carrier_rows c rows.
Proof.
  intros Hrows. unfold carrier_rows. apply filter_agree.
  intros s Hs. eapply Forall_forall in Hrows; [|exact Hs].
  by rewrite (carrier_set_named s Hrows).
Qed.

(** X18. On a table that satisfies the invariant [delivery_stats] returns,
    and its [by_carrier] has an entry exactly for the carriers some row
    names: the carrier's delivered rows over the carrier's rows, times 100,
    rounded to one decimal. *)
Theorem delivery_stats_carrier_rates E w :
  table_ok w ->
  exists stats w',
    delivery_stats E w = (Ok stats, w') /\
    forall c,
      stats_by_carrier stats !! c
      = if is_nil (carrier_rows c (shipments w)) then None
        else Some (delivery_rate (carrier_rows c (shipments w))).
Proof.
  intros Hw. rewrite (delivery_stats_fields E w Hw).
  do 2 eexists. split; [reflexivity|]. intros c.
  cbn [stats_by_carrier]. rewrite lookup_fmap, tally_fold_lookup.
  rewrite lookup_empty, (carrier_rows_set c _ (proj2 Hw)).
  destruct (carrier_rows c (shipments w)) as [|s l]; [done|].
  cbn [default is_nil fmap option_fmap option_map]. unfold delivery_rate.
  by rewrite !Z.add_0_l.
Qed.

Lemma delivery_stats_carrier_rates_witness :
  exists stats w',
    delivery_stats sample_env world_two_delivered = (Ok stats, w') /\
    forall c,
      stats_by_carrier stats !! c
      = if is_nil (carrier_rows c (shipments world_two_delivered)) then None
        else Some (delivery_rate (carrier_rows c (shipments world_two_delivered))).
Proof.
  apply (delivery_stats_carrier_rates sample_env world_two_delivered).
  exact world_two_delivered_ok.
Defined.

Lemma len_nonneg {A} (l : list A) : (0 <= len l)%Z.
Proof. unfold len. lia. Qed.

Lemma len_filter_cons {A} (P : A -> Prop) `{!forall x, Decision (P x)} x l :
  len (filter P (x :: l))
  = ((if bool_decide (P x) then 1 else 0) + len (filter P l))%Z.
Proof.
  rewrite filter_cons. destruct (decide (P x)) as [Hx|Hx].
  - rewrite (bool_decide_eq_true_2 _ Hx), len_cons. lia.
  - by rewrite (bool_decide_eq_false_2 _ Hx).
Qed.

Lemma status_one_class st :
  st ∈ SHIPMENT_STATUSES ->
  ((if bool_decide (st = "delivered") then 1 else 0)
   + (if bool_decide (st = "exception") then 1 else 0)
   + (if bool_decide (st ∈ ["pending"; "picked_up"; "in_transit";
                            "out_for_delivery"]) then 1 else 0))%Z = 1%Z.
Proof.
  intros Hst.
  repeat (apply elem_of_cons in Hst as [->|Hst]; [vm_compute; reflexivity|]).
  by apply elem_of_nil in Hst.
Qed.

(** Every row of a valid table is delivered, in exception or in one of the
    four other statuses, and in one only. *)
Lemma status_split rows :
  Forall row_ok rows ->
  len rows
  = (len (delivered_rows rows) + len (exception_rows rows)
     + len (in_flight_rows rows))%Z.
Proof.
  induction 1 as [|s l Hs Hl IH]; [done|].
  unfold delivered_rows, exception_rows, in_flight_rows in *.
  pose proof (status_one_class _ (status_ok s Hs)) as Hst.
  rewrite len_cons, IH, !len_filter_cons. lia.
Qed.

(** X19. On a table that satisfies the invariant [delivery_stats] returns
    and leaves the rows as they are; [total_shipments], [delivered] and
    [in_exception] count all rows, the delivered rows and the rows in
    exception, and what is left of the total is the rows in the four other
    statuses. *)
Theorem delivery_stats_counts E w :
  table_ok w ->
  exists stats w',
    delivery_stats E w = (Ok stats, w') /\
    shipments w' = shipments w /\
    total_shipments stats = len (shipments w) /\
    delivered stats = len (delivered_rows (shipments w)) /\
    in_exception stats = len (exception_rows (shipments w)) /\
    (total_shipments stats - delivered stats - in_exception stats
     = len (in_flight_rows (shipments w)))%Z /\
    (0 <= delivered stats)%Z /\ (0 <= in_exception stats)%Z /\
    (delivered stats + in_exception stats <= total_shipments stats)%Z.
Proof.
  intros Hw. rewrite (delivery_stats_fields E w Hw).
  do 2 eexists. split; [reflexivity|].
  cbn [shipments total_shipments delivered in_exception].
  pose proof (status_split _ (proj2 Hw)) as Hsplit.
  pose proof (len_nonneg (delivered_rows (shipments w))).
  pose proof (len_nonneg (exception_rows (shipments w))).
  pose proof (len_nonneg (in_flight_rows (shipments w))).
  repeat split; lia.
Qed.

Lemma delivery_stats_counts_witness :
  exists stats w',
    delivery_stats sample_env world_two_delivered = (Ok stats, w') /\
    shipments w' = shipments world_two_delivered /\
    total_shipments stats = len (shipments world_two_delivered) /\
    delivered stats = len (delivered_rows (shipments world_two_delivered)) /\
    in_exception stats = len (exception_rows (shipments world_two_delivered)) /\
    (total_shipments stats - delivered stats - in_exception stats
     = len (in_flight_rows (shipments world_two_delivered)))%Z /\
    (0 <= delivered stats)%Z /\ (0 <= in_exception stats)%Z /\
    (delivered stats + in_exception stats <= total_shipments stats)%Z.
Proof.
  apply (delivery_stats_counts sample_env world_two_delivered).
  exact world_two_delivered_ok.
Defined.

(** X20. With no delivered shipment in the table, whatever else it holds,
    [delivery_stats] returns without parsing a timestamp or reading the
    clock: both averages are the integer 0, the world is unchanged, and on
    an empty table every count is 0 and [by_carrier] is empty. *)
Theorem delivery_stats_nothing_delivered E w :
  delivered_rows (shipments w) = [] ->
  exists perf,
    delivery_stats E w
    = (Ok (mk_Stats (len (shipments w)) 0
             (len (exception_rows (shipments w))) (NInt 0) (NInt 0) perf), w)
    /\ (shipments w = [] -> perf = ∅ /\ len (exception_rows (shipments w)) = 0%Z).
Proof.
  intros Hnone. eexists. split.
  - unfold delivery_stats.
    unfold mbind at 1, M_bind at 1, bind at 1, sql_select.
    rewrite filter_true_all. fold (delivered_rows (shipments w)).
    fold (exception_rows (shipments w)).
    rewrite Hnone. cbn. reflexivity.
  - intros ->. split; [|done]. cbn [foldl]. apply fmap_empty.
Qed.

Lemma delivery_stats_nothing_delivered_witness :
  exists perf,
    delivery_stats sample_env world_one
    = (Ok (mk_Stats (len (shipments world_one)) 0
             (len (exception_rows (shipments world_one))) (NInt 0) (NInt 0) perf),
       world_one)
    /\ (shipments world_one = [] ->
        perf = ∅ /\ len (exception_rows (shipments world_one)) = 0%Z).
Proof.
  apply (delivery_stats_nothing_delivered sample_env world_one).
  vm_compute. reflexivity.
Defined.

(** ** The distance is symmetric *)

Lemma math_1_raises f x e :
  math_1 f x = Raise e -> e = ValueError "math domain error".
Proof.
  unfold math_1. repeat case_match; congruence.
Qed.

Lemma SFabs_binary_round_aux s m e l :
  SFabs (binary_round_aux Float.prec Float.emax s m e l)
  = binary_round_aux Float.prec Float.emax false m e l.
Proof.
  unfold binary_round_aux.
  destruct (shr_fexp _ _ m e l) as [mrs' e'].
  destruct (shr_fexp _ _ _ e' loc_Exact) as [mrs'' e''].
  destruct (shr_m mrs''); [done| |done].
  by destruct (_ <=? _)%Z.
Qed.

Lemma SFabs_binary_normalize m e :
  SFabs (binary_normalize Float.prec Float.emax (- m) e false)
  = SFabs (binary_normalize Float.prec Float.emax m e false).
Proof.
  destruct m as [|p|p]; [done| |]; unfold binary_normalize, Z.opp, binary_round;
    destruct (shl_align _ _ _) as [mz ez];
    by rewrite !SFabs_binary_round_aux.
Qed.

Lemma SFabs_sub x y : SFabs (Float.sub x y) = SFabs (Float.sub y x).
Proof.
  unfold Float.sub.
  destruct x as [sx|sx| |sx mx ex], y as [sy|sy| |sy my ey];
    try done; try (by destruct sx, sy).
  cbn [SFsub]. rewrite (Z.min_comm ey ex), <- SFabs_binary_normalize.
  f_equal. f_equal. lia.
Qed.

Lemma SFabs_mul x y : SFabs (Float.mul x y) = Float.mul (SFabs x) (SFabs y).
Proof.
  unfold Float.mul.
  destruct x as [sx|sx| |sx mx ex], y as [sy|sy| |sy my ey]; try done.
  cbn [SFmul SFabs]. by rewrite SFabs_binary_round_aux.
Qed.

Lemma SFabs_div x y : SFabs (Float.div x y) = Float.div (SFabs x) (SFabs y).
Proof.
  unfold Float.div.
  destruct x as [sx|sx| |sx mx ex], y as [sy|sy| |sy my ey]; try done.
  cbn [SFdiv SFabs].
  destruct (SFdiv_core_binary _ _ _ _ _ _) as [[mz ez] lz].
  by rewrite SFabs_binary_round_aux.
Qed.

Lemma mul_comm x y : Float.mul x y = Float.mul y x.
Proof.
  unfold Float.mul.
  destruct x as [sx|sx| |sx mx ex], y as [sy|sy| |sy my ey];
    try done; cbn [SFmul]; try (by rewrite xorb_comm).
  by rewrite xorb_comm, Pos.mul_comm, Z.add_comm.
Qed.

Lemma SFabs_eq x y : SFabs x = SFabs y -> x = y \/ x = SFopp y.
Proof.
  destruct x as [[]|[]| |[] mx ex], y as [[]|[]| |[] my ey];
    try done; cbn [SFabs SFopp negb]; intros [= ]; subst; auto.
Qed.

(** The squared sine of an angle does not depend on the sign of the
    angle. *)
Lemma sin_squared_abs L x y :
  sin_odd L ->
  SFabs x = SFabs y ->
  result_bind (math_1 (libm_sin L) x) (float_pow2 L)
  = result_bind (math_1 (libm_sin L) y) (float_pow2 L).
Proof.
  intros Hodd Hxy. destruct (SFabs_eq x y Hxy) as [->| ->]; [done|].
  unfold math_1. rewrite Hodd.
  destruct y as [sy|sy| |sy my ey], (libm_sin L _) as [sr|sr| |sr mr er];
    try done; cbn.
  all: try by destruct sr.
Qed.

(** The distance formula, its two squared sines taken as one step each. *)
Lemma haversine_steps L lat1 lon1 lat2 lon2 :
  _haversine_distance L (lat1, lon1) (lat2, lon2)
  = result_bind
      (result_bind
         (math_1 (libm_sin L)
            (Float.div (math_radians (Float.sub lat2 lat1)) (Float.of_int 2)))
         (float_pow2 L)) (fun s1sq =>
    result_bind (math_1 (libm_cos L) (math_radians lat1)) (fun c1 =>
    result_bind (math_1 (libm_cos L) (math_radians lat2)) (fun c2 =>
    result_bind
      (result_bind
         (math_1 (libm_sin L)
            (Float.div (math_radians (Float.sub lon2 lon1)) (Float.of_int 2)))
         (float_pow2 L)) (fun s2sq =>
    result_bind
      (math_1 Float.sqrt (Float.add s1sq (Float.mul (Float.mul c1 c2) s2sq)))
      (fun root =>
    result_bind (math_1 (libm_asin L) root) (fun as_ =>
    Ok (Float.mul (Float.of_int 6371) (Float.mul (Float.of_int 2) as_)))))))).
Proof.
  unfold _haversine_distance.
  destruct (math_1 (libm_sin L) _) as [s1|e]; cbn [result_bind]; [|done].
  destruct (float_pow2 L s1) as [s1sq|e]; cbn [result_bind]; [|done].
  destruct (math_1 (libm_cos L) _) as [c1|e]; cbn [result_bind]; [|done].
  destruct (math_1 (libm_cos L) _) as [c2|e]; cbn [result_bind]; [|done].
  destruct (math_1 (libm_sin L) _) as [s2|e]; cbn [result_bind]; [|done].
  done.
Qed.

Lemma half_angle_abs a b :
  SFabs (Float.div (math_radians (Float.sub a b)) (Float.of_int 2))
  = SFabs (Float.div (math_radians (Float.sub b a)) (Float.of_int 2)).
Proof.
  unfold math_radians. by rewrite !SFabs_div, !SFabs_mul, (SFabs_sub a b).
Qed.

Lemma haversine_symmetric L c1 c2 :
  sin_odd L -> _haversine_distance L c1 c2 = _haversine_distance L c2 c1.
Proof.
  intros Hodd. destruct c1 as [lat1 lon1], c2 as [lat2 lon2].
  rewrite !haversine_steps.
  rewrite (sin_squared_abs L _ _ Hodd (half_angle_abs lat2 lat1)).
  rewrite (sin_squared_abs L _ _ Hodd (half_angle_abs lon2 lon1)).
  destruct (result_bind (math_1 (libm_sin L) _) _) as [s1sq|e];
    cbn [result_bind]; [|done].
  destruct (math_1 (libm_cos L) (math_radians lat1)) as [c1|e1] eqn:H1,
           (math_1 (libm_cos L) (math_radians lat2)) as [c2|e2] eqn:H2;
    cbn [result_bind]; try done.
  - by rewrite (mul_comm c1 c2).
  - apply math_1_raises in H1, H2. by subst.
Qed.

(** X22. When libm's sine is odd, the distance from one point to another
    is, bit for bit, the distance back, and [get_route] gives the same
    [distance_km] and [duration_h] in both directions (or raises the same
    error). *)
Theorem route_distance_symmetric (L : libm) :
  sin_odd L ->
  (forall c1 c2, _haversine_distance L c1 c2 = _haversine_distance L c2 c1) /\
  (forall o d,
     match get_route L o d, get_route L d o with
     | Ok r, Ok r' =>
         r !! "distance_km" = r' !! "distance_km" /\
         r !! "duration_h" = r' !! "duration_h"
     | Raise e, Raise e' => e = e'
     | _, _ => False
     end).
Proof.
  intros Hodd. split; [intros; by apply haversine_symmetric|].
  intros o d. unfold get_route.
  destruct (dict_get CITY_COORDS o) as [c1|], (dict_get CITY_COORDS d) as [c2|];
    try done.
  rewrite (haversine_symmetric L c2 c1 Hodd).
  by destruct (_haversine_distance L c1 c2).
Qed.

Lemma route_distance_symmetric_witness :
  (forall c1 c2,
     _haversine_distance leading_libm c1 c2
     = _haversine_distance leading_libm c2 c1) /\
  (forall o d,
     match get_route leading_libm o d, get_route leading_libm d o with
     | Ok r, Ok r' =>
         r !! "distance_km" = r' !! "distance_km" /\
         r !! "duration_h" = r' !! "duration_h"
     | Raise e, Raise e' => e = e'
     | _, _ => False
     end).
Proof.
  apply (route_distance_symmetric leading_libm).
  intros x. reflexivity.
Defined.

(** ** Operations one after another *)

Lemma add_days_microseconds dt n dt' :
  Datetime.valid dt = true ->
  Datetime.add_days dt n = Ok dt' ->
  total_microseconds dt' = (total_microseconds dt + n * 86400000000)%Z.
Proof.
  intros Hv Hadd.
  destruct (add_days_spec dt n dt' Hv Hadd) as (_ & _ & _ & Hh & Hm & Hs & Hus).
  destruct (add_days_exact dt n dt' Hv Hadd) as [Hord _].
  unfold total_microseconds. rewrite Hord, Hh, Hm, Hs, Hus. lia.
Qed.

(** X23. The transit time the statistics use for a shipment is fixed when
    its carrier is assigned: the eta written is the clock reading plus
    [eta_days], and the whole days from the creation to that eta are
    [eta_days] plus the whole days (rounded down) from the creation to the
    assignment. *)
Theorem assigned_transit_days
    (E : env) (w : world) (i : nat) (r : Shipment) (c tr : string) (n : Z)
    (eta_t : Datetime.datetime) :
  env_ok E ->
  table_ok w ->
  shipments w !! i = Some r ->
  c ∈ CARRIERS ->
  Datetime.add_days (clock E (clock_reads w)) n = Ok eta_t ->
  exists r' created,
    shipments (assign_carrier E (id r) c tr n w).2 !! i = Some r' /\
    Datetime.parse_iso (created_at r) = Some created /\
    eta_time r' = Some eta_t /\
    transit whole_days_floor r'
    = Some (n + whole_days_floor (clock E (clock_reads w)) created)%Z.
Proof.
  intros HE [_ Hrows] Hi Hc Hadd.
  pose proof (Forall_lookup_1 _ _ _ _ Hrows Hi) as Hr.
  destruct (created_at_ok r Hr) as (created & Hcv & Hcreated).
  destruct (add_days_spec _ _ _ (HE _) Hadd) as (Hv & _).
  exists (assigned r c tr (Datetime.isoformat eta_t)), created.
  rewrite (assign_carrier_run E (id r) c tr n w eta_t Hc Hadd). cbn [snd shipments].
  split.
  { rewrite (lookup_update_rows _ _ _ _ _ Hi).
    by rewrite bool_decide_eq_true_2. }
  split; [by rewrite Hcreated, parse_iso_isoformat|].
  assert (eta_time (assigned r c tr (Datetime.isoformat eta_t)) = Some eta_t)
    as Heta.
  { unfold eta_time, assigned. cbn [eta mbind option_bind].
    by apply parse_iso_isoformat. }
  split; [done|].
  unfold transit. rewrite Heta. unfold assigned. cbn [created_at].
  rewrite Hcreated, parse_iso_isoformat by done.
  f_equal. unfold whole_days_floor.
  rewrite (add_days_microseconds _ _ _ (HE _) Hadd).
  replace (total_microseconds (clock E (clock_reads w)) + n * 86400000000
           - total_microseconds created)%Z
    with (total_microseconds (clock E (clock_reads w))
          - total_microseconds created + n * 86400000000)%Z by lia.
  rewrite Z.div_add by lia. lia.
Qed.

Lemma assigned_transit_days_witness :
  exists r' created,
    shipments (assign_carrier sample_env "3f2a9c1e" "dhl" "TRK-9" 3 world_one).2
      !! 0 = Some r' /\
    Datetime.parse_iso "2024-01-01T12:00:00" = Some created /\
    eta_time r' = Some (Datetime.mk_datetime 2024 1 5 13 0 0 0) /\
    transit whole_days_floor r'
    = Some (3 + whole_days_floor (clock sample_env (clock_reads world_one))
                  created)%Z.
Proof.
  apply (assigned_transit_days sample_env world_one 0
           (mk_Shipment "3f2a9c1e" "NYC" "LAX" (Float.of_int 5) "standard"
              "pending" None None None "2024-01-01T12:00:00") "dhl" "TRK-9" 3
           (Datetime.mk_datetime 2024 1 5 13 0 0 0)).
  - exact sample_env_ok.
  - exact world_one_ok.
  - reflexivity.
  - apply (bool_decide_unpack _). vm_compute. exact I.
  - vm_compute. reflexivity.
Defined.

Lemma elem_of_update_rows (set : Shipment -> Shipment) (rows : list Shipment) i r s :
  NoDup (id <$> rows) ->
  rows !! i = Some r ->
  (forall x, id (set x) = id x) ->
  s ∈ <[i := set r]> rows <-> (id s <> id r /\ s ∈ rows) \/ s = set r.
Proof.
  intros Hnd Hi Hid.
  rewrite <- (map_update_unique set rows i r Hnd Hi), list_elem_of_fmap.
  split.
  - intros (x & -> & Hx). destruct (decide (id x = id r)) as [Hxr|Hxr].
    + rewrite bool_decide_eq_true_2 by done. right.
      assert (x = r) as ->; [|done].
      apply list_elem_of_lookup in Hx as [j Hj].
      assert (j = i) as ->; [|congruence].
      eapply NoDup_lookup; [exact Hnd| |]; rewrite list_lookup_fmap.
      * by rewrite Hj.
      * by rewrite Hi, Hxr.
    + rewrite bool_decide_eq_false_2 by done. by left.
  - intros [[Hne Hs]| ->].
    + exists s. by rewrite bool_decide_eq_false_2.
    + exists r. rewrite bool_decide_eq_true_2 by done.
      split; [done|]. by eapply list_elem_of_lookup_2.
Qed.

(** X24. After [update_status] on an existing shipment, any query returns
    the rows of the other shipments that it returned before, and the
    updated shipment exactly when its new status (and its priority) pass
    the filters. *)
Theorem update_status_then_get_shipments
    (w : world) (i : nat) (r : Shipment) (st : string)
    (fst fpr : option string) :
  NoDup (id <$> shipments w) ->
  shipments w !! i = Some r ->
  st ∈ SHIPMENT_STATUSES ->
  exists w' before after,
    update_status (id r) st w = (Ok tt, w') /\
    get_shipments fst fpr w = (Ok before, w) /\
    get_shipments fst fpr w' = (Ok after, w') /\
    forall s,
      s ∈ after <->
      (id s <> id r /\ s ∈ before) \/
      (s = with_status r st /\
       keeps status fst s = true /\ keeps priority fpr s = true).
Proof.
  intros Hnd Hi Hst.
  exists (set_rows (<[i := with_status r st]> (shipments w)) w).
  do 2 eexists. split.
  { rewrite update_status_run by done. do 2 f_equal.
    by apply (map_update_unique (fun s => with_status s st)). }
  split; [apply get_shipments_run|]. split; [apply get_shipments_run|].
  intros s. rewrite !elem_of_get_shipments. cbn [shipments set_rows].
  rewrite (elem_of_update_rows (fun s => with_status s st) _ i r s Hnd Hi)
    by done.
  tauto.
Qed.

Lemma update_status_then_get_shipments_witness :
  exists w' before after,
    update_status "3f2a9c1e" "in_transit" world_one = (Ok tt, w') /\
    get_shipments (Some "in_transit") None world_one = (Ok before, world_one) /\
    get_shipments (Some "in_transit") None w' = (Ok after, w') /\
    forall s,
      s ∈ after <->
      (id s <> "3f2a9c1e" /\ s ∈ before) \/
      (s = mk_Shipment "3f2a9c1e" "NYC" "LAX" (Float.of_int 5) "standard"
             "in_transit" None None None "2024-01-01T12:00:00" /\
       keeps status (Some "in_transit") s = true /\
       keeps priority None s = true).
Proof.
  apply (update_status_then_get_shipments world_one 0
           (mk_Shipment "3f2a9c1e" "NYC" "LAX" (Float.of_int 5) "standard"
              "pending" None None None "2024-01-01T12:00:00") "in_transit"
           (Some "in_transit") None).
  - vm_compute. apply NoDup_singleton.
  - reflexivity.
  - apply (bool_decide_unpack _). vm_compute. exact I.
Defined.

Lemma carrier_truthy c : c ∈ CARRIERS -> truthy c = true.
Proof.
  intros Hc. destruct c; [|done].
  repeat (apply elem_of_cons in Hc as [Hc|Hc]; [done|]).
  by apply elem_of_nil in Hc.
Qed.

Lemma group_of_one (key : Shipment -> option string) s k :
  key s = Some k ->
  len <$> foldl (fun d s => match key s with
                            | Some c => group_append c s d
                            | None => d
                            end) ∅ [s]
  = ({[ k := 1%Z ]} : gmap string Z).
Proof.
  intros Hk. apply map_eq. intros k'. cbn [foldl]. rewrite Hk.
  rewrite lookup_fmap, group_append_lookup, lookup_empty.
  destruct (decide (k = k')) as [<-|Hne].
  - by rewrite lookup_singleton_eq.
  - by rewrite lookup_singleton_ne.
Qed.

Lemma update_rows_ids (set : Shipment -> Shipment) sid (rows : list Shipment) :
  (forall s, id (set s) = id s) ->
  id <$> ((fun s => if bool_decide (id s = sid) then set s else s) <$> rows)
  = id <$> rows.
Proof.
  intros Hid. rewrite <- list_fmap_compose. apply list_fmap_ext.
  intros j s _. simpl. by case_bool_decide.
Qed.

(** X25. A shipment whose carrier was just assigned is counted under that
    carrier: [optimize_batch] on its id alone reports one shipment, under
    the carrier assigned and under the priority it was created with. *)
Theorem assign_then_optimize_batch
    (E : env) (w : world) (i : nat) (r : Shipment) (c tr : string) (n : Z)
    (eta_t : Datetime.datetime) :
  NoDup (id <$> shipments w) ->
  shipments w !! i = Some r ->
  c ∈ CARRIERS ->
  Datetime.add_days (clock E (clock_reads w)) n = Ok eta_t ->
  exists w',
    assign_carrier E (id r) c tr n w = (Ok tt, w') /\
    optimize_batch [id r] w'
    = (Ok (mk_BatchSummary 1 {[ c := 1%Z ]} {[ priority r := 1%Z ]}), w').
Proof.
  intros Hnd Hi Hc Hadd.
  set (set := fun s => assigned s c tr (Datetime.isoformat eta_t)).
  exists (mk_world (<[i := set r]> (shipments w)) (S (clock_reads w))
            (uuid_draws w)).
  split.
  { rewrite (assign_carrier_run E (id r) c tr n w eta_t Hc Hadd).
    do 2 f_equal. by apply (map_update_unique set). }
  rewrite optimize_batch_run. cbn [shipments].
  assert (resolve (<[i := set r]> (shipments w)) [id r] = [set r]) as ->.
  { unfold resolve. cbn [omap list_omap].
    change (id r) with (id (set r)). rewrite find_row_unique; [done| |].
    - rewrite <- (map_update_unique set _ i r Hnd Hi).
      by rewrite (update_rows_ids set).
    - apply list_elem_of_lookup. exists i.
      apply list_lookup_insert_eq. by eapply lookup_lt_Some. }
  unfold group_by_carrier, group_by_priority.
  rewrite (group_of_one carrier_set (set r) c).
  - by rewrite (group_of_one (fun s => Some (priority s)) (set r) (priority r)).
  - unfold carrier_set, set, assigned. cbn [carrier].
    by rewrite (carrier_truthy c Hc).
Qed.

Lemma assign_then_optimize_batch_witness :
  exists w',
    assign_carrier sample_env "3f2a9c1e" "usps" "TRK-7" 2 world_one = (Ok tt, w') /\
    optimize_batch ["3f2a9c1e"] w'
    = (Ok (mk_BatchSummary 1 {[ "usps" := 1%Z ]} {[ "standard" := 1%Z ]}), w').
Proof.
  apply (assign_then_optimize_batch sample_env world_one 0
           (mk_Shipment "3f2a9c1e" "NYC" "LAX" (Float.of_int 5) "standard"
              "pending" None None None "2024-01-01T12:00:00") "usps" "TRK-7" 2
           (Datetime.mk_datetime 2024 1 4 13 0 0 0)).
  - vm_compute. apply NoDup_singleton.
  - reflexivity.
  - apply (bool_decide_unpack _). vm_compute. exact I.
  - vm_compute. reflexivity.
Defined.

Lemma len_filter_insert {A} (P : A -> Prop) `{!forall x, Decision (P x)}
    (l : list A) i x y :
  l !! i = Some x ->
  len (filter P (<[i := y]> l))
  = (len (filter P l) - (if bool_decide (P x) then 1 else 0)
     + (if bool_decide (P y) then 1 else 0))%Z.
Proof.
  revert i. induction l as [|a l IH]; intros i Hi; [done|].
  destruct i as [|i]; simpl in Hi.
  - injection Hi as ->. change (<[0 := y]> (x :: l)) with (y :: l).
    rewrite !len_filter_cons. lia.
  - change (<[S i := y]> (a :: l)) with (a :: <[i := y]> l).
    rewrite !len_filter_cons, (IH i Hi). lia.
Qed.

Lemma len_insert {A} (l : list A) i y : len (<[i := y]> l) = len l.
Proof. unfold len. by rewrite length_insert. Qed.

(** X26. [update_status] on an existing shipment moves it between the
    counts of [delivery_stats]: the total stays, and [delivered] and
    [in_exception] each lose the shipment if it had that status and gain it
    if that is the new status. *)
Theorem update_status_moves_counts
    (E : env) (w : world) (i : nat) (r : Shipment) (st : string) :
  table_ok w ->
  shipments w !! i = Some r ->
  st ∈ SHIPMENT_STATUSES ->
  exists before w1 w' after w2,
    delivery_stats E w = (Ok before, w1) /\
    update_status (id r) st w = (Ok tt, w') /\
    delivery_stats E w' = (Ok after, w2) /\
    total_shipments after = total_shipments before /\
    delivered after
    = (delivered before
       - (if bool_decide (status r = "delivered") then 1 else 0)
       + (if bool_decide (st = "delivered") then 1 else 0))%Z /\
    in_exception after
    = (in_exception before
       - (if bool_decide (status r = "exception") then 1 else 0)
       + (if bool_decide (st = "exception") then 1 else 0))%Z.
Proof.
  intros Hw Hi Hst.
  pose proof (update_status_table_ok (id r) st w Hw) as Hw'.
  assert (update_status (id r) st w
          = (Ok tt, set_rows (<[i := with_status r st]> (shipments w)) w)) as Hupd.
  { rewrite update_status_run by done. do 2 f_equal.
    apply (map_update_unique (fun s => with_status s st)); [apply Hw|done]. }
  rewrite Hupd in Hw'. cbn [snd] in Hw'.
  do 5 eexists. split; [by apply delivery_stats_fields|].
  split; [exact Hupd|]. split; [by apply delivery_stats_fields|].
  cbn [total_shipments delivered in_exception shipments set_rows].
  unfold delivered_rows, exception_rows.
  rewrite len_insert,
    !(len_filter_insert _ (shipments w) i r (with_status r st) Hi).
  done.
Qed.

Lemma update_status_moves_counts_witness :
  exists before w1 w' after w2,
    delivery_stats sample_env world_one = (Ok before, w1) /\
    update_status "3f2a9c1e" "delivered" world_one = (Ok tt, w') /\
    delivery_stats sample_env w' = (Ok after, w2) /\
    total_shipments after = total_shipments before /\
    delivered after
    = (delivered before
       - (if bool_decide ("pending" = "delivered") then 1 else 0)
       + (if bool_decide ("delivered" = "delivered") then 1 else 0))%Z /\
    in_exception after
    = (in_exception before
       - (if bool_decide ("pending" = "exception") then 1 else 0)
       + (if bool_decide ("delivered" = "exception") then 1 else 0))%Z.
Proof.
  apply (update_status_moves_counts sample_env world_one 0
           (mk_Shipment "3f2a9c1e" "NYC" "LAX" (Float.of_int 5) "standard"
              "pending" None None None "2024-01-01T12:00:00") "delivered").
  - exact world_one_ok.
  - reflexivity.
  - apply (bool_decide_unpack _). vm_compute. exact I.
Defined.
